(** * Micro-Orchestrator node agent: process table, metrics and HTTP handlers

    A shallow embedding of [agent/node_agent.cpp] and [agent/http_server.cpp].
    The agent is modelled from the point of view of the agent process itself:
    every system call it makes is appended to a trace, and the answers of the
    kernel are given by an arbitrary function of the trace so far. *)

From Stdlib Require Import ZArith QArith Qround Qabs Qpower String Ascii Lia.
From Stdlib Require Import DecimalString DecimalPos.
From Stdlib Require SpecFloat.
From stdpp Require Import base option list gmap strings sorting.

Open Scope Z_scope.

(** ** Machine integers

    [long] is the 64-bit signed integer of the LP64 Linux targets of the
    agent; [pid_t] and [int] are 32-bit.  Values are kept in [Z] and the
    two's-complement wrap-around of [+] and [-] is written out. *)

Definition LONG_MAX : Z := 2 ^ 63 - 1.
Definition LONG_MIN : Z := - 2 ^ 63.
Definition INT_MAX : Z := 2 ^ 31 - 1.
Definition INT_MIN : Z := - 2 ^ 31.

Definition wrap_long (z : Z) : Z := (z + 2 ^ 63) mod 2 ^ 64 - 2 ^ 63.
Definition long_add (a b : Z) : Z := wrap_long (a + b).
Definition long_sub (a b : Z) : Z := wrap_long (a - b).

Definition in_long (z : Z) : Prop := LONG_MIN <= z <= LONG_MAX.

Arguments wrap_long : simpl never.
Arguments long_add : simpl never.
Arguments long_sub : simpl never.

(** ** Double-precision values

    A [double] is a binary64 value: a finite one, kept as the rational it
    denotes, in lowest terms, or one of the IEEE 754 specials.  Every
    conversion and every operation rounds its exact result to the nearest
    binary64 value, a tie going to the even significand, as the default
    rounding mode of the C++ run time does; a result that rounds to
    [2 ^ 1024] or beyond is an infinity.  The sign of a zero is not kept: the
    one operation whose result depends on it, the division of a non-zero
    value by a zero, takes the zero as positive, which is what every divisor
    of the agent, a converted [long], is. *)

Inductive double : Type :=
| DFin (q : Q)
| DInf (negative : bool)
| DNaN.

Definition q_is_zero (q : Q) : bool := Qnum q =? 0.
Definition q_is_neg (q : Q) : bool := Qnum q <? 0.

Definition pow2 (e : Z) : Q := Qpower 2 e.

(** [floor (log2 q)] of a positive [q]. *)
Definition floor_log2 (q : Q) : Z :=
  let e := Z.log2 (Qnum q) - Z.log2 (Zpos (Qden q)) in
  if Qle_bool (pow2 e) q then e else e - 1.

(** The nearest integer, a tie going to the even one. *)
Definition round_even (x : Q) : Z :=
  let f := Qfloor x in
  match (x - inject_Z f ?= 1 # 2)%Q with
  | Lt => f
  | Gt => f + 1
  | Eq => if Z.even f then f else f + 1
  end.

(** The exponent of the unit in the last place of a positive [q]: 53
    significant bits, and no less than that of the subnormal numbers. *)
Definition ulp_exponent (q : Q) : Z := Z.max (floor_log2 q - 52) (-1074).

Definition round_positive (q : Q) : Q :=
  let e := ulp_exponent q in
  Qred (inject_Z (round_even (q / pow2 e)) * pow2 e).

(** Rounding to nearest, ties to even, with an unbounded exponent above. *)
Definition round64 (q : Q) : Q :=
  match Qnum q with
  | 0 => 0%Q
  | Zpos _ => round_positive q
  | Zneg _ => Qopp (round_positive (Qopp q))
  end.

Definition to_double (q : Q) : double :=
  let r := round64 q in
  if Qle_bool (pow2 1024) (Qabs r) then DInf (q_is_neg q) else DFin r.

(** The conversion [(double) z] of a [long]. *)
Definition of_long (z : Z) : double := to_double (inject_Z z).

Definition dsub (x y : double) : double :=
  match x, y with
  | DNaN, _ | _, DNaN => DNaN
  | DFin a, DFin b => to_double (a - b)
  | DFin _, DInf s => DInf (negb s)
  | DInf s, DFin _ => DInf s
  | DInf s, DInf t => if Bool.eqb s t then DNaN else DInf s
  end.

Definition dmul (x y : double) : double :=
  match x, y with
  | DNaN, _ | _, DNaN => DNaN
  | DFin a, DFin b => to_double (a * b)
  | DFin a, DInf s | DInf s, DFin a =>
      if q_is_zero a then DNaN else DInf (xorb (q_is_neg a) s)
  | DInf s, DInf t => DInf (xorb s t)
  end.

Definition ddiv (x y : double) : double :=
  match x, y with
  | DNaN, _ | _, DNaN => DNaN
  | DFin a, DFin b =>
      if q_is_zero b
      then (if q_is_zero a then DNaN else DInf (q_is_neg a))
      else to_double (a / b)
  | DFin _, DInf _ => DFin 0
  | DInf s, DFin b => DInf (xorb s (q_is_neg b))
  | DInf _, DInf _ => DNaN
  end.

Arguments round64 : simpl never.
Arguments to_double : simpl never.
Arguments of_long : simpl never.
Arguments dsub : simpl never.
Arguments dmul : simpl never.
Arguments ddiv : simpl never.

Definition d0 : double := DFin 0.
Definition d1 : double := DFin 1.
Definition d100 : double := DFin 100.

Definition is_finite (x : double) : bool :=
  match x with DFin _ => true | _ => false end.

(** [x < 0], false on NaN as every IEEE comparison is. *)
Definition is_negative (x : double) : bool :=
  match x with
  | DFin q => q_is_neg q
  | DInf s => s
  | DNaN => false
  end.

(** [lo <= x <= hi] for finite bounds. *)
Definition in_range (lo hi : Q) (x : double) : Prop :=
  match x with
  | DFin q => (lo <= q)%Q /\ (q <= hi)%Q
  | _ => False
  end.

(** ** Structures of node_agent.h *)

Record ProcessInfo : Type := mkProcessInfo {
  pid : Z;
  command : string;
  start_time : string;
  status : string;
}.

Module SystemMetrics.
(** [total_memory] and [available_memory] are [None] while the
    uninitialised struct member has not been assigned. *)
Record t : Type := mk {
  cpu_usage : double;
  memory_usage : double;
  total_memory : option Z;
  available_memory : option Z;
  running_processes : Z;
}.
End SystemMetrics.

(** The members of [NodeAgent] that the process table and the metrics use. *)
Record NodeAgent : Type := mkNodeAgent {
  running_processes : gmap Z ProcessInfo;
  prev_total_time : Z;
  prev_idle_time : Z;
}.

(** [NodeAgent::NodeAgent]. *)
Definition NodeAgent_new : NodeAgent :=
  {| running_processes := ∅; prev_total_time := 0; prev_idle_time := 0 |}.

(** ** The kernel as seen by the agent *)

Inductive Signal : Type := SIGNULL | SIGTERM | SIGKILL.

(** The eight counters of the aggregate [cpu] line of /proc/stat, as
    [sscanf] stores them. *)
Record CpuSample : Type := mkCpuSample {
  user : Z; nice : Z; system : Z; idle : Z;
  iowait : Z; irq : Z; softirq : Z; steal : Z;
}.

Inductive Event : Type :=
| EFork
| EKill (p : Z) (sig : Signal)
| ESleepMs (ms : Z)
| EClock
| EReadStat
| EReadMeminfo.

(** Answers of the kernel, each a function of the calls made so far.
    [proc_stat] is [None] when /proc/stat cannot be opened or has no first
    line; [proc_meminfo] is [None] when /proc/meminfo cannot be opened and
    the list of its lines otherwise. *)
Record Kernel : Type := mkKernel {
  fork_result : list Event -> Z;
  kill_result : list Event -> Z -> Signal -> Z;
  local_time : list Event -> string;
  proc_stat : list Event -> option CpuSample;
  proc_meminfo : list Event -> option (list string);
}.

Record World : Type := mkWorld {
  agent : NodeAgent;
  trace : list Event;
}.

Definition M (A : Type) : Type := Kernel -> World -> A * World.

Definition ret {A} (a : A) : M A := fun _ w => (a, w).

Definition bind {A B} (m : M A) (f : A -> M B) : M B :=
  fun k w => let (a, w') := m k w in f a k w'.

Notation "'let*' x ':=' m 'in' f" := (bind m (fun x => f))
  (at level 10, x name, m at level 100, f at level 200).

Definition syscall {A} (e : Event) (answer : Kernel -> list Event -> A) : M A :=
  fun k w => (answer k (trace w), {| agent := agent w; trace := trace w ++ [e] |}).

Definition get_agent : M NodeAgent := fun _ w => (agent w, w).

Definition put_agent (a : NodeAgent) : M unit :=
  fun _ w => (tt, {| agent := a; trace := trace w |}).

Definition fork : M Z := syscall EFork fork_result.
Definition kill (p : Z) (sig : Signal) : M Z :=
  syscall (EKill p sig) (fun k h => kill_result k h p sig).
Definition sleep_for_ms (ms : Z) : M unit := syscall (ESleepMs ms) (fun _ _ => tt).
Definition get_current_time : M string := syscall EClock local_time.
Definition read_proc_stat : M (option CpuSample) := syscall EReadStat proc_stat.
Definition read_proc_meminfo : M (option (list string)) := syscall EReadMeminfo proc_meminfo.

(** ** CPU usage: [NodeAgent::calculate_cpu_usage] *)

Definition total_time_of (s : CpuSample) : Z :=
  long_add (long_add (long_add (long_add (long_add (long_add (long_add
    (user s) (nice s)) (system s)) (idle s)) (iowait s)) (irq s)) (softirq s)) (steal s).

Definition idle_time_of (s : CpuSample) : Z := long_add (idle s) (iowait s).

Definition set_prev (total_time idle_time : Z) : M unit :=
  let* a := get_agent in
  put_agent {| running_processes := running_processes a;
               prev_total_time := total_time;
               prev_idle_time := idle_time |}.

Definition calculate_cpu_usage : M double :=
  let* stat_file := read_proc_stat in
  match stat_file with
  | None => ret d0
  | Some s =>
      let total_time := total_time_of s in
      let idle_time := idle_time_of s in
      let* a := get_agent in
      if prev_total_time a >? 0 then
        let total_diff := long_sub total_time (prev_total_time a) in
        let idle_diff := long_sub idle_time (prev_idle_time a) in
        if total_diff >? 0 then
          let cpu_usage := dmul d100 (dsub d1 (ddiv (of_long idle_diff) (of_long total_diff))) in
          let* _ := set_prev total_time idle_time in
          ret cpu_usage
        else
          let* _ := set_prev total_time idle_time in
          ret d0
      else
        let* _ := set_prev total_time idle_time in
        ret d0
  end.

(** ** Text scanning shared by [sscanf] and [std::stoi] *)

Definition isspace (c : ascii) : bool :=
  let n := nat_of_ascii c in
  ((n =? 32) || ((9 <=? n) && (n <=? 13)))%nat.

Definition isdigit (c : ascii) : bool :=
  let n := nat_of_ascii c in ((48 <=? n) && (n <=? 57))%nat.

Definition digit_value (c : ascii) : Z := Z.of_nat (nat_of_ascii c) - 48.

Fixpoint string_drop (n : nat) (s : string) : string :=
  match n, s with
  | S n', String _ s' => string_drop n' s'
  | _, _ => s
  end.

(** Number of leading characters of [s] that satisfy [f]. *)
Fixpoint count_while (f : ascii -> bool) (s : string) : nat :=
  match s with
  | String c s' => if f c then S (count_while f s') else O
  | EmptyString => O
  end.

Fixpoint digit_prefix (s : string) : list Z :=
  match s with
  | String c s' => if isdigit c then digit_value c :: digit_prefix s' else []
  | EmptyString => []
  end.

Definition decimal (ds : list Z) : Z := fold_left (fun acc d => 10 * acc + d) ds 0.

(** The subject sequence of a base-10 [strtol]: white space, an optional
    sign, digits.  [None] when there is no digit; the value is not yet
    narrowed to a machine type. *)
Definition strtol10 (s : string) : option Z :=
  let s := string_drop (count_while isspace s) s in
  let '(neg, s) :=
    match s with
    | String "-"%char s' => (true, s')
    | String "+"%char s' => (false, s')
    | _ => (false, s)
    end in
  match digit_prefix s with
  | [] => None
  | ds => Some (if neg : bool then - decimal ds else decimal ds)
  end.

Definition clamp (lo hi z : Z) : Z := Z.max lo (Z.min hi z).

(** [sscanf(line, "<literal> %ld", &x)] for a line that starts with the
    literal: the value stored in [x], or [None] when the conversion fails and
    [x] keeps its old value.  Out-of-range input saturates, as glibc does. *)
Definition sscanf_ld (literal line : string) : option Z :=
  if String.prefix literal line
  then clamp LONG_MIN LONG_MAX <$> strtol10 (string_drop (String.length literal) line)
  else None.

(** ** Memory usage: [NodeAgent::calculate_memory_usage] *)

(** The [while (std::getline(meminfo, line))] loop, which the source has
    twice: over locals initialised to 0 in [calculate_memory_usage] and over
    the unset members of the metrics struct in [get_system_metrics]. *)
Fixpoint scan_meminfo {A} (store : Z -> A) (lines : list string)
    (total_memory available_memory : A) : A * A :=
  match lines with
  | [] => (total_memory, available_memory)
  | line :: rest =>
      if String.prefix "MemTotal:" line then
        scan_meminfo store rest
          (from_option store total_memory (sscanf_ld "MemTotal:" line)) available_memory
      else if String.prefix "MemAvailable:" line then
        scan_meminfo store rest
          total_memory (from_option store available_memory (sscanf_ld "MemAvailable:" line))
      else scan_meminfo store rest total_memory available_memory
  end.

(** What [calculate_memory_usage] returns for the file it has read, or
    failed to open. *)
Definition memory_usage_of (meminfo : option (list string)) : double :=
  match meminfo with
  | None => d0
  | Some lines =>
      let '(total_memory, available_memory) := scan_meminfo id lines 0 0 in
      if total_memory >? 0
      then dmul d100 (dsub d1 (ddiv (of_long available_memory) (of_long total_memory)))
      else d0
  end.

Definition calculate_memory_usage : M double :=
  let* meminfo := read_proc_meminfo in
  ret (memory_usage_of meminfo).

(** ** [NodeAgent::get_system_metrics]

    The table holds far fewer than 2^31 entries, so the conversion of its
    size to [int] is the identity. *)

Definition get_system_metrics : M SystemMetrics.t :=
  let* cpu := calculate_cpu_usage in
  let* mem := calculate_memory_usage in
  let* meminfo := read_proc_meminfo in
  let fields :=
    match meminfo with
    | Some lines => scan_meminfo Some lines None None
    | None => (None, None)
    end in
  let* a := get_agent in
  ret {| SystemMetrics.cpu_usage := cpu;
         SystemMetrics.memory_usage := mem;
         SystemMetrics.total_memory := fields.1;
         SystemMetrics.available_memory := fields.2;
         SystemMetrics.running_processes := Z.of_nat (size (running_processes a)) |}.

(** ** The process table: [start_process], [stop_process],
    [get_running_processes], [cleanup_zombie_processes]

    Every one of them holds [processes_mutex] while it touches the table, so
    each is one atomic step on the table. *)

(** What a call leaves behind in the process that made it.  After [fork]
    the same code runs in two processes: in the parent the call returns, the
    child replaces its image with the script (or exits with status 1) and
    never returns into the agent. *)
Inductive Outcome (A : Type) : Type :=
| Returns (a : A) (w : World)
| Execs (script_path : string) (w : World).
Arguments Returns {A} a w.
Arguments Execs {A} script_path w.

Definition returns {A} (m : M A) : Kernel -> World -> Outcome A :=
  fun k w => let (a, w') := m k w in Returns a w'.

Definition table_insert (p : Z) (info : ProcessInfo) : M unit :=
  let* a := get_agent in
  put_agent {| running_processes := <[p := info]> (running_processes a);
               prev_total_time := prev_total_time a;
               prev_idle_time := prev_idle_time a |}.

Definition table_erase (p : Z) : M unit :=
  let* a := get_agent in
  put_agent {| running_processes := delete p (running_processes a);
               prev_total_time := prev_total_time a;
               prev_idle_time := prev_idle_time a |}.

Definition start_process (script_path : string) : Kernel -> World -> Outcome Z :=
  fun k w =>
    let (p, w1) := fork k w in
    if p =? 0 then Execs script_path w1
    else if p >? 0 then
      returns
        (let* now := get_current_time in
         let info := {| pid := p; command := script_path;
                        start_time := now; status := "RUNNING" |} in
         let* _ := table_insert p info in
         ret p) k w1
    else Returns (-1) w1.

Definition stop_process (p : Z) : M bool :=
  let* a := get_agent in
  match running_processes a !! p with
  | None => ret false
  | Some _ =>
      let* term := kill p SIGTERM in
      if term =? 0 then
        let* _ := sleep_for_ms 500 in
        let* alive := kill p SIGNULL in
        let* _ := (if alive =? 0
                   then let* _ := kill p SIGKILL in ret tt
                   else ret tt) in
        let* _ := table_erase p in
        ret true
      else ret false
  end.

(** Iteration over a [std::map] visits the entries by ascending key. *)
Definition key_le (x y : Z * ProcessInfo) : Prop := x.1 <= y.1.

#[global] Instance key_le_dec : RelDecision key_le.
Proof. intros x y. unfold key_le. apply _. Defined.

Definition entries (table : gmap Z ProcessInfo) : list (Z * ProcessInfo) :=
  merge_sort key_le (map_to_list table).

Definition get_running_processes : M (list ProcessInfo) :=
  let* a := get_agent in
  ret ((entries (running_processes a)).*2).

(** The loop of [cleanup_zombie_processes]: the only element ever erased is
    the one under the iterator, so the keys visited are those of the table at
    entry. *)
Fixpoint reap (pids : list Z) : M unit :=
  match pids with
  | [] => ret tt
  | p :: rest =>
      let* alive := kill p SIGNULL in
      let* _ := (if alive =? 0 then ret tt else table_erase p) in
      reap rest
  end.

Definition cleanup_zombie_processes : M unit :=
  let* a := get_agent in
  reap ((entries (running_processes a)).*1).

(** ** The HTTP handlers of [HttpServer] *)

Definition dquote : ascii := ascii_of_nat 34.
Definition dq : string := String dquote EmptyString.

Definition is_blank (c : ascii) : bool :=
  let n := nat_of_ascii c in ((n =? 32) || (n =? 9))%nat.

(** [std::isdigit(c) || c == '.' || c == '-']. *)
Definition is_numeric_char (c : ascii) : bool :=
  let n := nat_of_ascii c in (isdigit c || (n =? 46) || (n =? 45))%nat.

Definition ascii_eqb (a b : ascii) : bool := (nat_of_ascii a =? nat_of_ascii b)%nat.

(** [HttpServer::parse_json_field]; [std::string::npos] is [None]. *)
Definition parse_json_field (json field : string) : string :=
  let pattern := String.append dq (String.append field (String.append dq ":")) in
  match String.index 0 pattern json with
  | None => EmptyString
  | Some pos =>
      let pos := (pos + String.length pattern)%nat in
      let pos := (pos + count_while is_blank (string_drop pos json))%nat in
      match String.get pos json with
      | None => EmptyString
      | Some c =>
          if ascii_eqb c dquote then
            let pos := S pos in
            match String.index pos dq json with
            | None => EmptyString
            | Some end_pos => String.substring pos (end_pos - pos) json
            end
          else
            let end_pos := (pos + count_while is_numeric_char (string_drop pos json))%nat in
            String.substring pos (end_pos - pos) json
      end
  end.

(** [std::stoi]: the value, or the exception it throws. *)
Inductive stoi_result : Type :=
| StoiValue (v : Z)
| StoiInvalidArgument
| StoiOutOfRange.

Definition stoi (s : string) : stoi_result :=
  match strtol10 s with
  | None => StoiInvalidArgument
  | Some v => if (INT_MIN <=? v) && (v <=? INT_MAX) then StoiValue v else StoiOutOfRange
  end.

(** The JSON documents the handlers write, before they are printed. *)
Inductive Json : Type :=
| JsonError (error : string)
| JsonStarted (p : Z)
| JsonStopped
| JsonStatus (metrics : SystemMetrics.t) (count : nat) (processes : list ProcessInfo).

Record Response : Type := mkResponse {
  status_code : Z;
  status_text : string;
  data : Json;
}.

Definition create_json_response (data : Json) (status_code : Z) : Response :=
  {| status_code := status_code;
     status_text :=
       if status_code =? 200 then "OK"
       else if status_code =? 400 then "Bad Request"
       else if status_code =? 404 then "Not Found"
       else if status_code =? 500 then "Internal Server Error"
       else "Unknown";
     data := data |}.

Definition create_error_response (error : string) (status_code : Z) : Response :=
  create_json_response (JsonError error) status_code.

(** [HttpServer::handle_status_request] as one thread runs it, no other
    thread taking [processes_mutex] between the critical section at the end
    of [get_system_metrics] and that of [get_running_processes]. *)
Definition handle_status_request : M Response :=
  let* metrics := get_system_metrics in
  let* processes := get_running_processes in
  ret (create_json_response (JsonStatus metrics (length processes) processes) 200).

Definition handle_start_request (body : string) : Kernel -> World -> Outcome Response :=
  fun k w =>
    let script_path := parse_json_field body "script_path" in
    if String.eqb script_path EmptyString then
      Returns (create_error_response "Missing script_path field" 400) w
    else
      match start_process script_path k w with
      | Execs path w' => Execs path w'
      | Returns p w' =>
          if p >? 0 then Returns (create_json_response (JsonStarted p) 200) w'
          else Returns (create_error_response "Failed to start process" 500) w'
      end.

Definition handle_stop_request (body : string) : M Response :=
  let pid_str := parse_json_field body "pid" in
  if String.eqb pid_str EmptyString then
    ret (create_error_response "Missing pid field" 400)
  else
    match stoi pid_str with
    | StoiValue p =>
        let* stopped := stop_process p in
        if stopped : bool then ret (create_json_response JsonStopped 200)
        else ret (create_error_response "Failed to stop process" 500)
    | StoiInvalidArgument | StoiOutOfRange =>
        ret (create_error_response "Invalid PID format" 400)
    end.

(** The routing at the end of [HttpServer::handle_client]. *)
Definition route (method path body : string) : Kernel -> World -> Outcome Response :=
  if String.eqb method "GET" && String.eqb path "/status" then
    returns handle_status_request
  else if String.eqb method "POST" && String.eqb path "/start" then
    handle_start_request body
  else if String.eqb method "POST" && String.eqb path "/stop" then
    returns (handle_stop_request body)
  else
    returns (ret (create_error_response "Not Found" 404)).


(** ** Printing integers: [std::to_string] and [operator<<] *)

Definition to_string (z : Z) : string :=
  DecimalString.NilZero.string_of_int (Z.to_int z).

(** ** The line protocol of [NodeAgent]: [split_string], [handle_command] *)

Definition string_is_empty (s : string) : bool :=
  match s with EmptyString => true | String _ _ => false end.

Definition push_back (s : string) (c : ascii) : string :=
  String.append s (String c EmptyString).

(** The tokens that [std::getline(ss, token, delimiter)] yields one after the
    other, with the empty ones left out; [token] holds the characters read
    since the last delimiter. *)
Fixpoint split_string_from (str : string) (delimiter : ascii) (token : string)
    : list string :=
  match str with
  | EmptyString => if string_is_empty token then [] else [token]
  | String c rest =>
      if ascii_eqb c delimiter
      then (if string_is_empty token then [] else [token])
             ++ split_string_from rest delimiter EmptyString
      else split_string_from rest delimiter (push_back token c)
  end.

Definition split_string (str : string) (delimiter : ascii) : list string :=
  split_string_from str delimiter EmptyString.

(** What a command is answered with: a line of text, or the status report,
    whose numbers are printed by the stream with two decimals. *)
Inductive Reply : Type :=
| ReplyText (text : string)
| ReplyStatus (metrics : SystemMetrics.t) (processes : list ProcessInfo).

Definition handle_start_command (args : list string) : Kernel -> World -> Outcome Reply :=
  fun k w =>
    match args with
    | _ :: script_path :: _ =>
        match start_process script_path k w with
        | Execs path w' => Execs path w'
        | Returns p w' =>
            if p >? 0
            then Returns (ReplyText
                   (String.append "SUCCESS: Process started with PID " (to_string p))) w'
            else Returns (ReplyText "ERROR: Failed to start process") w'
        end
    | _ => Returns (ReplyText "ERROR: START command requires script path") w
    end.

Definition handle_stop_command (args : list string) : M Reply :=
  match args with
  | _ :: pid_arg :: _ =>
      match stoi pid_arg with
      | StoiValue p =>
          let* stopped := stop_process p in
          if stopped : bool
          then ret (ReplyText (String.append "SUCCESS: Process "
                                 (String.append (to_string p) " stopped")))
          else ret (ReplyText (String.append "ERROR: Failed to stop process "
                                 (to_string p)))
      | StoiInvalidArgument | StoiOutOfRange =>
          ret (ReplyText "ERROR: Invalid PID format")
      end
  | _ => ret (ReplyText "ERROR: STOP command requires PID")
  end.

Definition handle_status_command : M Reply :=
  let* metrics := get_system_metrics in
  let* processes := get_running_processes in
  ret (ReplyStatus metrics processes).

Definition space : ascii := ascii_of_nat 32.

Definition handle_command (command : string) : Kernel -> World -> Outcome Reply :=
  match split_string command space with
  | [] => returns (ret (ReplyText "ERROR: Empty command"))
  | (cmd :: _) as args =>
      if String.eqb cmd "START" then handle_start_command args
      else if String.eqb cmd "STOP" then returns (handle_stop_command args)
      else if String.eqb cmd "STATUS" then returns handle_status_command
      else returns (ret (ReplyText (String.append "ERROR: Unknown command: " cmd)))
  end.

(** ** Reading a request: [HttpServer::handle_client]

    The request is scanned through a [std::istringstream].  The stream is
    the text not yet read, or [None] once an extraction has failed. *)

(** [stream >> word]: skips white space and reads up to the next white
    space; fails when nothing is left to read. *)
Definition extract_word (stream : option string) : string * option string :=
  match stream with
  | None => (EmptyString, None)
  | Some s =>
      let s := string_drop (count_while isspace s) s in
      let n := count_while (fun c => negb (isspace c)) s in
      match n with
      | O => (EmptyString, None)
      | _ => (String.substring 0 n s, Some (string_drop n s))
      end
  end.

(** The lines that successive calls of [std::getline(stream, line)] yield
    until the call fails; [line] holds the characters read since the last
    newline. *)
Fixpoint getlines_from (s : string) (line : string) : list string :=
  match s with
  | EmptyString => if string_is_empty line then [] else [line]
  | String c rest =>
      if ascii_eqb c (ascii_of_nat 10)
      then line :: getlines_from rest EmptyString
      else getlines_from rest (push_back line c)
  end.

Definition getlines (stream : option string) : list string :=
  match stream with
  | None => []
  | Some s => getlines_from s EmptyString
  end.

Definition cr : string := String (ascii_of_nat 13) EmptyString.

(** [if (line.back() == '\r') line.pop_back()]. *)
Fixpoint pop_back_cr (line : string) : string :=
  match line with
  | EmptyString => EmptyString
  | String c EmptyString => if ascii_eqb c (ascii_of_nat 13) then EmptyString else line
  | String c rest => String c (pop_back_cr rest)
  end.

(** The two [erase] calls that trim blanks and tabs off a header value:
    [find_first_not_of] gives the number of leading blanks (or [npos], and
    then everything is erased); [find_last_not_of] gives the last position
    to keep. *)
Fixpoint last_not_blank (s : string) (pos : nat) : option nat :=
  match s with
  | EmptyString => None
  | String c rest =>
      match last_not_blank rest (S pos) with
      | Some found => Some found
      | None => if is_blank c then None else Some pos
      end
  end.

Definition trim_blanks (value : string) : string :=
  let value := string_drop (count_while is_blank value) value in
  match last_not_blank value O with
  | Some last => String.substring 0 (S last) value
  | None => EmptyString
  end.

(** The body of the header loop for the lines still to come. *)
Fixpoint read_headers (lines : list string) (headers : gmap string string)
    : gmap string string :=
  match lines with
  | [] => headers
  | line :: rest =>
      if String.eqb line cr || string_is_empty line then headers
      else
        let line := pop_back_cr line in
        if string_is_empty line then headers
        else
          match String.index 0 ":" line with
          | Some colon_pos =>
              let key := String.substring 0 colon_pos line in
              let value := string_drop (S colon_pos) line in
              read_headers rest (<[key := trim_blanks value]> headers)
          | None => read_headers rest headers
          end
  end.

(** How the handling of one connection ends. *)
Inductive Handled : Type :=
| Closed (w : World)
| Sent (response : Response) (w : World)
| Replaced (script_path : string) (w : World)
| Terminated.

(** [recv_body n] is what [std::string(buffer)] holds after
    [recv(client_socket, buffer, n, 0)], or [None] when no byte was read.
    An exception of [std::stoi] on the Content-Length value, or of
    [new char[content_length + 1]] on a negative size, is caught nowhere in
    the thread and ends the process. *)
Definition handle_client (request : string) (recv_body : Z -> option string)
    : Kernel -> World -> Handled :=
  fun k w =>
    if string_is_empty request then Closed w
    else
      let '(method, stream) := extract_word (Some request) in
      let '(path, stream) := extract_word stream in
      let '(version, stream) := extract_word stream in
      let headers := read_headers (getlines stream) ∅ in
      let body :=
        match headers !! "Content-Length" with
        | None => Some EmptyString
        | Some value =>
            match stoi value with
            | StoiValue content_length =>
                if content_length + 1 <? 0 then None
                else Some (default EmptyString (recv_body content_length))
            | StoiInvalidArgument | StoiOutOfRange => None
            end
        end in
      match body with
      | None => Terminated
      | Some body =>
          match route method path body k w with
          | Returns response w' => Sent response w'
          | Execs script_path w' => Replaced script_path w'
          end
      end.
(** * Auxiliary definitions for the statements *)

(** The expression that both usage calculations evaluate:
    [100.0 * (1.0 - (double)part / whole)]. *)
Definition percent_used (part whole : Z) : double :=
  dmul d100 (dsub d1 (ddiv (of_long part) (of_long whole))).

(** Rounding to the multiples of [2 ^ e]. *)
Definition grid (e : Z) (x : Q) : Q := (inject_Z (round_even (x / pow2 e)) * pow2 e)%Q.

(** The value of [percent_used] on operands that stay finite, each of its
    five roundings written out. *)
Definition percent_rounded (part whole : Z) : Q :=
  round64 (100 * round64 (1 - round64 (round64 (inject_Z part) / round64 (inject_Z whole)))).

(** ** The Standard Library's specification of IEEE 754

    [SpecFloat] has the binary64 values as sign, significand and exponent
    and computes their operations on these.  Its values are read here as
    values of [double], for the comparison of its operations with the
    rounding of [to_double] on sample operands. *)
Definition of_spec_float (x : SpecFloat.spec_float) : double :=
  match x with
  | SpecFloat.S754_zero _ => DFin 0
  | SpecFloat.S754_infinity s => DInf s
  | SpecFloat.S754_nan => DNaN
  | SpecFloat.S754_finite s m e =>
      DFin (Qred ((if s then -1 else 1) * inject_Z (Zpos m) * pow2 e))
  end.

(** The binary64 value nearest to [m * 2 ^ e]. *)
Definition binary64 (m e : Z) : SpecFloat.spec_float :=
  SpecFloat.binary_normalize 53 1024 m e false.

Definition double_eqb (x y : double) : bool :=
  match x, y with
  | DFin a, DFin b => (Qnum a =? Qnum b) && Pos.eqb (Qden a) (Qden b)
  | DInf s, DInf t => Bool.eqb s t
  | DNaN, DNaN => true
  | _, _ => false
  end.

(** Conversion, quotient, product and difference of [m1 * 2 ^ e1] and
    [m2 * 2 ^ e2] are the same in both. *)
Definition agrees_with_spec_float (a b : Z * Z) : bool :=
  let x := binary64 a.1 a.2 in
  let y := binary64 b.1 b.2 in
  let x' := to_double (inject_Z a.1 * pow2 a.2) in
  let y' := to_double (inject_Z b.1 * pow2 b.2) in
  double_eqb (of_spec_float x) x' &&
  double_eqb (of_spec_float (SpecFloat.SFdiv 53 1024 x y)) (ddiv x' y') &&
  double_eqb (of_spec_float (SpecFloat.SFmul 53 1024 x y)) (dmul x' y') &&
  double_eqb (of_spec_float (SpecFloat.SFsub 53 1024 x y)) (dsub x' y').

(** Small integers, integers beyond 53 bits, a value that needs rounding,
    the largest finite value, the overflow threshold and subnormal numbers. *)
Definition sample_operands : list (Z * Z) :=
  [(1, 0); (3, 0); (-3, 5); (100, 0); (2 ^ 53 + 1, 0); (2 ^ 63 - 1, 0);
   (12345678901234567890, -40); (2 ^ 54 - 1, 970); (1, 1024);
   (1, -1074); (3, -1076); (2 ^ 53 + 3, -1075)].

(** The expression of both usage calculations, evaluated by [SpecFloat]. *)
Definition percent_used_spec_float (part whole : Z) : double :=
  of_spec_float
    (SpecFloat.SFmul 53 1024 (binary64 100 0)
       (SpecFloat.SFsub 53 1024 (binary64 1 0)
          (SpecFloat.SFdiv 53 1024 (binary64 part 0) (binary64 whole 0)))).

Definition sample_figures : list (Z * Z) :=
  [(100, 150); (1, 3); (2, 3); (-5, 7); (20, 7); (99, 100); (101, 100); (0, 5);
   (4096064, 16384256); (123456789, 987654321); (2 ^ 53 + 1, 2 ^ 53);
   (2 ^ 53 + 3, 2 ^ 53); (-1, 2 ^ 54); (2 ^ 62 - 1, 2 ^ 62 + 3); (1, 2 ^ 63 - 1);
   (2 ^ 63 - 1, 1); (- 2 ^ 63, 1); (5, 0); (0, 0); (-5, 0)].

Definition remember_sample (a : NodeAgent) (s : CpuSample) : NodeAgent :=
  {| running_processes := running_processes a;
     prev_total_time := total_time_of s;
     prev_idle_time := idle_time_of s |}.

Definition after_syscall (e : Event) (a : NodeAgent) (w : World) : World :=
  {| agent := a; trace := trace w ++ [e] |}.

(** ** The figure of the specification

    [100 * (1 - Δ(idle+iowait) / Δtotal)], where total is the sum of the
    eight counters, written from the words of the specification and evaluated
    in double arithmetic. *)

Definition counters_total (s : CpuSample) : Z :=
  user s + nice s + system s + idle s + iowait s + irq s + softirq s + steal s.

Definition counters_idle (s : CpuSample) : Z := idle s + iowait s.

Definition cpu_usage_spec (earlier later : CpuSample) : double :=
  dmul d100 (dsub d1
    (ddiv (of_long (counters_idle later - counters_idle earlier))
          (of_long (counters_total later - counters_total earlier)))).

(** Counters as the kernel publishes them: non-negative tick counts, far
    below the point where a sum of eight leaves the range of [long]. *)
Definition kernel_counters (s : CpuSample) : bool :=
  forallb (fun c => (0 <=? c) && (c <? 2 ^ 59))
    [user s; nice s; system s; idle s; iowait s; irq s; softirq s; steal s].

(** ** Scripted kernels and concrete inputs *)

#[global] Instance Signal_eq_dec : EqDecision Signal.
Proof. solve_decision. Defined.

#[global] Instance Event_eq_dec : EqDecision Event.
Proof. solve_decision. Defined.

Definition count_event (e : Event) (h : list Event) : nat :=
  length (filter (fun x => x = e) h).

(** A kernel whose n-th [fork] returns the n-th of [children] (and fails
    after that), whose n-th read of /proc/stat returns the n-th of [stat]
    (the file is unreadable after that), and whose /proc/meminfo never
    changes. *)
Definition scripted_kernel (children : list Z)
    (signals : list Event -> Z -> Signal -> Z)
    (stat : list CpuSample) (meminfo : option (list string)) : Kernel :=
  {| fork_result := fun h => nth (count_event EFork h) children (-1);
     kill_result := signals;
     local_time := fun _ => "2024-05-01 12:00:00";
     proc_stat := fun h => stat !! count_event EReadStat h;
     proc_meminfo := fun _ => meminfo |}.

(** Every signal is delivered, every process stays alive. *)
Definition all_alive : list Event -> Z -> Signal -> Z := fun _ _ _ => 0.

(** No process exists any more: every [kill] fails. *)
Definition all_dead : list Event -> Z -> Signal -> Z := fun _ _ _ => -1.

(** The process takes SIGTERM and is gone when the grace period ends. *)
Definition dies_on_term : list Event -> Z -> Signal -> Z :=
  fun _ _ sig => match sig with SIGTERM => 0 | _ => -1 end.

Definition ticks (busy idle_ticks : Z) : CpuSample :=
  {| user := busy; nice := 0; system := 0; idle := idle_ticks;
     iowait := 0; irq := 0; softirq := 0; steal := 0 |}.

Definition fresh_world : World := {| agent := NodeAgent_new; trace := [] |}.

Definition cpu_kernel (stat : list CpuSample) : Kernel :=
  scripted_kernel [] all_alive stat None.

Definition mem_kernel (meminfo : list string) : Kernel :=
  scripted_kernel [] all_alive [] (Some meminfo).


(** [n] successive calls of [calculate_cpu_usage]. *)
Fixpoint sample_cpu_usage (n : nat) : M (list double) :=
  match n with
  | O => ret []
  | S n' =>
      let* r := calculate_cpu_usage in
      let* rs := sample_cpu_usage n' in
      ret (r :: rs)
  end.

(** The first lines of /proc/meminfo on a 16 GB host. *)
Definition meminfo_typical : list string :=
  ["MemTotal:       16384256 kB";
   "MemFree:         1203804 kB";
   "MemAvailable:    4096064 kB";
   "Buffers:          512000 kB"].

(** A meminfo whose available figure exceeds the total. *)
Definition meminfo_over : list string :=
  ["MemTotal: 100 kB"; "MemAvailable: 200 kB"].

(** ** Operations on the agent and runs of them *)

Inductive Op : Type :=
| OpStart (script_path : string)
| OpStop (p : Z)
| OpStatus
| OpReap.

(** One operation, in the process that goes on being the agent: [None] is
    the child side of a [fork], which leaves the agent's code for good. *)
Definition run_op (op : Op) (k : Kernel) (w : World) : option World :=
  match op with
  | OpStart script_path =>
      match start_process script_path k w with
      | Returns _ w' => Some w'
      | Execs _ _ => None
      end
  | OpStop p => Some (stop_process p k w).2
  | OpStatus => Some (handle_status_request k w).2
  | OpReap => Some (cleanup_zombie_processes k w).2
  end.

Fixpoint run_ops (ops : list Op) (k : Kernel) (w : World) : option World :=
  match ops with
  | [] => Some w
  | op :: rest =>
      match run_op op k w with
      | Some w' => run_ops rest k w'
      | None => None
      end
  end.

Definition is_start_or_stop (op : Op) : bool :=
  match op with
  | OpStart _ | OpStop _ => true
  | OpStatus | OpReap => false
  end.

Definition is_status (op : Op) : bool :=
  match op with OpStatus => true | _ => false end.

(** The process list of a /status response. *)
Definition listed (r : Response) : list ProcessInfo :=
  match data r with
  | JsonStatus _ _ processes => processes
  | _ => []
  end.

Definition metrics_of (r : Response) : option SystemMetrics.t :=
  match data r with
  | JsonStatus metrics _ _ => Some metrics
  | _ => None
  end.

Abbreviation table_of w := (running_processes (agent w)).

(** Every entry is stored under its own pid and is marked RUNNING. *)
Definition table_ok (table : gmap Z ProcessInfo) : Prop :=
  map_Forall (fun key info => pid info = key /\ status info = "RUNNING") table.

Definition with_table (table : gmap Z ProcessInfo) (a : NodeAgent) : NodeAgent :=
  {| running_processes := table;
     prev_total_time := prev_total_time a;
     prev_idle_time := prev_idle_time a |}.

Definition sleeper : ProcessInfo :=
  {| pid := 42; command := "./sleep.sh";
     start_time := "2024-05-01 12:00:00"; status := "RUNNING" |}.

(** An agent that has started one script, now pid 42. *)
Definition one_child : World :=
  {| agent := with_table {[ 42 := sleeper ]} NodeAgent_new; trace := [EFork; EClock] |}.

(** The key of [field] as [parse_json_field] looks for it: the name in
    double quotes, then a colon. *)
Definition field_pattern (field : string) : string :=
  String.append dq (String.append field (String.append dq ":")).

Definition quote (s : string) : string := String.append dq (String.append s dq).

(** Request bodies: an object whose pid field is the number 42, and an
    object whose script_path field is the string ./sleep.sh. *)
Definition body_pid_42 : string :=
  String.append "{" (String.append (quote "pid") ":42}").
Definition body_sleep_path : string :=
  String.append "{" (String.append (quote "script_path")
    (String.append ":" (String.append (quote "./sleep.sh") "}"))).

(** The process lists of two /status requests with [ops] run in between. *)
Definition status_pair (ops : list Op) (k : Kernel) (w : World)
    : option (list ProcessInfo * list ProcessInfo) :=
  let (first, w1) := handle_status_request k w in
  match run_ops ops k w1 with
  | Some w2 => Some (listed first, listed (handle_status_request k w2).1)
  | None => None
  end.

(** A kernel on which the next [fork] returns [child], the clock reads
    [now], and every signal is answered by [signals]. *)
Definition forking_kernel (child : Z) (signals : list Event -> Z -> Signal -> Z) : Kernel :=
  scripted_kernel [child] signals [] None.

(** The record that [start_process] stores for [script_path]. *)
Definition started_record (k : Kernel) (w : World) (script_path : string) : ProcessInfo :=
  {| pid := fork_result k (trace w);
     command := script_path;
     start_time := local_time k (trace w ++ [EFork]);
     status := "RUNNING" |}.

(** The pids of a table that a liveness test lets through. *)
Definition survivors (alive : Z -> bool) (table : gmap Z ProcessInfo) : gmap Z ProcessInfo :=
  filter (fun entry => alive entry.1 = true) table.

Definition two_children : World :=
  {| agent := with_table (<[ 7 := {| pid := 7; command := "./a.sh";
                                    start_time := "2024-05-01 11:59:00";
                                    status := "RUNNING" |} ]> {[ 42 := sleeper ]})
                NodeAgent_new;
     trace := [EFork; EClock; EFork; EClock] |}.

(** Only pid 42 is still there. *)
Definition only_42 : list Event -> Z -> Signal -> Z :=
  fun _ p _ => if p =? 42 then 0 else -1.

(** Every counter of [later] is at least that of [earlier]. *)
Definition counters_monotone (earlier later : CpuSample) : bool :=
  (user earlier <=? user later) && (nice earlier <=? nice later) &&
  (system earlier <=? system later) && (idle earlier <=? idle later) &&
  (iowait earlier <=? iowait later) && (irq earlier <=? irq later) &&
  (softirq earlier <=? softirq later) && (steal earlier <=? steal later).

Definition probe_of (p : Z) : Event := EKill p SIGNULL.

(** ** Predicates on text *)

Fixpoint string_forallb (f : ascii -> bool) (s : string) : bool :=
  match s with
  | EmptyString => true
  | String c rest => f c && string_forallb f rest
  end.

(** The first character of [s], if there is one, satisfies [f]. *)
Definition starts_with (f : ascii -> bool) (s : string) : bool :=
  match s with
  | EmptyString => false
  | String c _ => f c
  end.

Definition is_not (c : ascii) : ascii -> bool := fun x => negb (ascii_eqb x c).

(** A request body with one field: an opening brace, the key, blanks, the
    value as given, a closing brace. *)
Definition body_with (field blanks value_text : string) : string :=
  "{" +:+ field_pattern field +:+ blanks +:+ value_text +:+ "}".

(** A line of /proc/meminfo as the kernel prints it: the label with its
    colon, padding, the figure, the unit. *)
Definition meminfo_line (label padding : string) (n : Z) : string :=
  label +:+ padding +:+ to_string n +:+ " kB".

Definition is_memory_line (line : string) : bool :=
  String.prefix "MemTotal:" line || String.prefix "MemAvailable:" line.

Definition no_memory_line (lines : list string) : bool :=
  forallb (fun line => negb (is_memory_line line)) lines.

(** A token: not empty and free of the delimiter. *)
Definition is_token (delimiter : ascii) (token : string) : bool :=
  negb (string_is_empty token) && string_forallb (is_not delimiter) token.

Definition all_delimiters (delimiter : ascii) (s : string) : bool :=
  string_forallb (fun c => ascii_eqb c delimiter) s.

(** Tokens written out one after the other, each followed by one delimiter
    and then any number of further ones. *)
Fixpoint unsplit (delimiter : ascii) (items : list (string * string)) : string :=
  match items with
  | [] => EmptyString
  | (token, gap) :: rest =>
      token +:+ String delimiter gap +:+ unsplit delimiter rest
  end.

(** The commands that [handle_command] turns down: no token at all, START
    or STOP without its argument, STOP with an argument that [std::stoi]
    throws on, or a first token that is none of the three commands. *)
Definition rejected (args : list string) : bool :=
  match args with
  | [] => true
  | cmd :: rest =>
      if String.eqb cmd "START" then
        match rest with [] => true | _ :: _ => false end
      else if String.eqb cmd "STOP" then
        match rest with
        | [] => true
        | pid_arg :: _ =>
            match stoi pid_arg with StoiValue _ => false | _ => true end
        end
      else negb (String.eqb cmd "STATUS")
  end.

(** A word of a request line: not empty and free of white space. *)
Definition is_word (s : string) : bool :=
  negb (string_is_empty s) && string_forallb (fun c => negb (isspace c)) s.

Definition lf : string := String (ascii_of_nat 10) EmptyString.
Definition crlf : string := cr +:+ lf.

Definition is_error (j : Json) : bool :=
  match j with JsonError _ => true | _ => false end.

(** A POST /start as a client sends it, with headers and a body. *)
Definition post_start_request : string :=
  "POST /start HTTP/1.1" +:+ crlf +:+
  "Content-Type: application/json" +:+ crlf +:+
  "Content-Length: 28" +:+ crlf +:+ crlf +:+
  body_with "script_path" EmptyString (dq +:+ "./sleep.sh" +:+ dq).

Definition is_start (op : Op) : bool :=
  match op with OpStart _ => true | _ => false end.

(** A kernel whose first read of /proc/stat fails and whose second one
    returns the sample. *)
Definition stat_after_failure (s : CpuSample) : Kernel :=
  {| fork_result := fun _ => -1;
     kill_result := all_alive;
     local_time := fun _ => EmptyString;
     proc_stat := fun h => match count_event EReadStat h with
                           | 1%nat => Some s
                           | _ => None
                           end;
     proc_meminfo := fun _ => None |}.

(** An agent that remembers the sample [earlier]. *)
Definition sampled (earlier : CpuSample) : World :=
  {| agent := remember_sample NodeAgent_new earlier; trace := [] |}.

(** ** /proc/meminfo as the kernel prints it

    One line per figure: its name, a colon, padding, the figure, the unit. *)
Record MeminfoEntry : Type := mkMeminfoEntry {
  entry_name : string;
  entry_padding : string;
  entry_figure : Z;
}.

Definition render_meminfo (entries : list MeminfoEntry) : list string :=
  (fun e => meminfo_line (entry_name e +:+ ":") (entry_padding e) (entry_figure e))
    <$> entries.

(** The name holds no colon, the padding is white space, and the figure is
    one that a [long] can hold. *)
Definition meminfo_entry_ok (e : MeminfoEntry) : bool :=
  string_forallb (is_not ":") (entry_name e) &&
  string_forallb isspace (entry_padding e) &&
  (LONG_MIN <=? entry_figure e) && (entry_figure e <=? LONG_MAX).

(** The figure that the file gives under [name]: that of its last line of
    this name, or [missing] when it has no such line. *)
Definition meminfo_figure_or (missing : Z) (name : string) (entries : list MeminfoEntry) : Z :=
  default missing (last (entry_figure <$> filter (fun e => entry_name e = name) entries)).

Definition meminfo_figure (name : string) (entries : list MeminfoEntry) : Z :=
  meminfo_figure_or 0 name entries.

Definition meminfo_typical_entries : list MeminfoEntry :=
  [ mkMeminfoEntry "MemTotal" "       " 16384256;
    mkMeminfoEntry "MemFree" "         " 1203804;
    mkMeminfoEntry "MemAvailable" "    " 4096064;
    mkMeminfoEntry "Buffers" "          " 512000 ].

(** ** Request bodies as JSON objects

    The members of an object in the order in which they are written.  A
    member has a name and a value, which is a text, a number or a nested
    object, and the white space that its writer has put before the name,
    after the colon and after the value. *)
Record Member (V : Type) : Type := mkMember {
  member_lead : string;
  member_name : string;
  member_gap : string;
  member_value : V;
  member_trail : string;
}.

Arguments mkMember {V}.
Arguments member_lead {V}.
Arguments member_name {V}.
Arguments member_gap {V}.
Arguments member_value {V}.
Arguments member_trail {V}.

#[warnings="-register-all"]
Inductive FieldValue : Type :=
| TextValue (text : string)
| NumberValue (n : Z)
| ObjectValue (members : list (Member FieldValue)).


(** The JSON text of a value. *)
Fixpoint render_value (v : FieldValue) : string :=
  match v with
  | TextValue text => dq +:+ text +:+ dq
  | NumberValue n => to_string n
  | ObjectValue members =>
      "{" +:+
      (fix render_list (ms : list (Member FieldValue)) : string :=
         match ms with
         | [] => EmptyString
         | mkMember lead name gap value trail :: rest =>
             lead +:+ dq +:+ name +:+ dq +:+ ":" +:+ gap +:+ render_value value +:+ trail +:+
             match rest with
             | [] => EmptyString
             | _ :: _ => "," +:+ render_list rest
             end
         end) members
      +:+ "}"
  end.

Definition render_object (members : list (Member FieldValue)) : string :=
  render_value (ObjectValue members).











(** An object as a client library prints it, with a blank after each colon
    and each comma, whose script_path is the empty text. *)
Definition spaced_empty_path : list (Member FieldValue) :=
  [mkMember EmptyString "name" " " (TextValue "job") EmptyString;
   mkMember " " "retries" " " (NumberValue 3) EmptyString;
   mkMember " " "script_path" " " (TextValue EmptyString) EmptyString].


(** ** A /status request among other threads

    [HttpServer::handle_status_request] enters [processes_mutex] twice: at
    the end of [get_system_metrics], for the size of the table, and in
    [get_running_processes], for its entries.  Every connection has a thread
    of its own and the reaper runs in the worker threads, so operations of
    other threads can take the mutex between the two.  [others] are these
    operations, in the order in which they get the mutex; whatever another
    thread does before the first critical section has been done to the agent
    that the handler starts from.  The result is [None] in the child side
    of a [fork] made by one of them. *)
Definition handle_status_request_among (others : list Op) (k : Kernel) (w : World)
    : option (Response * World) :=
  let (metrics, w1) := get_system_metrics k w in
  match run_ops others k w1 with
  | None => None
  | Some w2 =>
      let (processes, w3) := get_running_processes k w2 in
      Some (create_json_response (JsonStatus metrics (length processes) processes) 200, w3)
  end.

(** The agent after a /status request has read its metrics and another
    thread has then started ./sleep.sh as pid 42. *)
Definition child_during_status : World :=
  {| agent := with_table {[ 42 := sleeper ]} NodeAgent_new;
     trace := [EReadStat; EReadMeminfo; EReadMeminfo; EFork; EClock] |}.
(** * Properties *)

(** ** Arithmetic on [long] and [double] *)

Lemma wrap_long_id (z : Z) : in_long z -> wrap_long z = z.
Proof.
  unfold in_long, LONG_MIN, LONG_MAX, wrap_long. intros Hz.
  rewrite Z.mod_small by lia. lia.
Qed.

Lemma wrap_long_range (z : Z) : in_long (wrap_long z).
Proof.
  unfold in_long, LONG_MIN, LONG_MAX, wrap_long.
  pose proof (Z.mod_pos_bound (z + 2 ^ 63) (2 ^ 64) ltac:(lia)). lia.
Qed.

Lemma q_is_neg_false (q : Q) : q_is_neg q = false <-> (0 <= q)%Q.
Proof.
  unfold q_is_neg, Qle. simpl. rewrite Z.ltb_ge. lia.
Qed.

Lemma q_is_neg_true (q : Q) : q_is_neg q = true <-> (q < 0)%Q.
Proof.
  unfold q_is_neg, Qlt. simpl. rewrite Z.ltb_lt. lia.
Qed.

(** ** Rounding to binary64 *)

Section rounding.
Local Open Scope Q_scope.

Lemma pow2_pos (e : Z) : 0 < pow2 e.
Proof. apply Qpower_0_lt. reflexivity. Qed.

Lemma pow2_le (m n : Z) : (m <= n)%Z -> pow2 m <= pow2 n.
Proof. intros H. apply Qpower_le_compat_l; [exact H|]. discriminate. Qed.

Lemma pow2_lt (m n : Z) : (m < n)%Z -> pow2 m < pow2 n.
Proof. intros H. apply Qpower_lt_compat_l; [exact H|]. reflexivity. Qed.

Lemma pow2_plus (m n : Z) : pow2 (m + n) == pow2 m * pow2 n.
Proof. apply Qpower_plus. discriminate. Qed.

Lemma pow2_inject (n : Z) : (0 <= n)%Z -> pow2 n == inject_Z (2 ^ n).
Proof. intros H. unfold pow2. now rewrite Zpower_Qpower. Qed.

Lemma pow2_div (m e : Z) : pow2 m / pow2 e == pow2 (m - e).
Proof. unfold pow2. rewrite Qpower_minus; [reflexivity|discriminate]. Qed.

Lemma round_even_floor (x : Q) :
  (Qfloor x <= round_even x <= Qfloor x + 1)%Z.
Proof.
  unfold round_even.
  destruct (x - inject_Z (Qfloor x) ?= 1 # 2); [destruct (Z.even _)| |]; lia.
Qed.

Lemma round_even_mono (x y : Q) : x <= y -> (round_even x <= round_even y)%Z.
Proof.
  intros Hxy.
  pose proof (Qfloor_resp_le x y Hxy) as Hf.
  pose proof (round_even_floor x) as Hx.
  pose proof (round_even_floor y) as Hy.
  destruct (Z.eq_dec (Qfloor x) (Qfloor y)) as [E|N]; [|lia].
  unfold round_even in *. rewrite <- E in *.
  assert (x - inject_Z (Qfloor x) <= y - inject_Z (Qfloor x)) as Hr.
  { apply Qplus_le_l. exact Hxy. }
  destruct (Qcompare_spec (x - inject_Z (Qfloor x)) (1 # 2)) as [Ex|Lx|Gx];
    destruct (Qcompare_spec (y - inject_Z (Qfloor x)) (1 # 2)) as [Ey|Ly|Gy];
    try destruct (Z.even (Qfloor x)); try lia.
  all: exfalso.
  all: try (rewrite Ex in Hr); try (rewrite Ey in Hr).
  all: try exact (Qlt_not_le _ _ Ly Hr).
  all: try exact (Qlt_not_le _ _ Gx Hr).
  all: try exact (Qlt_not_le _ _ (Qlt_trans _ _ _ Ly Gx) Hr).
Qed.

Lemma round_even_inject (x : Q) (n : Z) : x == inject_Z n -> round_even x = n.
Proof.
  intros E. unfold round_even.
  rewrite (Qfloor_comp _ _ E), Qfloor_Z.
  assert (x - inject_Z n == 0) as -> by (rewrite E; ring).
  reflexivity.
Qed.

Lemma round_even_small (x : Q) : 0 <= x -> x <= 1 # 2 -> round_even x = 0%Z.
Proof.
  intros H0 H1.
  pose proof (round_even_mono _ _ H0) as L.
  pose proof (round_even_mono _ _ H1) as U.
  change (round_even 0) with 0%Z in L. change (round_even (1 # 2)) with 0%Z in U.
  lia.
Qed.

Lemma grid_mono (e : Z) (x y : Q) : x <= y -> grid e x <= grid e y.
Proof.
  intros H. unfold grid.
  apply Qmult_le_compat_r; [|apply Qlt_le_weak, pow2_pos].
  rewrite <- Zle_Qle. apply round_even_mono.
  apply Qmult_le_compat_r; [exact H|].
  apply Qinv_le_0_compat, Qlt_le_weak, pow2_pos.
Qed.

Lemma grid_pow2 (e m : Z) : (e <= m)%Z -> grid e (pow2 m) == pow2 m.
Proof.
  intros H. unfold grid.
  rewrite (round_even_inject _ (2 ^ (m - e))).
  - rewrite <- pow2_inject by lia. rewrite <- pow2_plus.
    now replace (m - e + e)%Z with m by lia.
  - rewrite pow2_div. apply pow2_inject. lia.
Qed.

Lemma grid_pow2_le (e m : Z) : grid e (pow2 m) <= pow2 m.
Proof.
  destruct (Z_le_gt_dec e m) as [H|H].
  - rewrite grid_pow2 by exact H. apply Qle_refl.
  - unfold grid. rewrite round_even_small.
    + rewrite Qmult_0_l. apply Qlt_le_weak, pow2_pos.
    + rewrite pow2_div. apply Qlt_le_weak, pow2_pos.
    + rewrite pow2_div. change (1 # 2) with (pow2 (-1)). apply pow2_le. lia.
Qed.

Lemma grid_nonneg (e : Z) (x : Q) : 0 <= x -> 0 <= grid e x.
Proof.
  intros H. apply (grid_mono e) in H.
  unfold grid at 1 in H. rewrite (round_even_inject _ 0) in H.
  - now rewrite Qmult_0_l in H.
  - unfold Qdiv. now rewrite Qmult_0_l.
Qed.

Lemma floor_log2_spec (q : Q) :
  0 < q -> pow2 (floor_log2 q) <= q /\ q < pow2 (floor_log2 q + 1).
Proof.
  intros Hq. destruct q as [n d]. unfold floor_log2. cbn [Qnum Qden].
  assert (0 < n)%Z as Hn.
  { unfold Qlt in Hq. cbn in Hq. lia. }
  set (a := Z.log2 n). set (b := Z.log2 (Z.pos d)).
  destruct (Z.log2_spec n Hn) as [Ha1 Ha2]. fold a in Ha1, Ha2.
  destruct (Z.log2_spec (Z.pos d) ltac:(lia)) as [Hb1 Hb2]. fold b in Hb1, Hb2.
  rewrite <- Z.add_1_r in Ha2, Hb2.
  assert (0 <= a)%Z as Ha0 by apply Z.log2_nonneg.
  assert (0 <= b)%Z as Hb0 by apply Z.log2_nonneg.
  assert (n # d == inject_Z n / inject_Z (Z.pos d)) as Eq by apply Qmake_Qdiv.
  assert (0 < inject_Z (Z.pos d)) as Hd by reflexivity.
  (* q < 2^(a-b+1) and 2^(a-b-1) <= q *)
  assert (n # d < pow2 (a - b + 1)) as Hup.
  { rewrite Eq. apply Qlt_shift_div_r; [exact Hd|].
    replace (a - b + 1)%Z with ((a + 1) + - b)%Z by lia.
    rewrite pow2_plus. unfold pow2 at 2. rewrite Qpower_opp. fold (pow2 b).
    apply Qlt_le_trans with (pow2 (a + 1)).
    - rewrite pow2_inject by lia. rewrite <- Zlt_Qlt. exact Ha2.
    - rewrite <- Qmult_assoc.
      rewrite <- (Qmult_1_r (pow2 (a + 1))) at 1.
      apply Qmult_le_l; [apply pow2_pos|].
      assert (/ pow2 b * inject_Z (Z.pos d) == inject_Z (Z.pos d) / pow2 b) as ->
        by (unfold Qdiv; ring).
      apply Qle_shift_div_l; [apply pow2_pos|].
      rewrite Qmult_1_l, pow2_inject by lia. rewrite <- Zle_Qle. exact Hb1. }
  assert (pow2 (a - b - 1) <= n # d) as Hlow.
  { rewrite Eq. apply Qle_shift_div_l; [exact Hd|].
    replace (a - b - 1)%Z with (a + - (b + 1))%Z by lia.
    rewrite pow2_plus. unfold pow2 at 2. rewrite Qpower_opp. fold (pow2 (b + 1)).
    apply Qle_trans with (pow2 a).
    - rewrite <- Qmult_assoc.
      rewrite <- (Qmult_1_r (pow2 a)) at 2.
      apply Qmult_le_l; [apply pow2_pos|].
      assert (/ pow2 (b + 1) * inject_Z (Z.pos d) == inject_Z (Z.pos d) / pow2 (b + 1))
        as -> by (unfold Qdiv; ring).
      apply Qle_shift_div_r; [apply pow2_pos|].
      rewrite Qmult_1_l, pow2_inject by lia. rewrite <- Zle_Qle. lia.
    - rewrite pow2_inject by lia. rewrite <- Zle_Qle. exact Ha1. }
  destruct (Qle_bool (pow2 (a - b)) (n # d)) eqn:T.
  - apply Qle_bool_iff in T. split; assumption.
  - assert (~ pow2 (a - b) <= n # d) as T'.
    { intros C. apply Qle_bool_iff in C. congruence. }
    apply Qnot_le_lt in T'. split; [exact Hlow|].
    now replace (a - b - 1 + 1)%Z with (a - b)%Z by lia.
Qed.

Lemma floor_log2_mono (a b : Q) : 0 < a -> a <= b -> (floor_log2 a <= floor_log2 b)%Z.
Proof.
  intros Ha Hab.
  destruct (floor_log2_spec a Ha) as [La _].
  destruct (floor_log2_spec b (Qlt_le_trans _ _ _ Ha Hab)) as [_ Ub].
  destruct (Z_le_gt_dec (floor_log2 a) (floor_log2 b)) as [H|H]; [exact H|].
  exfalso.
  assert (pow2 (floor_log2 b + 1) <= pow2 (floor_log2 a)) as P by (apply pow2_le; lia).
  apply (Qlt_irrefl b).
  apply Qlt_le_trans with (pow2 (floor_log2 b + 1)); [exact Ub|].
  apply Qle_trans with (pow2 (floor_log2 a)); [exact P|].
  apply Qle_trans with a; assumption.
Qed.

Lemma round_positive_grid (q : Q) : round_positive q == grid (ulp_exponent q) q.
Proof. unfold round_positive, grid. apply Qred_correct. Qed.

Lemma round_positive_nonneg (q : Q) : 0 <= q -> 0 <= round_positive q.
Proof. intros H. rewrite round_positive_grid. now apply grid_nonneg. Qed.

Lemma round_positive_mono (a b : Q) :
  0 < a -> a <= b -> round_positive a <= round_positive b.
Proof.
  intros Ha Hab. rewrite !round_positive_grid.
  pose proof (floor_log2_mono a b Ha Hab) as Hl.
  destruct (floor_log2_spec a Ha) as [_ Ua].
  destruct (floor_log2_spec b (Qlt_le_trans _ _ _ Ha Hab)) as [Lb _].
  destruct (Z.eq_dec (ulp_exponent a) (ulp_exponent b)) as [E|N].
  { rewrite E. now apply grid_mono. }
  unfold ulp_exponent in *.
  apply Qle_trans with (pow2 (floor_log2 a + 1)).
  { apply Qle_trans with (grid (Z.max (floor_log2 a - 52) (-1074)) (pow2 (floor_log2 a + 1))).
    - apply grid_mono, Qlt_le_weak, Ua.
    - apply grid_pow2_le. }
  apply Qle_trans with (pow2 (floor_log2 b)); [apply pow2_le; lia|].
  rewrite <- (grid_pow2 (Z.max (floor_log2 b - 52) (-1074)) (floor_log2 b)) by lia.
  now apply grid_mono.
Qed.

Lemma round64_positive (q : Q) : 0 < q -> round64 q = round_positive q.
Proof.
  destruct q as [[|n|n] d]; unfold Qlt; cbn; intros H; (reflexivity || lia).
Qed.

Lemma round64_negative (q : Q) : q < 0 -> round64 q = - round_positive (- q).
Proof.
  destruct q as [[|n|n] d]; unfold Qlt; cbn; intros H; (reflexivity || lia).
Qed.

Lemma round64_zero (q : Q) : q == 0 -> round64 q = 0.
Proof.
  destruct q as [[|n|n] d]; unfold Qeq; cbn; intros H; (reflexivity || lia).
Qed.

Lemma round64_nonneg (q : Q) : 0 <= q -> 0 <= round64 q.
Proof.
  intros H. destruct (Qlt_le_dec 0 q) as [P|Z0].
  - rewrite round64_positive by exact P. now apply round_positive_nonneg.
  - rewrite round64_zero; [apply Qle_refl|]. now apply Qle_antisym.
Qed.

Lemma round64_nonpos (q : Q) : q <= 0 -> round64 q <= 0.
Proof.
  intros H. destruct (Qlt_le_dec q 0) as [N|Z0].
  - rewrite round64_negative by exact N.
    apply (Qopp_le_compat 0). apply round_positive_nonneg.
    apply (Qopp_le_compat q 0), H.
  - rewrite round64_zero; [apply Qle_refl|]. now apply Qle_antisym.
Qed.

(** Rounding to nearest is monotone. *)
Lemma round64_mono (a b : Q) : a <= b -> round64 a <= round64 b.
Proof.
  intros Hab.
  destruct (Qlt_le_dec 0 a) as [Pa|Na].
  { rewrite (round64_positive a Pa), (round64_positive b (Qlt_le_trans _ _ _ Pa Hab)).
    now apply round_positive_mono. }
  destruct (Qlt_le_dec b 0) as [Nb|Pb].
  { rewrite (round64_negative b Nb), (round64_negative a (Qle_lt_trans _ _ _ Hab Nb)).
    apply Qopp_le_compat. apply round_positive_mono.
    - apply (Qopp_lt_compat b 0), Nb.
    - now apply Qopp_le_compat. }
  apply Qle_trans with 0; [now apply round64_nonpos | now apply round64_nonneg].
Qed.

Lemma round64_comp (a b : Q) : a == b -> round64 a == round64 b.
Proof.
  intros E. apply Qle_antisym; apply round64_mono; rewrite E; apply Qle_refl.
Qed.

(** A value that rounds to something below the overflow threshold is
    finite. *)
Lemma to_double_between (lo hi q : Q) :
  lo <= q -> q <= hi ->
  - pow2 1024 < round64 lo -> round64 hi < pow2 1024 ->
  to_double q = DFin (round64 q) /\ round64 lo <= round64 q <= round64 hi.
Proof.
  intros Hlo Hhi Blo Bhi.
  pose proof (round64_mono _ _ Hlo) as L. pose proof (round64_mono _ _ Hhi) as U.
  split; [|split; assumption].
  unfold to_double. cbv zeta.
  destruct (Qle_bool (pow2 1024) (Qabs (round64 q))) eqn:T; [|reflexivity].
  exfalso. apply Qle_bool_iff in T.
  assert (Qabs (round64 q) < pow2 1024) as A.
  { apply Qabs_Qlt_condition. split.
    - now apply Qlt_le_trans with (round64 lo).
    - now apply Qle_lt_trans with (round64 hi). }
  exact (Qlt_not_le _ _ A T).
Qed.

Lemma floor_log2_pow2_le (n : Z) : (floor_log2 (pow2 n) <= n)%Z.
Proof.
  destruct (floor_log2_spec (pow2 n) (pow2_pos n)) as [L _].
  apply (Qpower_le_compat_l_inv 2); [exact L | reflexivity].
Qed.

(** The powers of two from the smallest subnormal on are representable. *)
Lemma round64_pow2 (n : Z) : (-1074 <= n)%Z -> round64 (pow2 n) == pow2 n.
Proof.
  intros H. rewrite (round64_positive _ (pow2_pos n)), round_positive_grid.
  apply grid_pow2. unfold ulp_exponent.
  pose proof (floor_log2_pow2_le n). lia.
Qed.

Lemma round64_opp (q : Q) : round64 (- q) == - round64 q.
Proof.
  destruct (Q_dec q 0) as [[N|P]|Z0].
  - rewrite (round64_negative q N), Qopp_opp.
    now rewrite round64_positive by (apply (Qopp_lt_compat q 0), N).
  - rewrite (round64_positive q P).
    rewrite round64_negative by (apply (Qopp_lt_compat 0 q), P).
    apply Qopp_comp.
    assert (0 < - - q) as P' by now rewrite Qopp_opp.
    rewrite <- (round64_positive _ P'), <- (round64_positive _ P).
    apply round64_comp, Qopp_opp.
  - rewrite (round64_zero q Z0), round64_zero; [reflexivity|].
    now rewrite Z0.
Qed.

Lemma round64_abs_le (n : Z) (q : Q) :
  (-1074 <= n)%Z -> Qabs q <= pow2 n -> Qabs (round64 q) <= pow2 n.
Proof.
  intros Hn Hq. apply Qabs_Qle_condition in Hq as [L U].
  apply Qabs_Qle_condition. split.
  - rewrite <- (round64_pow2 n Hn), <- round64_opp. now apply round64_mono.
  - rewrite <- (round64_pow2 n Hn). now apply round64_mono.
Qed.

Lemma to_double_finite (n : Z) (q : Q) :
  (-1074 <= n < 1024)%Z -> Qabs q <= pow2 n -> to_double q = DFin (round64 q).
Proof.
  intros Hn Hq. unfold to_double. cbv zeta.
  destruct (Qle_bool (pow2 1024) (Qabs (round64 q))) eqn:T; [|reflexivity].
  exfalso. apply Qle_bool_iff in T.
  pose proof (round64_abs_le n q ltac:(lia) Hq) as A.
  apply (Qlt_irrefl (pow2 1024)).
  apply Qle_lt_trans with (pow2 n).
  - now apply Qle_trans with (Qabs (round64 q)).
  - apply pow2_lt. lia.
Qed.

Lemma round64_0 : round64 0 = 0.
Proof. reflexivity. Qed.

Lemma round64_1 : round64 1 = 1.
Proof. vm_compute. reflexivity. Qed.

Lemma round64_100 : round64 100 = 100.
Proof. vm_compute. reflexivity. Qed.

Lemma in_long_abs (z : Z) : in_long z -> Qabs (inject_Z z) <= pow2 63.
Proof.
  unfold in_long, LONG_MIN, LONG_MAX. intros H.
  apply Qabs_Qle_condition. rewrite pow2_inject by lia.
  rewrite <- inject_Z_opp, <- !Zle_Qle. lia.
Qed.

Lemma round64_whole (whole : Z) : (0 < whole)%Z -> 1 <= round64 (inject_Z whole).
Proof.
  intros H. rewrite <- round64_1. apply round64_mono.
  change 1 with (inject_Z 1). rewrite <- Zle_Qle. lia.
Qed.

Lemma Qabs_div_ge_1 (a b : Q) : 1 <= b -> Qabs (a / b) <= Qabs a.
Proof.
  intros Hb.
  assert (0 < b) as Hpos by (apply Qlt_le_trans with 1; [reflexivity|exact Hb]).
  unfold Qdiv. rewrite Qabs_Qmult.
  rewrite (Qabs_pos (/ b)) by (apply Qinv_le_0_compat, Qlt_le_weak, Hpos).
  apply Qle_shift_div_r; [exact Hpos|].
  apply Qle_trans with (1 * Qabs a); [rewrite Qmult_1_l; apply Qle_refl|].
  rewrite (Qmult_comm (Qabs a) b).
  apply Qmult_le_compat_r; [exact Hb | apply Qabs_nonneg].
Qed.

Lemma percent_used_value (part whole : Z) :
  in_long part -> in_long whole -> (0 < whole)%Z ->
  percent_used part whole = DFin (percent_rounded part whole).
Proof.
  intros Hp Hw Hpos. unfold percent_used, percent_rounded, of_long.
  pose proof (round64_whole whole Hpos) as Hb.
  pose proof (round64_abs_le 63 _ ltac:(lia) (in_long_abs part Hp)) as Ha.
  rewrite (to_double_finite 63 (inject_Z part)) by (lia || now apply in_long_abs).
  rewrite (to_double_finite 63 (inject_Z whole)) by (lia || now apply in_long_abs).
  set (a := round64 (inject_Z part)) in *. set (b := round64 (inject_Z whole)) in *.
  assert (q_is_zero b = false) as Hz.
  { unfold q_is_zero. apply Z.eqb_neq. intros E.
    unfold Qle in Hb. cbn in Hb. rewrite E in Hb. lia. }
  unfold ddiv. rewrite Hz.
  assert (Qabs (a / b) <= pow2 63) as Hr.
  { apply Qle_trans with (Qabs a); [now apply Qabs_div_ge_1 | exact Ha]. }
  rewrite (to_double_finite 63 (a / b)) by (lia || exact Hr).
  apply (round64_abs_le 63 _ ltac:(lia)) in Hr.
  set (r := round64 (a / b)) in *.
  unfold dsub, d1.
  assert (Qabs (1 - r) <= pow2 64) as Hs.
  { apply Qle_trans with (Qabs 1 + Qabs (- r)); [apply Qabs_triangle|].
    rewrite Qabs_opp. change (pow2 64) with (pow2 (63 + 1)).
    apply Qle_trans with (pow2 63 + pow2 63).
    - apply Qplus_le_compat; [|exact Hr]. discriminate.
    - rewrite pow2_plus. change (pow2 1) with 2. ring_simplify. apply Qle_refl. }
  rewrite (to_double_finite 64 (1 - r)) by (lia || exact Hs).
  apply (round64_abs_le 64 _ ltac:(lia)) in Hs.
  set (s := round64 (1 - r)) in *.
  unfold dmul, d100.
  rewrite (to_double_finite 71 (100 * s)); [reflexivity|lia|].
  rewrite Qabs_Qmult. change (Qabs 100) with 100.
  apply Qle_trans with (pow2 7 * pow2 64).
  - apply Qle_trans with (100 * pow2 64).
    + apply Qmult_le_l; [reflexivity | exact Hs].
    + apply Qmult_le_compat_r; [discriminate | apply Qlt_le_weak, pow2_pos].
  - rewrite <- pow2_plus. apply Qle_refl.
Qed.

Lemma ratio_le_1 (a b : Q) : 1 <= b -> a <= b -> round64 (a / b) <= 1.
Proof.
  intros Hb Hab. rewrite <- round64_1. apply round64_mono.
  apply Qle_shift_div_r.
  - apply Qlt_le_trans with 1; [reflexivity | exact Hb].
  - now rewrite Qmult_1_l.
Qed.

Lemma ratio_ge_0 (a b : Q) : 1 <= b -> 0 <= a -> 0 <= round64 (a / b).
Proof.
  intros Hb Ha. apply round64_nonneg.
  apply Qle_shift_div_l.
  - apply Qlt_le_trans with 1; [reflexivity | exact Hb].
  - now rewrite Qmult_0_l.
Qed.

Lemma percent_rounded_nonneg (part whole : Z) :
  (0 < whole)%Z -> (part <= whole)%Z -> 0 <= percent_rounded part whole.
Proof.
  intros Hw Hp. unfold percent_rounded.
  apply round64_nonneg. apply Qmult_le_0_compat; [discriminate|].
  apply round64_nonneg.
  pose proof (ratio_le_1 (round64 (inject_Z part)) (round64 (inject_Z whole))
                (round64_whole whole Hw)) as H.
  apply (Qle_minus_iff _ 1). apply H.
  apply round64_mono. now rewrite <- Zle_Qle.
Qed.

Lemma percent_rounded_le_100 (part whole : Z) :
  (0 < whole)%Z -> (0 <= part)%Z -> percent_rounded part whole <= 100.
Proof.
  intros Hw Hp. unfold percent_rounded.
  rewrite <- round64_100 at 2. apply round64_mono.
  rewrite <- (Qmult_1_r 100) at 2.
  apply Qmult_le_l; [reflexivity|].
  rewrite <- round64_1 at 2. apply round64_mono.
  pose proof (ratio_ge_0 (round64 (inject_Z part)) (round64 (inject_Z whole))
                (round64_whole whole Hw)) as H.
  assert (0 <= round64 (inject_Z part)) as Ha.
  { apply round64_nonneg. change 0 with (inject_Z 0). now rewrite <- Zle_Qle. }
  specialize (H Ha).
  apply Qle_minus_iff. ring_simplify. exact H.
Qed.

Lemma percent_used_finite (part whole : Z) :
  in_long part -> in_long whole -> (0 < whole)%Z ->
  is_finite (percent_used part whole) = true.
Proof. intros Hp Hw H. now rewrite percent_used_value. Qed.

Lemma percent_used_nonneg (part whole : Z) :
  in_long part -> in_long whole -> (0 < whole)%Z -> (part <= whole)%Z ->
  is_negative (percent_used part whole) = false.
Proof.
  intros Hp Hw H Hle. rewrite percent_used_value by assumption.
  apply q_is_neg_false. now apply percent_rounded_nonneg.
Qed.

Lemma percent_used_in_range (part whole : Z) :
  in_long whole -> (0 < whole)%Z -> (0 <= part <= whole)%Z ->
  in_range 0 100 (percent_used part whole).
Proof.
  intros Hw H [H0 Hle].
  rewrite percent_used_value; [|unfold in_long, LONG_MIN, LONG_MAX in *; lia|assumption..].
  split; [now apply percent_rounded_nonneg | now apply percent_rounded_le_100].
Qed.

Lemma percent_used_zero_whole (part : Z) : is_finite (percent_used part 0) = false.
Proof.
  unfold percent_used. change (of_long 0) with (DFin 0).
  destruct (of_long part) as [a| |]; [|reflexivity..].
  unfold ddiv. change (q_is_zero 0) with true. cbv iota.
  destruct (q_is_zero a); reflexivity.
Qed.

End rounding.

(** The rounding agrees with the Standard Library's specification of
    IEEE 754 binary64 on the sample operands: every conversion, quotient,
    product and difference of two of them, and the percentage of every
    sample pair of figures. *)
Example rounding_agrees_with_spec_float :
  forallb (fun a => forallb (agrees_with_spec_float a) sample_operands) sample_operands
  = true.
Proof. vm_compute. reflexivity. Qed.

Example percent_used_agrees_with_spec_float :
  forallb (fun '(part, whole) =>
             double_eqb (percent_used_spec_float part whole) (percent_used part whole))
          sample_figures = true.
Proof. vm_compute. reflexivity. Qed.

(** Beyond 53 bits the conversion rounds: 2^53 + 1 becomes 2^53, and an
    idle delta of 2^53 + 1 over a total delta of 2^53 gives 0. *)
Example of_long_rounds :
  of_long (2 ^ 53 + 1) = DFin (inject_Z (2 ^ 53)) /\
  percent_used (2 ^ 53 + 1) (2 ^ 53) = d0.
Proof. split; vm_compute; reflexivity. Qed.

(** ** [calculate_cpu_usage], one call *)

Lemma calculate_cpu_usage_unreadable (k : Kernel) (w : World) :
  proc_stat k (trace w) = None ->
  calculate_cpu_usage k w = (d0, after_syscall EReadStat (agent w) w).
Proof.
  intros H. unfold calculate_cpu_usage, bind, read_proc_stat, syscall.
  now rewrite H.
Qed.

Lemma calculate_cpu_usage_sample (k : Kernel) (w : World) (s : CpuSample) :
  proc_stat k (trace w) = Some s ->
  let total_diff := long_sub (total_time_of s) (prev_total_time (agent w)) in
  let idle_diff := long_sub (idle_time_of s) (prev_idle_time (agent w)) in
  calculate_cpu_usage k w =
    (if (prev_total_time (agent w) >? 0) && (total_diff >? 0)
     then percent_used idle_diff total_diff else d0,
     after_syscall EReadStat (remember_sample (agent w) s) w).
Proof.
  intros H. unfold calculate_cpu_usage, bind, read_proc_stat, syscall.
  rewrite H. destruct w as [a tr].
  unfold get_agent, set_prev, bind, get_agent, put_agent, ret, after_syscall.
  unfold remember_sample, percent_used. cbn [agent trace].
  destruct (prev_total_time a >? 0);
    [destruct (long_sub (total_time_of s) (prev_total_time a) >? 0)|];
    cbn [andb agent trace running_processes]; reflexivity.
Qed.

Lemma calculate_cpu_usage_table (k : Kernel) (w : World) :
  running_processes (agent (calculate_cpu_usage k w).2) = running_processes (agent w).
Proof.
  destruct (proc_stat k (trace w)) as [s|] eqn:H.
  - now rewrite (calculate_cpu_usage_sample k w s H).
  - now rewrite (calculate_cpu_usage_unreadable k w H).
Qed.

Lemma calculate_cpu_usage_trace (k : Kernel) (w : World) :
  trace (calculate_cpu_usage k w).2 = trace w ++ [EReadStat].
Proof.
  destruct (proc_stat k (trace w)) as [s|] eqn:H.
  - now rewrite (calculate_cpu_usage_sample k w s H).
  - now rewrite (calculate_cpu_usage_unreadable k w H).
Qed.

Lemma kernel_counters_bounds (s : CpuSample) :
  kernel_counters s = true ->
  (0 <= user s < 2 ^ 59 /\ 0 <= nice s < 2 ^ 59 /\ 0 <= system s < 2 ^ 59 /\
   0 <= idle s < 2 ^ 59) /\
  (0 <= iowait s < 2 ^ 59 /\ 0 <= irq s < 2 ^ 59 /\ 0 <= softirq s < 2 ^ 59 /\
   0 <= steal s < 2 ^ 59).
Proof.
  unfold kernel_counters. cbn [forallb]. intros H.
  repeat match goal with
  | Hc : (_ && _) = true |- _ => apply andb_prop in Hc; destruct Hc
  | Hc : (_ <=? _) = true |- _ => apply Z.leb_le in Hc
  | Hc : (_ <? _) = true |- _ => apply Z.ltb_lt in Hc
  end.
  repeat split; assumption.
Qed.

Lemma long_add_exact (a b : Z) :
  - 2 ^ 63 <= a + b < 2 ^ 63 -> long_add a b = a + b.
Proof.
  intros H. apply wrap_long_id. unfold in_long, LONG_MIN, LONG_MAX. lia.
Qed.

(** Rewrites the innermost wrapping sum whose operands are known to fit. *)
Ltac exact_sums :=
  repeat match goal with
  | |- context [long_add ?a ?b] =>
      lazymatch a with context [long_add] => fail | _ => idtac end;
      rewrite (long_add_exact a b) by lia
  end.

Lemma total_time_of_exact (s : CpuSample) :
  kernel_counters s = true ->
  total_time_of s = counters_total s /\ 0 <= counters_total s < 2 ^ 62.
Proof.
  intros H. apply kernel_counters_bounds in H.
  unfold total_time_of, counters_total. exact_sums. lia.
Qed.

Lemma idle_time_of_exact (s : CpuSample) :
  kernel_counters s = true ->
  idle_time_of s = counters_idle s /\ 0 <= counters_idle s < 2 ^ 62.
Proof.
  intros H. apply kernel_counters_bounds in H.
  unfold idle_time_of, counters_idle. exact_sums. lia.
Qed.

Lemma long_sub_exact (a b : Z) :
  0 <= a < 2 ^ 62 -> 0 <= b < 2 ^ 62 -> long_sub a b = a - b.
Proof.
  intros Ha Hb. unfold long_sub.
  apply wrap_long_id. unfold in_long, LONG_MIN, LONG_MAX. lia.
Qed.

Lemma long_sub_range (a b : Z) : in_long (long_sub a b).
Proof. apply wrap_long_range. Qed.

Opaque wrap_long.

(** ** Claims on the CPU figure *)

(** [calculate_cpu_usage] never returns an infinity or a NaN. *)
Lemma cpu_usage_finite_of (k : Kernel) (w : World) :
  is_finite (calculate_cpu_usage k w).1 = true.
Proof.
  destruct (proc_stat k (trace w)) as [s|] eqn:Hs.
  2:{ now rewrite (calculate_cpu_usage_unreadable k w Hs). }
  rewrite (calculate_cpu_usage_sample k w s Hs). cbn [fst].
  destruct (Z.gtb_spec (prev_total_time (agent w)) 0); cbn [andb]; [|reflexivity].
  destruct (Z.gtb_spec (long_sub (total_time_of s) (prev_total_time (agent w))) 0);
    [|reflexivity].
  apply percent_used_finite; [apply long_sub_range.. | lia].
Qed.

(** C3, as amended.  The value returned by [calculate_cpu_usage] is always
    finite.  It is not clamped: it is non-negative whenever the idle delta
    does not exceed the total delta, and it can be negative otherwise. *)
Theorem cpu_usage_finite_unclamped (k : Kernel) (w : World) :
  let r := (calculate_cpu_usage k w).1 in
  is_finite r = true /\
  forall s : CpuSample, proc_stat k (trace w) = Some s ->
    long_sub (idle_time_of s) (prev_idle_time (agent w)) <=
      long_sub (total_time_of s) (prev_total_time (agent w)) ->
    is_negative r = false.
Proof.
  cbv zeta.
  destruct (proc_stat k (trace w)) as [s|] eqn:Hs.
  2:{ rewrite (calculate_cpu_usage_unreadable k w Hs). split; [reflexivity|].
      intros s' Hs'. discriminate. }
  rewrite (calculate_cpu_usage_sample k w s Hs). cbn [fst].
  destruct (Z.gtb_spec (prev_total_time (agent w)) 0) as [Hprev|Hprev];
    cbn [andb].
  2:{ split; [reflexivity|]. intros s' _ _. reflexivity. }
  destruct (Z.gtb_spec (long_sub (total_time_of s) (prev_total_time (agent w))) 0)
    as [Htot|Htot].
  2:{ split; [reflexivity|]. intros s' _ _. reflexivity. }
  split; [apply percent_used_finite; [apply long_sub_range.. | lia]|].
  intros s' Hs' Hle. injection Hs' as <-.
  apply percent_used_nonneg; [apply long_sub_range.. | lia | exact Hle].
Qed.

(** Witness of C3: totals 200 then 350, idle 100 then 200; the second call
    returns a value that is finite and not negative. *)
Lemma cpu_usage_finite_unclamped_witness :
  is_finite (calculate_cpu_usage (cpu_kernel [ticks 100 100; ticks 150 200])
               (calculate_cpu_usage (cpu_kernel [ticks 100 100; ticks 150 200])
                  fresh_world).2).1 = true /\
  is_negative (calculate_cpu_usage (cpu_kernel [ticks 100 100; ticks 150 200])
                 (calculate_cpu_usage (cpu_kernel [ticks 100 100; ticks 150 200])
                    fresh_world).2).1 = false.
Proof.
  destruct (cpu_usage_finite_unclamped
              (cpu_kernel [ticks 100 100; ticks 150 200])
              (calculate_cpu_usage (cpu_kernel [ticks 100 100; ticks 150 200])
                 fresh_world).2) as [Hfin Hpos].
  split; [exact Hfin|].
  apply (Hpos (ticks 150 200)).
  - vm_compute. reflexivity.
  - vm_compute. discriminate.
Defined.

(** C3, counterexample.  The user counter goes back from 100 to 50 while
    idle goes from 100 to 200: the total rises by 50, idle by 100, and the
    second call returns -100, which is reported as it is. *)
Lemma cpu_usage_negative_counterexample :
  (calculate_cpu_usage (cpu_kernel [ticks 100 100; ticks 50 200])
     (calculate_cpu_usage (cpu_kernel [ticks 100 100; ticks 50 200])
        fresh_world).2).1 = DFin (-100) /\
  is_negative (DFin (-100)) = true.
Proof. split; vm_compute; reflexivity. Qed.

(** Every value of a run of successive calls is finite. *)
Lemma sample_cpu_usage_finite (n : nat) (k : Kernel) (w : World) :
  Forall (fun r => is_finite r = true) (sample_cpu_usage n k w).1.
Proof.
  revert w. induction n as [|n IH]; intros w; [constructor|].
  cbn [sample_cpu_usage]. unfold bind.
  pose proof (cpu_usage_finite_of k w) as Hfin.
  destruct (calculate_cpu_usage k w) as [r w1].
  specialize (IH w1). destruct (sample_cpu_usage n k w1) as [rs w2].
  constructor; assumption.
Qed.

(** C5, as amended.  For two successive reads of the CPU counters, with the
    total (the sum of user, nice, system, idle, iowait, irq, softirq and
    steal) and the deltas taken in 64-bit arithmetic: the first call on an
    agent without a prior sample returns 0; the second returns
    [100 * (1 - Δ(idle+iowait) / Δtotal)] when the earlier total is positive
    and Δtotal is positive, and 0 otherwise.  For counters as the kernel
    publishes them the 64-bit sums and deltas are the exact ones. *)
Theorem cpu_usage_successive_reads (k : Kernel) (w : World) (s1 s2 : CpuSample) :
  proc_stat k (trace w) = Some s1 ->
  proc_stat k (trace w ++ [EReadStat]) = Some s2 ->
  let first := calculate_cpu_usage k w in
  let second := calculate_cpu_usage k first.2 in
  let total_diff := long_sub (total_time_of s2) (total_time_of s1) in
  let idle_diff := long_sub (idle_time_of s2) (idle_time_of s1) in
  (prev_total_time (agent w) = 0 -> first.1 = d0) /\
  (0 < total_time_of s1 -> 0 < total_diff ->
   second.1 = dmul d100 (dsub d1 (ddiv (of_long idle_diff) (of_long total_diff)))) /\
  (total_time_of s1 <= 0 \/ total_diff <= 0 -> second.1 = d0) /\
  (kernel_counters s1 = true -> kernel_counters s2 = true ->
   total_time_of s1 = counters_total s1 /\
   total_diff = counters_total s2 - counters_total s1 /\
   idle_diff = counters_idle s2 - counters_idle s1).
Proof.
  intros H1 H2. cbv zeta.
  rewrite (calculate_cpu_usage_sample k w s1 H1). cbn [fst snd].
  split.
  { intros ->. reflexivity. }
  rewrite (calculate_cpu_usage_sample k
             (after_syscall EReadStat (remember_sample (agent w) s1) w) s2 H2).
  cbn [fst snd after_syscall remember_sample agent prev_total_time prev_idle_time].
  unfold percent_used.
  split; [|split].
  - intros Hpos Hgrow.
    destruct (Z.gtb_spec (total_time_of s1) 0); [|lia].
    destruct (Z.gtb_spec (long_sub (total_time_of s2) (total_time_of s1)) 0); [|lia].
    reflexivity.
  - intros Hno.
    destruct (Z.gtb_spec (total_time_of s1) 0); [|reflexivity].
    destruct (Z.gtb_spec (long_sub (total_time_of s2) (total_time_of s1)) 0); [lia|].
    reflexivity.
  - intros K1 K2.
    destruct (total_time_of_exact s1 K1) as [T1 R1].
    destruct (total_time_of_exact s2 K2) as [T2 R2].
    destruct (idle_time_of_exact s1 K1) as [I1 J1].
    destruct (idle_time_of_exact s2 K2) as [I2 J2].
    rewrite T1, T2, I1, I2, !long_sub_exact by assumption.
    repeat split.
Qed.

(** Agreement with the figure of the specification on kernel counters whose
    total has grown from a positive value. *)
Lemma percent_used_spec (s1 s2 : CpuSample) :
  kernel_counters s1 = true -> kernel_counters s2 = true ->
  percent_used (long_sub (idle_time_of s2) (idle_time_of s1))
               (long_sub (total_time_of s2) (total_time_of s1)) =
    cpu_usage_spec s1 s2.
Proof.
  intros K1 K2.
  destruct (total_time_of_exact s1 K1) as [T1 R1].
  destruct (total_time_of_exact s2 K2) as [T2 R2].
  destruct (idle_time_of_exact s1 K1) as [I1 J1].
  destruct (idle_time_of_exact s2 K2) as [I2 J2].
  rewrite T1, T2, I1, I2, !long_sub_exact by assumption.
  reflexivity.
Qed.

(** Witness of C5: totals 200 then 350, idle 100 then 200, so the second
    call returns 100 * (1 - 100/150) as binary64 arithmetic gives it:
    4691249611844267 / 2^47, which prints as 33.333333333333336. *)
Lemma cpu_usage_successive_reads_witness :
  (calculate_cpu_usage (cpu_kernel [ticks 100 100; ticks 150 200])
     (calculate_cpu_usage (cpu_kernel [ticks 100 100; ticks 150 200])
        fresh_world).2).1 = DFin (4691249611844267 # 140737488355328).
Proof.
  destruct (cpu_usage_successive_reads
              (cpu_kernel [ticks 100 100; ticks 150 200]) fresh_world
              (ticks 100 100) (ticks 150 200)
              eq_refl eq_refl) as [_ [H _]].
  rewrite H.
  - vm_compute. reflexivity.
  - vm_compute. reflexivity.
  - vm_compute. reflexivity.
Defined.

(** C5, counterexample.  Two reads of unchanged counters: Δtotal is 0, the
    figure of the specification is 0/0, not a number, and the call returns 0. *)
Lemma cpu_usage_formula_counterexample :
  (calculate_cpu_usage (cpu_kernel [ticks 100 100; ticks 100 100])
     (calculate_cpu_usage (cpu_kernel [ticks 100 100; ticks 100 100])
        fresh_world).2).1 = d0 /\
  cpu_usage_spec (ticks 100 100) (ticks 100 100) = DNaN /\
  d0 <> DNaN.
Proof. repeat split; try (vm_compute; reflexivity). discriminate. Qed.

(** C6.  When the total delta between the stored sample and the new one is
    0, [calculate_cpu_usage] returns exactly 0: a finite value, not the NaN
    or infinity that the division by the zero delta would give. *)
Theorem cpu_usage_zero_delta (k : Kernel) (w : World) (s : CpuSample) :
  proc_stat k (trace w) = Some s ->
  long_sub (total_time_of s) (prev_total_time (agent w)) = 0 ->
  (calculate_cpu_usage k w).1 = d0 /\
  is_finite (calculate_cpu_usage k w).1 = true /\
  is_finite (percent_used
               (long_sub (idle_time_of s) (prev_idle_time (agent w)))
               (long_sub (total_time_of s) (prev_total_time (agent w)))) = false.
Proof.
  intros Hs Hzero.
  rewrite (calculate_cpu_usage_sample k w s Hs). cbn [fst].
  rewrite Hzero. change (0 >? 0) with false. rewrite andb_false_r.
  repeat split. apply percent_used_zero_whole.
Qed.

(** Witness of C6: the second of two reads of unchanged counters. *)
Lemma cpu_usage_zero_delta_witness :
  (calculate_cpu_usage (cpu_kernel [ticks 100 100; ticks 100 100])
     (calculate_cpu_usage (cpu_kernel [ticks 100 100; ticks 100 100])
        fresh_world).2).1 = d0.
Proof.
  apply (cpu_usage_zero_delta
           (cpu_kernel [ticks 100 100; ticks 100 100])
           (calculate_cpu_usage (cpu_kernel [ticks 100 100; ticks 100 100])
              fresh_world).2
           (ticks 100 100)).
  - vm_compute. reflexivity.
  - vm_compute. reflexivity.
Defined.

(** ** Claims on the memory figure *)

Lemma calculate_memory_usage_eq (k : Kernel) (w : World) :
  calculate_memory_usage k w =
    (memory_usage_of (proc_meminfo k (trace w)),
     after_syscall EReadMeminfo (agent w) w).
Proof. reflexivity. Qed.

Example scan_meminfo_typical :
  scan_meminfo id meminfo_typical 0 0 = (16384256, 4096064).
Proof. vm_compute. reflexivity. Qed.

Lemma sscanf_ld_in_long (literal line : string) (z : Z) :
  sscanf_ld literal line = Some z -> in_long z.
Proof.
  unfold sscanf_ld. destruct (String.prefix literal line); [|discriminate].
  destruct (strtol10 _) as [v|]; [|discriminate].
  intros [= <-]. unfold in_long, clamp, LONG_MIN, LONG_MAX. lia.
Qed.

(** Whatever the file holds, the two figures that the scan stores are
    values of [long]. *)
Lemma scan_meminfo_in_long (lines : list string) (total available : Z) :
  in_long total -> in_long available ->
  in_long (fst (scan_meminfo id lines total available)) /\
  in_long (snd (scan_meminfo id lines total available)).
Proof.
  revert total available.
  induction lines as [|line rest IH]; intros total available Ht Ha; [now split|].
  cbn [scan_meminfo].
  destruct (String.prefix "MemTotal:" line).
  { apply IH; [|exact Ha].
    destruct (sscanf_ld "MemTotal:" line) as [z|] eqn:E; [|exact Ht].
    exact (sscanf_ld_in_long _ _ _ E). }
  destruct (String.prefix "MemAvailable:" line); [|now apply IH].
  apply IH; [exact Ht|].
  destruct (sscanf_ld "MemAvailable:" line) as [z|] eqn:E; [|exact Ha].
  exact (sscanf_ld_in_long _ _ _ E).
Qed.

Lemma memory_usage_percent (lines : list string) :
  0 < (scan_meminfo id lines 0 0).1 ->
  memory_usage_of (Some lines) =
    percent_used (scan_meminfo id lines 0 0).2 (scan_meminfo id lines 0 0).1.
Proof.
  unfold memory_usage_of, percent_used.
  destruct (scan_meminfo id lines 0 0) as [total_memory available_memory].
  cbn [fst snd]. intros Hpos.
  destruct (Z.gtb_spec total_memory 0); [reflexivity|lia].
Qed.

(** C4, as amended.  For a readable meminfo whose parsed total is positive,
    the memory percentage lies in [0, 100] whenever the parsed available
    figure lies between 0 and the total.  No clamping is applied, so the
    percentage can leave the interval otherwise. *)
Theorem memory_usage_in_range (k : Kernel) (w : World) (lines : list string) :
  proc_meminfo k (trace w) = Some lines ->
  0 < (scan_meminfo id lines 0 0).1 ->
  0 <= (scan_meminfo id lines 0 0).2 <= (scan_meminfo id lines 0 0).1 ->
  in_range 0 100 (calculate_memory_usage k w).1.
Proof.
  intros Hread Hpos Havail.
  rewrite calculate_memory_usage_eq. cbn [fst]. rewrite Hread.
  rewrite (memory_usage_percent lines Hpos).
  apply percent_used_in_range; [|assumption..].
  apply (scan_meminfo_in_long lines 0 0); split; discriminate.
Qed.

(** Witness of C4: 4096064 kB available out of 16384256 kB. *)
Lemma memory_usage_in_range_witness :
  in_range 0 100 (calculate_memory_usage (mem_kernel meminfo_typical) fresh_world).1.
Proof.
  apply (memory_usage_in_range (mem_kernel meminfo_typical) fresh_world
           meminfo_typical eq_refl).
  - vm_compute. reflexivity.
  - vm_compute. split; discriminate.
Defined.

(** C4, counterexample.  The file is readable and its total, 100, is
    positive, but the available figure is 200: the percentage is -100. *)
Lemma memory_usage_range_counterexample :
  0 < (scan_meminfo id meminfo_over 0 0).1 /\
  (calculate_memory_usage (mem_kernel meminfo_over) fresh_world).1 = DFin (-100) /\
  ~ in_range 0 100 (DFin (-100)).
Proof.
  split; [vm_compute; reflexivity|].
  split; [vm_compute; reflexivity|].
  intros [H _]. vm_compute in H. apply H. reflexivity.
Qed.

(** ** The process table *)

Lemma stop_process_unknown (k : Kernel) (w : World) (p : Z) :
  running_processes (agent w) !! p = None ->
  stop_process p k w = (false, w).
Proof.
  intros H. unfold stop_process, bind, get_agent. rewrite H. reflexivity.
Qed.

Lemma stop_process_refused (k : Kernel) (w : World) (p : Z) (info : ProcessInfo) :
  running_processes (agent w) !! p = Some info ->
  kill_result k (trace w) p SIGTERM <> 0 ->
  stop_process p k w = (false, after_syscall (EKill p SIGTERM) (agent w) w).
Proof.
  intros H Hk. unfold stop_process, bind, get_agent. rewrite H.
  unfold kill, syscall.
  destruct (Z.eqb_spec (kill_result k (trace w) p SIGTERM) 0); [contradiction|].
  reflexivity.
Qed.

(** [stop_process] erases the record once SIGTERM has been delivered. *)
Lemma stop_process_delivered_table (k : Kernel) (w : World) (p : Z) (info : ProcessInfo) :
  running_processes (agent w) !! p = Some info ->
  kill_result k (trace w) p SIGTERM = 0 ->
  running_processes (agent (stop_process p k w).2) =
    delete p (running_processes (agent w)).
Proof.
  intros H Hk.
  unfold stop_process, bind, get_agent. rewrite H.
  unfold kill, sleep_for_ms, table_erase, syscall, bind, get_agent, put_agent, ret.
  rewrite Hk. change (0 =? 0) with true. cbn [agent trace].
  match goal with |- context [if ?b then _ else _] => destruct b end;
    reflexivity.
Qed.

(** C1.  When [p] is in the table and SIGTERM is delivered, [stop_process]
    sends SIGTERM, sleeps for 500 ms, probes the child with signal 0, sends
    SIGKILL if the probe succeeds, and only then erases the record and
    returns true: the trace at return holds these calls in this order. *)
Theorem stop_process_effects (k : Kernel) (w : World) (p : Z) (info : ProcessInfo) :
  running_processes (agent w) !! p = Some info ->
  kill_result k (trace w) p SIGTERM = 0 ->
  let still_alive :=
    kill_result k (trace w ++ [EKill p SIGTERM; ESleepMs 500]) p SIGNULL =? 0 in
  stop_process p k w =
    (true,
     {| agent := with_table (delete p (running_processes (agent w))) (agent w);
        trace := trace w ++ [EKill p SIGTERM; ESleepMs 500; EKill p SIGNULL]
                         ++ (if still_alive then [EKill p SIGKILL] else []) |}).
Proof.
  intros H Hk. cbv zeta.
  unfold stop_process, bind, get_agent. rewrite H.
  unfold kill, sleep_for_ms, table_erase, syscall, bind, get_agent, put_agent, ret.
  rewrite Hk. change (0 =? 0) with true. cbn [agent trace].
  replace ((trace w ++ [EKill p SIGTERM]) ++ [ESleepMs 500])
    with (trace w ++ [EKill p SIGTERM; ESleepMs 500])
    by now rewrite <- app_assoc.
  destruct (kill_result k (trace w ++ [EKill p SIGTERM; ESleepMs 500]) p SIGNULL =? 0);
    cbn [agent trace]; unfold with_table;
    rewrite <- ?app_assoc; reflexivity.
Qed.

(** Witness of C1: pid 42 is in the table and stays alive through the grace
    period, so all four steps happen. *)
Lemma stop_process_effects_witness :
  stop_process 42 (scripted_kernel [] all_alive [] None) one_child =
    (true,
     {| agent := with_table (delete 42 {[ 42 := sleeper ]}) NodeAgent_new;
        trace := [EFork; EClock; EKill 42 SIGTERM; ESleepMs 500;
                  EKill 42 SIGNULL; EKill 42 SIGKILL] |}).
Proof.
  exact (stop_process_effects (scripted_kernel [] all_alive [] None)
           one_child 42 sleeper eq_refl eq_refl).
Defined.

Example stop_process_child_gone :
  trace (stop_process 42 (scripted_kernel [] dies_on_term [] None) one_child).2 =
    [EFork; EClock; EKill 42 SIGTERM; ESleepMs 500; EKill 42 SIGNULL].
Proof. vm_compute. reflexivity. Qed.

(** ** The HTTP handlers *)

Lemma stoi_value_nonempty (s : string) (v : Z) :
  stoi s = StoiValue v -> String.eqb s EmptyString = false.
Proof.
  destruct s; [discriminate|reflexivity].
Qed.

Lemma route_post_stop (body : string) :
  route "POST" "/stop" body = returns (handle_stop_request body).
Proof. reflexivity. Qed.

Lemma route_post_start (body : string) :
  route "POST" "/start" body = handle_start_request body.
Proof. reflexivity. Qed.

Lemma route_get_status (body : string) :
  route "GET" "/status" body = returns handle_status_request.
Proof. reflexivity. Qed.

(** A body without the key yields the empty string. *)
(** C2, as amended.  A POST /stop whose body carries a PID that is not in
    the process table is answered with status 500, "Failed to stop process";
    no signal is sent and the process table, like the rest of the agent, is
    unchanged. *)
Theorem stop_unknown_pid_response (k : Kernel) (w : World) (body : string) (p : Z) :
  stoi (parse_json_field body "pid") = StoiValue p ->
  running_processes (agent w) !! p = None ->
  route "POST" "/stop" body k w =
    Returns {| status_code := 500;
               status_text := "Internal Server Error";
               data := JsonError "Failed to stop process" |} w.
Proof.
  intros Hpid Hnone. rewrite route_post_stop.
  unfold returns, handle_stop_request.
  rewrite (stoi_value_nonempty _ _ Hpid), Hpid.
  unfold bind. rewrite (stop_process_unknown k w p Hnone). reflexivity.
Qed.

(** Witness of C2: a body with pid 42 sent to an agent with an empty table. *)
Lemma stop_unknown_pid_response_witness :
  route "POST" "/stop" body_pid_42 (scripted_kernel [] all_alive [] None) fresh_world =
    Returns {| status_code := 500;
               status_text := "Internal Server Error";
               data := JsonError "Failed to stop process" |} fresh_world.
Proof.
  exact (stop_unknown_pid_response (scripted_kernel [] all_alive [] None)
           fresh_world body_pid_42 42 eq_refl eq_refl).
Defined.

(** C2, counterexample.  The body carries PID 42, the table is empty, and
    the status code of the response is 500, not a 4xx. *)
Lemma stop_unknown_pid_counterexample :
  stoi (parse_json_field body_pid_42 "pid") = StoiValue 42 /\
  running_processes (agent fresh_world) !! 42 = None /\
  route "POST" "/stop" body_pid_42 (scripted_kernel [] all_alive [] None) fresh_world =
    Returns (create_error_response "Failed to stop process" 500) fresh_world /\
  ~ (400 <= status_code (create_error_response "Failed to stop process" 500) <= 499).
Proof.
  repeat split; try (vm_compute; reflexivity).
  vm_compute. intros [_ H]. apply H. reflexivity.
Qed.

(** A body that names a script: the handler forks. *)
Example start_with_script_path :
  route "POST" "/start" body_sleep_path
    (scripted_kernel [42] all_alive [] None) fresh_world =
    Returns (create_json_response (JsonStarted 42) 200) one_child.
Proof. vm_compute. reflexivity. Qed.

(** ** What each operation does to the process table *)

Lemma table_erase_eq (p : Z) (k : Kernel) (w : World) :
  table_erase p k w =
    (tt, {| agent := with_table (delete p (table_of w)) (agent w); trace := trace w |}).
Proof. reflexivity. Qed.

Lemma get_running_processes_eq (k : Kernel) (w : World) :
  get_running_processes k w = ((entries (table_of w)).*2, w).
Proof. reflexivity. Qed.

Lemma get_system_metrics_table (k : Kernel) (w : World) :
  table_of (get_system_metrics k w).2 = table_of w.
Proof.
  unfold get_system_metrics, bind.
  pose proof (calculate_cpu_usage_table k w) as Hcpu.
  destruct (calculate_cpu_usage k w) as [cpu w1]. cbn [snd] in Hcpu.
  rewrite calculate_memory_usage_eq.
  unfold read_proc_meminfo, syscall, get_agent, ret, after_syscall.
  cbn [agent trace snd]. exact Hcpu.
Qed.

Lemma handle_status_request_table (k : Kernel) (w : World) :
  table_of (handle_status_request k w).2 = table_of w.
Proof.
  unfold handle_status_request, bind.
  pose proof (get_system_metrics_table k w) as Hm.
  destruct (get_system_metrics k w) as [metrics w1]. cbn [snd] in Hm.
  rewrite get_running_processes_eq. unfold ret. cbn [snd]. exact Hm.
Qed.

Lemma handle_status_request_listed (k : Kernel) (w : World) :
  listed (handle_status_request k w).1 = (entries (table_of w)).*2.
Proof.
  unfold handle_status_request, bind.
  pose proof (get_system_metrics_table k w) as Hm.
  destruct (get_system_metrics k w) as [metrics w1]. cbn [snd] in Hm.
  rewrite get_running_processes_eq. unfold ret, listed, create_json_response.
  cbn [fst data]. now rewrite Hm.
Qed.

Lemma start_process_table (script_path : string) (k : Kernel) (w w' : World) (p : Z) :
  start_process script_path k w = Returns p w' ->
  table_of w' = table_of w \/
  exists info, pid info = p /\ status info = "RUNNING" /\
               command info = script_path /\
               table_of w' = <[p := info]> (table_of w).
Proof.
  unfold start_process, fork, syscall.
  destruct (fork_result k (trace w) =? 0); [discriminate|].
  destruct (fork_result k (trace w) >? 0).
  - unfold returns, bind, get_current_time, table_insert, syscall, bind,
      get_agent, put_agent, ret.
    cbn [agent trace]. intros [= <- <-]. right.
    eexists. cbn [agent running_processes]. repeat split; reflexivity.
  - intros [= <- <-]. left. reflexivity.
Qed.

Lemma stop_process_table (p : Z) (k : Kernel) (w : World) :
  table_of (stop_process p k w).2 = table_of w \/
  table_of (stop_process p k w).2 = delete p (table_of w).
Proof.
  destruct (table_of w !! p) as [info|] eqn:Hp.
  - destruct (Z.eq_dec (kill_result k (trace w) p SIGTERM) 0) as [Hk|Hk].
    + right. exact (stop_process_delivered_table k w p info Hp Hk).
    + left. rewrite (stop_process_refused k w p info Hp Hk). reflexivity.
  - left. rewrite (stop_process_unknown k w p Hp). reflexivity.
Qed.

Lemma reap_cons (p : Z) (rest : list Z) (k : Kernel) (w : World) :
  reap (p :: rest) k w =
    reap rest k
      (if kill_result k (trace w) p SIGNULL =? 0
       then after_syscall (EKill p SIGNULL) (agent w) w
       else after_syscall (EKill p SIGNULL)
              (with_table (delete p (table_of w)) (agent w)) w).
Proof.
  cbn [reap]. unfold bind at 1 2. unfold kill, syscall.
  destruct (kill_result k (trace w) p SIGNULL =? 0); reflexivity.
Qed.

(** The reaper only ever removes entries. *)
Lemma reap_subseteq (pids : list Z) (k : Kernel) (w : World) :
  table_of (reap pids k w).2 ⊆ table_of w.
Proof.
  revert w. induction pids as [|p rest IH]; intros w; [reflexivity|].
  rewrite reap_cons.
  destruct (kill_result k (trace w) p SIGNULL =? 0).
  - exact (IH _).
  - etrans; [exact (IH _)|]. cbn [after_syscall with_table agent running_processes].
    apply delete_subseteq.
Qed.

(** A pass of the reaper that finds every child alive leaves the table as
    it was. *)
Lemma reap_all_alive (pids : list Z) (k : Kernel) (w : World) :
  (forall h p, kill_result k h p SIGNULL = 0) ->
  table_of (reap pids k w).2 = table_of w.
Proof.
  intros Halive. revert w.
  induction pids as [|p rest IH]; intros w; [reflexivity|].
  rewrite reap_cons, Halive. change (0 =? 0) with true.
  now rewrite IH.
Qed.

Lemma cleanup_zombie_processes_subseteq (k : Kernel) (w : World) :
  table_of (cleanup_zombie_processes k w).2 ⊆ table_of w.
Proof. exact (reap_subseteq _ k w). Qed.

Lemma table_ok_subseteq (small large : gmap Z ProcessInfo) :
  small ⊆ large -> table_ok large -> table_ok small.
Proof.
  intros Hsub Hok key info Hlook.
  apply (Hok key info). exact (lookup_weaken _ _ _ _ Hlook Hsub).
Qed.

(** ** The order of the status list *)

#[global] Instance key_le_total : Total key_le.
Proof. intros x y. unfold key_le. lia. Qed.

#[global] Instance key_le_trans : Transitive key_le.
Proof. intros x y z. unfold key_le. lia. Qed.

Lemma entries_sorted (table : gmap Z ProcessInfo) :
  StronglySorted key_le (entries table).
Proof. apply StronglySorted_merge_sort; apply _. Qed.

Lemma elem_of_entries (table : gmap Z ProcessInfo) (p : Z) (info : ProcessInfo) :
  (p, info) ∈ entries table <-> table !! p = Some info.
Proof.
  unfold entries. rewrite merge_sort_Permutation. apply elem_of_map_to_list.
Qed.

(** ** Runs of operations *)

Lemma run_op_table_ok (op : Op) (k : Kernel) (w w' : World) :
  table_ok (table_of w) -> run_op op k w = Some w' -> table_ok (table_of w').
Proof.
  intros Hok. destruct op as [script_path|p| |]; cbn [run_op].
  - destruct (start_process script_path k w) as [p w1|] eqn:Hstart; [|discriminate].
    intros [= <-].
    destruct (start_process_table _ _ _ _ _ Hstart)
      as [-> | (info & Hpid & Hstatus & _ & ->)]; [exact Hok|].
    apply map_Forall_insert_2; [split; assumption|exact Hok].
  - intros [= <-].
    destruct (stop_process_table p k w) as [-> | ->]; [exact Hok|].
    now apply map_Forall_delete.
  - intros [= <-]. now rewrite handle_status_request_table.
  - intros [= <-].
    exact (table_ok_subseteq _ _ (cleanup_zombie_processes_subseteq k w) Hok).
Qed.

Lemma run_ops_table_ok (ops : list Op) (k : Kernel) (w w' : World) :
  table_ok (table_of w) -> run_ops ops k w = Some w' -> table_ok (table_of w').
Proof.
  revert w. induction ops as [|op rest IH]; intros w Hok; cbn [run_ops].
  - now intros [= <-].
  - destruct (run_op op k w) as [w1|] eqn:Hop; [|discriminate].
    apply IH. exact (run_op_table_ok op k w w1 Hok Hop).
Qed.

(** In the agent itself, where [fork] never returns 0, every run goes
    through. *)
Lemma run_ops_total (ops : list Op) (k : Kernel) (w : World) :
  (forall h, fork_result k h <> 0) -> is_Some (run_ops ops k w).
Proof.
  intros Hparent. revert w.
  induction ops as [|op rest IH]; intros w; cbn [run_ops]; [eauto|].
  destruct op as [script_path|p| |]; cbn [run_op]; try apply IH.
  unfold start_process, fork, syscall.
  destruct (Z.eqb_spec (fork_result k (trace w)) 0) as [Hz|_].
  { now destruct (Hparent (trace w)). }
  destruct (fork_result k (trace w) >? 0); [|apply IH].
  unfold returns.
  match goal with |- context [let (_, _) := ?m in _] => destruct m end.
  apply IH.
Qed.

(** C10.  In every state reached from a new agent by a sequence of start,
    stop, status and reap operations, each entry of the process table is
    stored under the pid of its record and its status is "RUNNING". *)
Theorem table_ok_invariant (k : Kernel) (ops : list Op) (w : World) :
  run_ops ops k fresh_world = Some w -> table_ok (table_of w).
Proof.
  apply run_ops_table_ok. apply map_Forall_empty.
Qed.

(** Witness of C10: the state after one start. *)
Lemma table_ok_invariant_witness : table_ok (table_of one_child).
Proof.
  apply (table_ok_invariant (scripted_kernel [42] all_alive [] None)
           [OpStart "./sleep.sh"] one_child).
  vm_compute. reflexivity.
Defined.

Lemma run_ops_status_only (ops : list Op) (k : Kernel) (w : World) :
  forallb is_status ops = true ->
  exists w', run_ops ops k w = Some w' /\ table_of w' = table_of w.
Proof.
  revert w. induction ops as [|op rest IH]; intros w Hall; cbn [run_ops].
  - eauto.
  - cbn [forallb] in Hall. apply andb_prop in Hall as [Hop Hrest].
    destruct op; try discriminate. cbn [run_op].
    destruct (IH (handle_status_request k w).2 Hrest) as (w' & Hrun & Htable).
    exists w'. split; [exact Hrun|].
    now rewrite Htable, handle_status_request_table.
Qed.

(** C9, as amended.  Two /status requests with nothing but further /status
    requests in between (no start, no stop and no pass of the reaper) return
    the same process list, record for record and in the same order. *)
Theorem status_lists_stable (ops : list Op) (k : Kernel) (w : World) :
  forallb is_status ops = true ->
  exists processes, status_pair ops k w = Some (processes, processes).
Proof.
  intros Hall. unfold status_pair.
  pose proof (handle_status_request_listed k w) as Hfirst.
  pose proof (handle_status_request_table k w) as Htable.
  destruct (handle_status_request k w) as [first w1]. cbn [fst snd] in *.
  destruct (run_ops_status_only ops k w1 Hall) as (w2 & -> & Hsame).
  exists (listed first). f_equal. f_equal.
  now rewrite handle_status_request_listed, Hsame, Htable, Hfirst.
Qed.

(** Witness of C9: three requests in a row to an agent with one child. *)
Lemma status_lists_stable_witness :
  exists processes,
    status_pair [OpStatus] (scripted_kernel [] all_alive [] None) one_child =
      Some (processes, processes).
Proof.
  apply (status_lists_stable [OpStatus]
           (scripted_kernel [] all_alive [] None) one_child).
  reflexivity.
Defined.

(** C9, counterexample.  Child 42 has exited; between the two requests the
    reaper runs, and no start or stop does: the first list holds the record
    of 42 and the second is empty. *)
Lemma status_lists_counterexample :
  forallb (fun op => negb (is_start_or_stop op)) [OpReap] = true /\
  status_pair [OpReap] (scripted_kernel [] all_dead [] None) one_child =
    Some ([sleeper], []) /\
  [sleeper] <> [].
Proof.
  split; [reflexivity|]. split; [vm_compute; reflexivity|discriminate].
Qed.

(** The metrics of two successive responses may differ while the lists
    agree. *)
Example status_metrics_differ :
  let k := scripted_kernel [] all_alive [ticks 100 100; ticks 150 200] None in
  let first := handle_status_request k one_child in
  let second := handle_status_request k first.2 in
  listed first.1 = listed second.1 /\
  SystemMetrics.cpu_usage <$> metrics_of first.1 = Some d0 /\
  SystemMetrics.cpu_usage <$> metrics_of second.1 =
    Some (DFin (4691249611844267 # 140737488355328)).
Proof. vm_compute. repeat split; reflexivity. Qed.

(** * Further properties of the process table *)

Lemma start_process_parent (k : Kernel) (w : World) (script_path : string) :
  0 < fork_result k (trace w) ->
  start_process script_path k w =
    Returns (fork_result k (trace w))
      {| agent := with_table (<[fork_result k (trace w) := started_record k w script_path]>
                                (table_of w)) (agent w);
         trace := trace w ++ [EFork; EClock] |}.
Proof.
  intros Hpos. unfold start_process, fork, syscall.
  destruct (Z.eqb_spec (fork_result k (trace w)) 0) as [Hz|_]; [lia|].
  destruct (Z.gtb_spec (fork_result k (trace w)) 0) as [_|Hle]; [|lia].
  unfold returns, bind, get_current_time, table_insert, syscall, bind,
    get_agent, put_agent, ret, with_table, started_record.
  cbn [agent trace]. rewrite <- app_assoc. reflexivity.
Qed.

Lemma start_process_failed (k : Kernel) (w : World) (script_path : string) :
  fork_result k (trace w) < 0 ->
  start_process script_path k w = Returns (-1) (after_syscall EFork (agent w) w).
Proof.
  intros Hneg. unfold start_process, fork, syscall.
  destruct (Z.eqb_spec (fork_result k (trace w)) 0) as [Hz|_]; [lia|].
  destruct (Z.gtb_spec (fork_result k (trace w)) 0) as [Hgt|_]; [lia|].
  reflexivity.
Qed.

(** X1.  When [fork] succeeds in the parent, [start_process] returns the
    child's pid; a lookup of that pid then finds a record with that pid, the
    script path as command, the time read after the fork and status RUNNING;
    every other entry of the table is as before; the only system calls made
    are the fork and the reading of the clock. *)
Theorem start_process_lookup (k : Kernel) (w : World) (script_path : string) :
  0 < fork_result k (trace w) ->
  exists w',
    start_process script_path k w = Returns (fork_result k (trace w)) w' /\
    table_of w' !! fork_result k (trace w) = Some (started_record k w script_path) /\
    (forall q, q <> fork_result k (trace w) -> table_of w' !! q = table_of w !! q) /\
    trace w' = trace w ++ [EFork; EClock].
Proof.
  intros Hpos. eexists. split; [exact (start_process_parent k w script_path Hpos)|].
  cbn [agent with_table running_processes trace].
  split; [apply lookup_insert_eq|]. split; [|reflexivity].
  intros q Hq. now apply lookup_insert_ne.
Qed.

Lemma start_process_lookup_witness :
  exists w',
    start_process "./sleep.sh" (forking_kernel 42 all_alive) fresh_world = Returns 42 w' /\
    table_of w' !! 42 = Some sleeper /\
    (forall q, q <> 42 -> table_of w' !! q = table_of fresh_world !! q) /\
    trace w' = [EFork; EClock].
Proof.
  apply (start_process_lookup (forking_kernel 42 all_alive) fresh_world "./sleep.sh").
  reflexivity.
Defined.

Lemma String_eqb_empty_false (s : string) :
  s <> EmptyString -> String.eqb s EmptyString = false.
Proof. destruct s; [congruence|reflexivity]. Qed.

(** X2.  A POST /start that names a script is answered with 500 "Failed to
    start process" when [fork] fails; the process table is unchanged and
    nothing but the failed fork has happened. *)
Theorem start_request_fork_failure (k : Kernel) (w : World) (body : string) :
  parse_json_field body "script_path" <> EmptyString ->
  fork_result k (trace w) < 0 ->
  route "POST" "/start" body k w =
    Returns {| status_code := 500;
               status_text := "Internal Server Error";
               data := JsonError "Failed to start process" |}
            {| agent := agent w; trace := trace w ++ [EFork] |}.
Proof.
  intros Hpath Hfork. rewrite route_post_start. unfold handle_start_request.
  rewrite (String_eqb_empty_false _ Hpath).
  rewrite (start_process_failed k w _ Hfork). reflexivity.
Qed.

Lemma start_request_fork_failure_witness :
  route "POST" "/start" body_sleep_path (forking_kernel (-1) all_alive) fresh_world =
    Returns {| status_code := 500;
               status_text := "Internal Server Error";
               data := JsonError "Failed to start process" |}
            {| agent := NodeAgent_new; trace := [EFork] |}.
Proof.
  apply (start_request_fork_failure (forking_kernel (-1) all_alive)
           fresh_world body_sleep_path).
  - discriminate.
  - reflexivity.
Defined.

(** X3.  A POST /start that names a script is answered, when [fork]
    succeeds, with 200 and the child's pid, and the table then holds under
    that pid a RUNNING record whose command is the script path of the body. *)
Theorem start_request_success (k : Kernel) (w : World) (body : string) :
  parse_json_field body "script_path" <> EmptyString ->
  0 < fork_result k (trace w) ->
  exists w',
    route "POST" "/start" body k w =
      Returns {| status_code := 200; status_text := "OK";
                 data := JsonStarted (fork_result k (trace w)) |} w' /\
    table_of w' !! fork_result k (trace w) =
      Some {| pid := fork_result k (trace w);
              command := parse_json_field body "script_path";
              start_time := local_time k (trace w ++ [EFork]);
              status := "RUNNING" |}.
Proof.
  intros Hpath Hfork. rewrite route_post_start. unfold handle_start_request.
  rewrite (String_eqb_empty_false _ Hpath).
  rewrite (start_process_parent k w _ Hfork).
  destruct (Z.gtb_spec (fork_result k (trace w)) 0) as [_|Hle]; [|lia].
  eexists. split; [reflexivity|].
  cbn [agent with_table running_processes]. apply lookup_insert_eq.
Qed.

Lemma start_request_success_witness :
  exists w',
    route "POST" "/start" body_sleep_path (forking_kernel 42 all_alive) fresh_world =
      Returns {| status_code := 200; status_text := "OK"; data := JsonStarted 42 |} w' /\
    table_of w' !! 42 = Some sleeper.
Proof.
  apply (start_request_success (forking_kernel 42 all_alive) fresh_world body_sleep_path).
  - discriminate.
  - reflexivity.
Defined.

(** ** Stopping *)

Lemma stop_process_not_delivered (k : Kernel) (w : World) (p : Z) (info : ProcessInfo) :
  table_of w !! p = Some info ->
  kill_result k (trace w) p SIGTERM <> 0 ->
  stop_process p k w = (false, {| agent := agent w; trace := trace w ++ [EKill p SIGTERM] |}).
Proof.
  intros H Hk. unfold stop_process, bind, get_agent. rewrite H.
  unfold kill, syscall.
  destruct (Z.eqb_spec (kill_result k (trace w) p SIGTERM) 0); [contradiction|].
  reflexivity.
Qed.

Lemma stop_process_done (k : Kernel) (w : World) (p : Z) (info : ProcessInfo) :
  table_of w !! p = Some info ->
  kill_result k (trace w) p SIGTERM = 0 ->
  exists w',
    stop_process p k w = (true, w') /\
    table_of w' = delete p (table_of w) /\
    prev_total_time (agent w') = prev_total_time (agent w) /\
    prev_idle_time (agent w') = prev_idle_time (agent w).
Proof.
  intros H Hk.
  unfold stop_process, bind, get_agent. rewrite H.
  unfold kill, sleep_for_ms, table_erase, syscall, bind, get_agent, put_agent, ret.
  rewrite Hk. change (0 =? 0) with true. cbn [agent trace].
  match goal with |- context [if ?b then _ else _] => destruct b end;
    eexists; (split; [reflexivity|]); cbn [agent running_processes prev_total_time
      prev_idle_time]; repeat split.
Qed.

(** X4.  A POST /stop for a pid of the table whose SIGTERM cannot be
    delivered (the process is gone already) is answered with 500; no grace
    period is waited, no SIGKILL is sent, and the record stays in the table. *)
Theorem stop_request_signal_refused (k : Kernel) (w : World) (body : string)
    (p : Z) (info : ProcessInfo) :
  stoi (parse_json_field body "pid") = StoiValue p ->
  table_of w !! p = Some info ->
  kill_result k (trace w) p SIGTERM <> 0 ->
  route "POST" "/stop" body k w =
    Returns {| status_code := 500;
               status_text := "Internal Server Error";
               data := JsonError "Failed to stop process" |}
            {| agent := agent w; trace := trace w ++ [EKill p SIGTERM] |}.
Proof.
  intros Hpid Hin Hk. rewrite route_post_stop.
  unfold returns, handle_stop_request.
  rewrite (stoi_value_nonempty _ _ Hpid), Hpid.
  unfold bind. rewrite (stop_process_not_delivered k w p info Hin Hk). reflexivity.
Qed.

Lemma stop_request_signal_refused_witness :
  route "POST" "/stop" body_pid_42 (forking_kernel 0 all_dead) one_child =
    Returns {| status_code := 500;
               status_text := "Internal Server Error";
               data := JsonError "Failed to stop process" |}
            {| agent := agent one_child;
               trace := [EFork; EClock; EKill 42 SIGTERM] |}.
Proof.
  apply (stop_request_signal_refused (forking_kernel 0 all_dead) one_child
           body_pid_42 42 sleeper).
  - reflexivity.
  - reflexivity.
  - discriminate.
Defined.

(** X5.  A POST /stop for a pid of the table whose SIGTERM is delivered is
    answered with 200 "stopped"; afterwards the pid is not in the table and
    every other entry is as before. *)
Theorem stop_request_success (k : Kernel) (w : World) (body : string)
    (p : Z) (info : ProcessInfo) :
  stoi (parse_json_field body "pid") = StoiValue p ->
  table_of w !! p = Some info ->
  kill_result k (trace w) p SIGTERM = 0 ->
  exists w',
    route "POST" "/stop" body k w =
      Returns {| status_code := 200; status_text := "OK"; data := JsonStopped |} w' /\
    table_of w' !! p = None /\
    (forall q, q <> p -> table_of w' !! q = table_of w !! q).
Proof.
  intros Hpid Hin Hk. rewrite route_post_stop.
  unfold returns, handle_stop_request.
  rewrite (stoi_value_nonempty _ _ Hpid), Hpid.
  unfold bind.
  destruct (stop_process_done k w p info Hin Hk) as (w' & -> & Htable & _).
  exists w'. split; [reflexivity|]. rewrite Htable.
  split; [apply lookup_delete_eq|].
  intros q Hq. now apply lookup_delete_ne.
Qed.

Lemma stop_request_success_witness :
  exists w',
    route "POST" "/stop" body_pid_42 (forking_kernel 0 all_alive) one_child =
      Returns {| status_code := 200; status_text := "OK"; data := JsonStopped |} w' /\
    table_of w' !! 42 = None /\
    (forall q, q <> 42 -> table_of w' !! q = table_of one_child !! q).
Proof.
  apply (stop_request_success (forking_kernel 0 all_alive) one_child
           body_pid_42 42 sleeper); reflexivity.
Defined.

(** X6.  Starting a script whose pid is not yet in the table and then
    stopping that pid, with SIGTERM delivered, leaves the process table
    exactly as it was before the start. *)
Theorem start_then_stop_restores_table (k : Kernel) (w w1 : World) (script_path : string) (p : Z) :
  table_of w !! fork_result k (trace w) = None ->
  start_process script_path k w = Returns p w1 ->
  0 < p ->
  kill_result k (trace w1) p SIGTERM = 0 ->
  (stop_process p k w1).1 = true /\
  table_of (stop_process p k w1).2 = table_of w.
Proof.
  intros Hfresh Hstart Hpos Hk.
  assert (0 < fork_result k (trace w)) as Hfork.
  { unfold start_process, fork, syscall in Hstart.
    destruct (fork_result k (trace w) =? 0); [discriminate|].
    destruct (Z.gtb_spec (fork_result k (trace w)) 0) as [Hgt|_]; [lia|].
    injection Hstart as <- _. lia. }
  rewrite (start_process_parent k w script_path Hfork) in Hstart.
  injection Hstart as <- <-.
  cbn [trace] in Hk.
  match goal with |- context [stop_process ?q k ?v] =>
    destruct (stop_process_done k v q (started_record k w script_path)) as (w2 & Hs & Ht & _)
  end.
  { cbn [agent with_table running_processes]. apply lookup_insert_eq. }
  { exact Hk. }
  rewrite Hs. cbn [fst snd]. split; [reflexivity|].
  rewrite Ht. cbn [agent with_table running_processes].
  now apply delete_insert_id.
Qed.

Lemma start_then_stop_restores_table_witness :
  (stop_process 42 (forking_kernel 42 all_alive) one_child).1 = true /\
  table_of (stop_process 42 (forking_kernel 42 all_alive) one_child).2 = table_of fresh_world.
Proof.
  apply (start_then_stop_restores_table (forking_kernel 42 all_alive)
           fresh_world one_child "./sleep.sh" 42); reflexivity.
Defined.

(** X7.  Once a pid has been stopped, a second [stop_process] of the same
    pid returns false and neither sends a signal nor changes the agent. *)
Theorem stop_process_twice (k : Kernel) (w : World) (p : Z) :
  (stop_process p k w).1 = true ->
  stop_process p k (stop_process p k w).2 = (false, (stop_process p k w).2).
Proof.
  intros Htrue.
  destruct (table_of w !! p) as [info|] eqn:Hin.
  2:{ rewrite (stop_process_unknown k w p Hin) in Htrue. discriminate. }
  destruct (Z.eq_dec (kill_result k (trace w) p SIGTERM) 0) as [Hk|Hk].
  2:{ rewrite (stop_process_not_delivered k w p info Hin Hk) in Htrue. discriminate. }
  destruct (stop_process_done k w p info Hin Hk) as (w' & Hs & Ht & _).
  rewrite Hs. cbn [snd]. apply stop_process_unknown.
  rewrite Ht. apply lookup_delete_eq.
Qed.

Lemma stop_process_twice_witness :
  stop_process 42 (forking_kernel 0 all_alive)
    (stop_process 42 (forking_kernel 0 all_alive) one_child).2 =
  (false, (stop_process 42 (forking_kernel 0 all_alive) one_child).2).
Proof.
  apply (stop_process_twice (forking_kernel 0 all_alive) one_child 42).
  reflexivity.
Defined.

(** ** The reaper *)

Lemma reap_lookup (k : Kernel) (alive : Z -> bool) :
  (forall h p, (kill_result k h p SIGNULL =? 0) = alive p) ->
  forall (pids : list Z) (w : World) (q : Z),
    table_of (reap pids k w).2 !! q =
      if decide (q ∈ pids /\ alive q = false) then None else table_of w !! q.
Proof.
  intros Halive pids. induction pids as [|p rest IH]; intros w q.
  - cbn [reap ret snd]. destruct (decide _) as [[Hin _]|_]; [|reflexivity].
    now apply elem_of_nil in Hin.
  - rewrite reap_cons, Halive, IH.
    destruct (alive p) eqn:Hp; cbn [after_syscall agent with_table running_processes].
    + destruct (decide (q ∈ rest /\ alive q = false)) as [[Hin Hq]|Hno];
        destruct (decide (q ∈ p :: rest /\ alive q = false)) as [[Hin' Hq']|Hno'];
        try reflexivity.
      * destruct Hno'. split; [now right|assumption].
      * destruct Hno. split; [|assumption].
        apply elem_of_cons in Hin' as [->|Hin']; [congruence|assumption].
    + destruct (decide (q ∈ rest /\ alive q = false)) as [[Hin Hq]|Hno];
        destruct (decide (q ∈ p :: rest /\ alive q = false)) as [[Hin' Hq']|Hno'];
        try reflexivity.
      * destruct Hno'. split; [now right|assumption].
      * apply elem_of_cons in Hin' as [->|Hin']; [apply lookup_delete_eq|].
        destruct Hno. now split.
      * destruct (decide (q = p)) as [->|Hne].
        { destruct Hno'. split; [now left|assumption]. }
        now apply lookup_delete_ne.
Qed.

Lemma elem_of_entries_keys (table : gmap Z ProcessInfo) (q : Z) :
  q ∈ (entries table).*1 <-> is_Some (table !! q).
Proof.
  rewrite list_elem_of_fmap. split.
  - intros ([p info] & -> & Hin). apply elem_of_entries in Hin. eauto.
  - intros [info Hin]. exists (q, info). split; [reflexivity|].
    now apply elem_of_entries.
Qed.

(** X8.  When the liveness of each pid does not change during the pass,
    [cleanup_zombie_processes] leaves in the table exactly the entries whose
    process answers the zero-signal probe: the records of live processes are
    kept untouched and those of dead ones are all removed. *)
Theorem cleanup_keeps_survivors (k : Kernel) (alive : Z -> bool) (w : World) :
  (forall h p, (kill_result k h p SIGNULL =? 0) = alive p) ->
  table_of (cleanup_zombie_processes k w).2 = survivors alive (table_of w).
Proof.
  intros Halive. apply map_eq. intros q.
  unfold cleanup_zombie_processes, bind, get_agent.
  rewrite (reap_lookup k alive Halive).
  unfold survivors. rewrite map_lookup_filter.
  destruct (table_of w !! q) as [info|] eqn:Hq; cbn.
  - destruct (decide (q ∈ (entries (table_of w)).*1 /\ alive q = false)) as [[_ Hd]|Hno].
    + rewrite option_guard_False; [reflexivity|]. cbn. congruence.
    + rewrite option_guard_True; [reflexivity|]. cbn.
      destruct (alive q) eqn:Ha; [reflexivity|].
      destruct Hno. split; [|reflexivity]. apply elem_of_entries_keys. eauto.
  - now destruct (decide _).
Qed.

Lemma cleanup_keeps_survivors_witness :
  table_of (cleanup_zombie_processes (forking_kernel 0 only_42) two_children).2 =
    survivors (fun p => p =? 42) (table_of two_children).
Proof.
  apply (cleanup_keeps_survivors (forking_kernel 0 only_42) (fun p => p =? 42)
           two_children).
  intros h p. cbn. unfold only_42. destruct (p =? 42); reflexivity.
Defined.

Lemma reap_trace (pids : list Z) (k : Kernel) (w : World) :
  trace (reap pids k w).2 = trace w ++ (probe_of <$> pids) /\
  prev_total_time (agent (reap pids k w).2) = prev_total_time (agent w) /\
  prev_idle_time (agent (reap pids k w).2) = prev_idle_time (agent w).
Proof.
  revert w. induction pids as [|p rest IH]; intros w.
  - cbn [reap ret snd fmap list_fmap]. now rewrite app_nil_r.
  - rewrite reap_cons.
    destruct (kill_result k (trace w) p SIGNULL =? 0);
      destruct (IH (after_syscall (EKill p SIGNULL) (agent w) w)) as (Ht1 & Hp1 & Hi1);
      destruct (IH (after_syscall (EKill p SIGNULL)
                      (with_table (delete p (table_of w)) (agent w)) w))
        as (Ht2 & Hp2 & Hi2);
      cbn [after_syscall agent trace with_table prev_total_time prev_idle_time] in *.
    + rewrite Ht1, Hp1, Hi1, <- app_assoc. repeat split.
    + rewrite Ht2, Hp2, Hi2, <- app_assoc. repeat split.
Qed.

Lemma StronglySorted_le_lt (l : list Z) :
  StronglySorted Z.le l -> NoDup l -> StronglySorted Z.lt l.
Proof.
  induction 1 as [|x l Hsorted IH Hall]; intros Hnodup; [constructor|].
  apply NoDup_cons in Hnodup as [Hx Hnodup].
  constructor; [now apply IH|].
  apply Forall_forall. intros y Hy.
  rewrite Forall_forall in Hall. specialize (Hall y Hy).
  assert (x <> y) by (intros ->; contradiction). lia.
Qed.

Lemma entries_keys_increasing (table : gmap Z ProcessInfo) :
  StronglySorted Z.lt (entries table).*1.
Proof.
  apply StronglySorted_le_lt.
  - apply (StronglySorted_fmap fst key_le Z.le); [|apply entries_sorted].
    intros x y Hxy. exact Hxy.
  - unfold entries. rewrite merge_sort_Permutation. apply NoDup_fst_map_to_list.
Qed.

(** X9.  A pass of the reaper makes exactly one zero-signal probe per entry
    of the table, in ascending order of pid, and no other system call: it
    never sends SIGTERM or SIGKILL and never touches the CPU baseline. *)
Theorem cleanup_probes_only (k : Kernel) (w : World) :
  exists pids,
    trace (cleanup_zombie_processes k w).2 = trace w ++ (probe_of <$> pids) /\
    StronglySorted Z.lt pids /\
    (forall q, q ∈ pids <-> is_Some (table_of w !! q)) /\
    prev_total_time (agent (cleanup_zombie_processes k w).2) = prev_total_time (agent w) /\
    prev_idle_time (agent (cleanup_zombie_processes k w).2) = prev_idle_time (agent w).
Proof.
  exists (entries (table_of w)).*1.
  unfold cleanup_zombie_processes, bind, get_agent.
  destruct (reap_trace (entries (table_of w)).*1 k w) as (Ht & Hp & Hi).
  split; [exact Ht|]. split; [apply entries_keys_increasing|].
  split; [apply elem_of_entries_keys|]. split; assumption.
Qed.

(** ** The status snapshot *)

Lemma get_system_metrics_effects (k : Kernel) (w : World) :
  trace (get_system_metrics k w).2 = trace w ++ [EReadStat; EReadMeminfo; EReadMeminfo] /\
  SystemMetrics.running_processes (get_system_metrics k w).1 =
    Z.of_nat (size (table_of w)).
Proof.
  unfold get_system_metrics, bind.
  pose proof (calculate_cpu_usage_table k w) as Htable.
  pose proof (calculate_cpu_usage_trace k w) as Htrace.
  destruct (calculate_cpu_usage k w) as [cpu w1]. cbn [snd] in Htable, Htrace.
  rewrite calculate_memory_usage_eq.
  unfold read_proc_meminfo, syscall, get_agent, ret, after_syscall.
  cbn [agent trace fst snd SystemMetrics.running_processes].
  rewrite Htable, Htrace, <- !app_assoc. split; reflexivity.
Qed.

Lemma length_entries (table : gmap Z ProcessInfo) :
  length (entries table) = size table.
Proof.
  unfold entries. rewrite merge_sort_Permutation. apply length_map_to_list.
Qed.

Lemma status_request_effects (k : Kernel) (w : World) :
  trace (handle_status_request k w).2 =
    trace w ++ [EReadStat; EReadMeminfo; EReadMeminfo] /\
  table_of (handle_status_request k w).2 = table_of w.
Proof.
  unfold handle_status_request, bind.
  pose proof (get_system_metrics_effects k w) as [Htrace _].
  pose proof (get_system_metrics_table k w) as Htable.
  destruct (get_system_metrics k w) as [metrics w1]. cbn [fst snd] in *.
  rewrite get_running_processes_eq. unfold ret. cbn [snd]. split; assumption.
Qed.

Lemma handle_status_request_alone (k : Kernel) (w : World) :
  handle_status_request_among [] k w = Some (handle_status_request k w).
Proof.
  unfold handle_status_request_among, handle_status_request, bind.
  destruct (get_system_metrics k w) as [metrics w1]. cbn [run_ops].
  now rewrite get_running_processes_eq.
Qed.

(** X10.  A /status request is answered with 200 and its count is the length
    of its process list.  The running_processes figure of its metrics is the
    size of the table in the first critical section of the handler, the list
    is the table in the second one: the two agree when only /status requests
    of other threads come between the two sections (or nothing does), and
    what a start, a stop or a pass of the reaper in between changes shows in
    the list and not in the figure.  Up to its first critical section the
    handler reads /proc/stat once and /proc/meminfo twice and makes no other
    system call. *)
Theorem status_request_consistent (k : Kernel) (w w2 : World) (others : list Op) :
  run_ops others k (get_system_metrics k w).2 = Some w2 ->
  exists metrics processes,
    handle_status_request_among others k w =
      Some ({| status_code := 200; status_text := "OK";
               data := JsonStatus metrics (length processes) processes |}, w2) /\
    SystemMetrics.running_processes metrics = Z.of_nat (size (table_of w)) /\
    length processes = size (table_of w2) /\
    trace (get_system_metrics k w).2 =
      trace w ++ [EReadStat; EReadMeminfo; EReadMeminfo] /\
    (forallb is_status others = true ->
     SystemMetrics.running_processes metrics = Z.of_nat (length processes)).
Proof.
  intros Hrun. unfold handle_status_request_among.
  pose proof (get_system_metrics_effects k w) as [Htrace Hcount].
  pose proof (get_system_metrics_table k w) as Htable.
  destruct (get_system_metrics k w) as [metrics w1]. cbn [fst snd] in *.
  rewrite Hrun, get_running_processes_eq.
  exists metrics, (entries (table_of w2)).*2.
  assert (length (entries (table_of w2)).*2 = size (table_of w2)) as Hlen.
  { now rewrite length_fmap, length_entries. }
  split; [reflexivity|]. split; [exact Hcount|]. split; [exact Hlen|].
  split; [exact Htrace|].
  intros Hstatus.
  destruct (run_ops_status_only others k w1 Hstatus) as (w' & Hrun' & Hsame).
  rewrite Hrun in Hrun'. injection Hrun' as <-.
  now rewrite Hcount, Hlen, Hsame, Htable.
Qed.

(** Witness of X10: another thread starts a script between the two critical
    sections; the metrics count no process and the list has one. *)
Lemma status_request_consistent_witness :
  exists metrics processes,
    handle_status_request_among [OpStart "./sleep.sh"]
      (scripted_kernel [42] all_alive [] None) fresh_world =
      Some ({| status_code := 200; status_text := "OK";
               data := JsonStatus metrics (length processes) processes |},
            child_during_status) /\
    SystemMetrics.running_processes metrics = 0 /\
    length processes = 1%nat.
Proof.
  destruct (status_request_consistent (scripted_kernel [42] all_alive [] None)
              fresh_world child_during_status [OpStart "./sleep.sh"])
    as (metrics & processes & Hresponse & Hfigure & Hlist & _).
  - vm_compute. reflexivity.
  - exists metrics, processes. split; [exact Hresponse|]. split.
    + rewrite Hfigure. reflexivity.
    + rewrite Hlist. reflexivity.
Defined.

Lemma listed_pids (table : gmap Z ProcessInfo) :
  table_ok table -> pid <$> (entries table).*2 = (entries table).*1.
Proof.
  intros Hok.
  assert (Forall (fun entry => pid entry.2 = entry.1) (entries table)) as Hall.
  { apply Forall_forall. intros [p info] Hin. apply elem_of_entries in Hin.
    exact (proj1 (Hok p info Hin)). }
  induction Hall as [|entry rest Hentry _ IH]; [reflexivity|].
  cbn. now rewrite Hentry, IH.
Qed.

(** X11.  For a table in which every record is stored under its own pid, the
    process list of /status holds exactly the records of the table, each
    once, in strictly ascending order of pid. *)
Theorem status_list_sorted_complete (k : Kernel) (w : World) :
  table_ok (table_of w) ->
  StronglySorted Z.lt (pid <$> listed (handle_status_request k w).1) /\
  forall info, info ∈ listed (handle_status_request k w).1 <->
               table_of w !! pid info = Some info.
Proof.
  intros Hok. rewrite handle_status_request_listed. split.
  - rewrite (listed_pids _ Hok). apply entries_keys_increasing.
  - intros info. rewrite list_elem_of_fmap. split.
    + intros ([p info'] & -> & Hin). apply elem_of_entries in Hin.
      cbn. now rewrite (proj1 (Hok p info' Hin)).
    + intros Hin. exists (pid info, info). split; [reflexivity|].
      now apply elem_of_entries.
Qed.

Lemma status_list_sorted_complete_witness :
  StronglySorted Z.lt
    (pid <$> listed (handle_status_request (forking_kernel 0 all_alive) two_children).1) /\
  forall info,
    info ∈ listed (handle_status_request (forking_kernel 0 all_alive) two_children).1 <->
    table_of two_children !! pid info = Some info.
Proof.
  apply (status_list_sorted_complete (forking_kernel 0 all_alive) two_children).
  apply (bool_decide_unpack _). vm_compute. exact I.
Defined.

Example status_list_two_children :
  pid <$> listed (handle_status_request (forking_kernel 0 all_alive) two_children).1 = [7; 42].
Proof. vm_compute. reflexivity. Qed.

(** ** The metrics *)

Lemma scan_meminfo_fields (lines : list string) (total available : option Z) :
  scan_meminfo id lines (default 0 total) (default 0 available) =
    (default 0 (scan_meminfo Some lines total available).1,
     default 0 (scan_meminfo Some lines total available).2).
Proof.
  revert total available.
  induction lines as [|line rest IH]; intros total available; [reflexivity|].
  cbn [scan_meminfo].
  destruct (String.prefix "MemTotal:" line).
  - rewrite <- IH. f_equal. now destruct (sscanf_ld "MemTotal:" line).
  - destruct (String.prefix "MemAvailable:" line); [|apply IH].
    rewrite <- IH. f_equal. now destruct (sscanf_ld "MemAvailable:" line).
Qed.

(** X12.  When /proc/meminfo reads the same during one [get_system_metrics],
    the metrics agree with each other: total_memory and available_memory are
    the values parsed from the file (unset when the file has no such line),
    and memory_usage is [100 * (1 - available / total)] of these two fields,
    or 0 when the total is unset or not positive. *)
Theorem metrics_memory_consistent (k : Kernel) (w : World) (lines : list string) :
  proc_meminfo k (trace w ++ [EReadStat]) = Some lines ->
  proc_meminfo k (trace w ++ [EReadStat; EReadMeminfo]) = Some lines ->
  let metrics := (get_system_metrics k w).1 in
  let total := default 0 (SystemMetrics.total_memory metrics) in
  let available := default 0 (SystemMetrics.available_memory metrics) in
  SystemMetrics.total_memory metrics = (scan_meminfo Some lines None None).1 /\
  SystemMetrics.available_memory metrics = (scan_meminfo Some lines None None).2 /\
  SystemMetrics.memory_usage metrics =
    (if total >? 0 then percent_used available total else d0).
Proof.
  intros Hfirst Hsecond. cbv zeta.
  unfold get_system_metrics, bind.
  pose proof (calculate_cpu_usage_trace k w) as Htrace.
  destruct (calculate_cpu_usage k w) as [cpu w1]. cbn [snd] in Htrace.
  rewrite calculate_memory_usage_eq.
  unfold read_proc_meminfo, syscall, get_agent, ret, after_syscall.
  cbn [agent trace fst snd SystemMetrics.total_memory
       SystemMetrics.available_memory SystemMetrics.memory_usage].
  rewrite Htrace, <- app_assoc. cbn [app]. rewrite Hfirst, Hsecond.
  split; [reflexivity|]. split; [reflexivity|].
  unfold memory_usage_of, percent_used.
  change (scan_meminfo id lines 0 0)
    with (scan_meminfo id lines (default 0 None) (default 0 None)).
  rewrite scan_meminfo_fields. reflexivity.
Qed.

Lemma metrics_memory_consistent_witness :
  SystemMetrics.total_memory
    (get_system_metrics (mem_kernel meminfo_typical) fresh_world).1 = Some 16384256 /\
  SystemMetrics.available_memory
    (get_system_metrics (mem_kernel meminfo_typical) fresh_world).1 = Some 4096064 /\
  SystemMetrics.memory_usage
    (get_system_metrics (mem_kernel meminfo_typical) fresh_world).1 =
    percent_used 4096064 16384256.
Proof.
  exact (metrics_memory_consistent (mem_kernel meminfo_typical) fresh_world
           meminfo_typical eq_refl eq_refl).
Defined.

Lemma counters_monotone_bounds (s1 s2 : CpuSample) :
  counters_monotone s1 s2 = true ->
  counters_idle s1 <= counters_idle s2 /\
  counters_idle s2 - counters_idle s1 <= counters_total s2 - counters_total s1.
Proof.
  unfold counters_monotone. intros H.
  repeat match goal with
  | Hc : (_ && _) = true |- _ => apply andb_prop in Hc; destruct Hc
  | Hc : (_ <=? _) = true |- _ => apply Z.leb_le in Hc
  end.
  unfold counters_idle, counters_total. lia.
Qed.

(** X13.  For two successive reads of kernel counters of which none has
    gone back, the CPU usage returned by the second call lies in [0, 100]. *)
Theorem cpu_usage_in_range_monotone (k : Kernel) (w : World) (s1 s2 : CpuSample) :
  kernel_counters s1 = true -> kernel_counters s2 = true ->
  counters_monotone s1 s2 = true ->
  proc_stat k (trace w) = Some s1 ->
  proc_stat k (trace w ++ [EReadStat]) = Some s2 ->
  in_range 0 100 (calculate_cpu_usage k (calculate_cpu_usage k w).2).1.
Proof.
  intros K1 K2 Hmono H1 H2.
  destruct (total_time_of_exact s1 K1) as [T1 R1].
  destruct (total_time_of_exact s2 K2) as [T2 R2].
  destruct (idle_time_of_exact s1 K1) as [I1 J1].
  destruct (idle_time_of_exact s2 K2) as [I2 J2].
  destruct (counters_monotone_bounds s1 s2 Hmono) as [Hidle Hshare].
  rewrite (calculate_cpu_usage_sample k w s1 H1). cbn [fst snd].
  rewrite (calculate_cpu_usage_sample k
             (after_syscall EReadStat (remember_sample (agent w) s1) w) s2 H2).
  cbn [fst snd after_syscall remember_sample agent prev_total_time prev_idle_time].
  rewrite T1, T2, I1, I2, !long_sub_exact by assumption.
  destruct (Z.gtb_spec (counters_total s1) 0); cbn [andb];
    [|split; discriminate].
  destruct (Z.gtb_spec (counters_total s2 - counters_total s1) 0);
    [|split; discriminate].
  apply percent_used_in_range; unfold in_long, LONG_MIN, LONG_MAX; lia.
Qed.

Lemma cpu_usage_in_range_monotone_witness :
  in_range 0 100
    (calculate_cpu_usage (cpu_kernel [ticks 100 100; ticks 150 200])
       (calculate_cpu_usage (cpu_kernel [ticks 100 100; ticks 150 200])
          fresh_world).2).1.
Proof.
  exact (cpu_usage_in_range_monotone
           (cpu_kernel [ticks 100 100; ticks 150 200]) fresh_world
           (ticks 100 100) (ticks 150 200) eq_refl eq_refl eq_refl eq_refl eq_refl).
Defined.

(** * Text *)

Lemma ascii_eqb_eq (a b : ascii) : ascii_eqb a b = true <-> a = b.
Proof.
  unfold ascii_eqb. rewrite Nat.eqb_eq. split; [|now intros ->].
  intros H. rewrite <- (ascii_nat_embedding a), <- (ascii_nat_embedding b).
  now rewrite H.
Qed.

Lemma ascii_eqb_refl (a : ascii) : ascii_eqb a a = true.
Proof. now apply ascii_eqb_eq. Qed.

Lemma append_cons (c : ascii) (s t : string) : String c s +:+ t = String c (s +:+ t).
Proof. reflexivity. Qed.

Lemma append_nil_l (t : string) : EmptyString +:+ t = t.
Proof. reflexivity. Qed.

Ltac string_step :=
  rewrite ?append_cons, ?append_nil_l;
  cbn [String.length string_drop count_while string_forallb String.substring
       String.get String.prefix String.index starts_with plus andb].

Lemma append_nil_r (s : string) : s +:+ EmptyString = s.
Proof. induction s as [|c s IH]; string_step; [reflexivity|now rewrite IH]. Qed.

Lemma append_assoc (a b c : string) : (a +:+ b) +:+ c = a +:+ (b +:+ c).
Proof. induction a as [|x a IH]; string_step; [reflexivity|now rewrite IH]. Qed.

Lemma length_append (a b : string) :
  String.length (a +:+ b) = (String.length a + String.length b)%nat.
Proof. induction a as [|x a IH]; string_step; [reflexivity|now rewrite IH]. Qed.

Lemma string_drop_app (a b : string) (n : nat) :
  string_drop (String.length a + n) (a +:+ b) = string_drop n b.
Proof. induction a as [|x a IH]; string_step; [reflexivity|exact IH]. Qed.

Lemma string_drop_app_0 (a b : string) :
  string_drop (String.length a) (a +:+ b) = b.
Proof.
  rewrite <- (Nat.add_0_r (String.length a)), string_drop_app.
  now destruct b.
Qed.

Lemma count_while_app (f : ascii -> bool) (a b : string) :
  string_forallb f a = true ->
  count_while f (a +:+ b) = (String.length a + count_while f b)%nat.
Proof.
  induction a as [|x a IH]; string_step; [reflexivity|].
  intros H. apply andb_prop in H as [-> H]. now rewrite IH.
Qed.

Lemma count_while_stop (f : ascii -> bool) (s : string) :
  starts_with f s = false -> count_while f s = O.
Proof. destruct s as [|c s]; string_step; [reflexivity|]. now intros ->. Qed.

Lemma count_while_all (f : ascii -> bool) (a b : string) :
  string_forallb f a = true -> starts_with f b = false ->
  count_while f (a +:+ b) = String.length a.
Proof.
  intros Ha Hb. rewrite (count_while_app f a b Ha), (count_while_stop f b Hb). lia.
Qed.

Lemma substring_0_app (a b : string) :
  String.substring 0 (String.length a) (a +:+ b) = a.
Proof.
  induction a as [|x a IH]; string_step; [now destruct b|now rewrite IH].
Qed.

Lemma substring_app_skip (a b : string) (n m : nat) :
  String.substring (String.length a + n) m (a +:+ b) = String.substring n m b.
Proof. induction a as [|x a IH]; string_step; [reflexivity|exact IH]. Qed.

Lemma get_app_skip (a b : string) (n : nat) :
  String.get (String.length a + n) (a +:+ b) = String.get n b.
Proof. induction a as [|x a IH]; string_step; [reflexivity|exact IH]. Qed.

Lemma index_app_skip (a b pat : string) (n : nat) :
  String.index (String.length a + n) pat (a +:+ b) =
    (fun i => (String.length a + i)%nat) <$> String.index n pat b.
Proof.
  induction a as [|x a IH]; string_step.
  - now destruct (String.index n pat b).
  - rewrite IH. now destruct (String.index n pat b).
Qed.

Lemma prefix_app (pat tail : string) : String.prefix pat (pat +:+ tail) = true.
Proof.
  induction pat as [|c pat IH]; string_step; [now destruct tail|].
  destruct (ascii_dec c c); [exact IH|contradiction].
Qed.

(** The first occurrence of a pattern that begins with [c0], after text
    without any [c0]. *)
Lemma index_first (c0 : ascii) (pat pre tail : string) :
  string_forallb (is_not c0) pre = true ->
  String.index 0 (String c0 pat) (pre +:+ String c0 pat +:+ tail) =
    Some (String.length pre).
Proof.
  induction pre as [|x pre IH]; intros Hpre.
  - rewrite append_nil_l.
    pose proof (prefix_app (String c0 pat) tail) as Hp.
    rewrite append_cons in *. cbn [String.index String.length]. now rewrite Hp.
  - cbn [string_forallb] in Hpre. apply andb_prop in Hpre as [Hx Hpre].
    rewrite (append_cons x). cbn [String.length String.index String.prefix].
    destruct (ascii_dec c0 x) as [->|_].
    { unfold is_not in Hx. now rewrite ascii_eqb_refl in Hx. }
    now rewrite (IH Hpre).
Qed.


(** ** Decimal numbers *)

Lemma digit_prefix_stop (rest : string) :
  starts_with isdigit rest = false -> digit_prefix rest = [].
Proof. destruct rest as [|c rest]; cbn; [reflexivity|]. now intros ->. Qed.

Lemma strtol10_digits (s : string) :
  starts_with isdigit s = true -> strtol10 s = Some (decimal (digit_prefix s)).
Proof.
  destruct s as [|c s]; [discriminate|]. cbn [starts_with]. intros Hc.
  unfold strtol10.
  assert (isspace c = false) as Hspace.
  { destruct c as [[] [] [] [] [] [] [] []]; try reflexivity; discriminate. }
  cbn [count_while]. rewrite Hspace. cbn [string_drop].
  assert (match String c s with
          | String "-"%char s' => (true, s')
          | String "+"%char s' => (false, s')
          | _ => (false, String c s)
          end = (false, String c s)) as ->.
  { destruct c as [[] [] [] [] [] [] [] []]; try reflexivity; discriminate. }
  cbn [digit_prefix]. rewrite Hc. reflexivity.
Qed.

Lemma strtol10_minus (s : string) :
  starts_with isdigit s = true ->
  strtol10 (String "-" s) = Some (- decimal (digit_prefix s)).
Proof.
  destruct s as [|c s]; [discriminate|]. cbn [starts_with]. intros Hc.
  unfold strtol10.
  change (count_while isspace (String "-" (String c s))) with O.
  cbn [string_drop digit_prefix]. rewrite Hc. reflexivity.
Qed.

Lemma strtol10_skip_space (ws s : string) :
  string_forallb isspace ws = true -> strtol10 (ws +:+ s) = strtol10 s.
Proof.
  intros Hws. unfold strtol10.
  rewrite (count_while_app isspace ws s Hws), string_drop_app. reflexivity.
Qed.

(** Evaluates the character tests on the literal characters of the goal. *)
Ltac eval_chars :=
  repeat match goal with
  | |- context [isdigit (Ascii ?a ?b ?c ?d ?e ?f ?g ?h)] =>
      let v := eval vm_compute in (isdigit (Ascii a b c d e f g h)) in
      change (isdigit (Ascii a b c d e f g h)) with v
  | |- context [digit_value (Ascii ?a ?b ?c ?d ?e ?f ?g ?h)] =>
      let v := eval vm_compute in (digit_value (Ascii a b c d e f g h)) in
      change (digit_value (Ascii a b c d e f g h)) with v
  end.

Ltac digit_case IH :=
  rewrite append_cons; cbn [digit_prefix]; eval_chars; cbn [fold_left];
  rewrite <- IH; f_equal; lia.

Lemma digits_value_acc (d : Decimal.uint) (rest : string) (acc : positive) :
  starts_with isdigit rest = false ->
  fold_left (fun a x => 10 * a + x)
    (digit_prefix (DecimalString.NilEmpty.string_of_uint d +:+ rest)) (Z.pos acc) =
  Z.pos (Pos.of_uint_acc d acc).
Proof.
  intros Hrest. revert acc.
  induction d as [|d IH|d IH|d IH|d IH|d IH|d IH|d IH|d IH|d IH|d IH]; intros acc;
    cbn [DecimalString.NilEmpty.string_of_uint Pos.of_uint_acc].
  - rewrite append_nil_l, (digit_prefix_stop rest Hrest). reflexivity.
  - digit_case IH.
  - digit_case IH.
  - digit_case IH.
  - digit_case IH.
  - digit_case IH.
  - digit_case IH.
  - digit_case IH.
  - digit_case IH.
  - digit_case IH.
  - digit_case IH.
Qed.

Ltac leading_digit rest Hrest :=
  rewrite append_cons; cbn [digit_prefix]; eval_chars; cbn [fold_left];
  rewrite <- (digits_value_acc _ rest _ Hrest); f_equal.

Lemma digits_value (d : Decimal.uint) (rest : string) :
  starts_with isdigit rest = false ->
  decimal (digit_prefix (DecimalString.NilEmpty.string_of_uint d +:+ rest)) =
    Z.of_N (Pos.of_uint d).
Proof.
  intros Hrest. unfold decimal.
  induction d as [|d IH|d IH|d IH|d IH|d IH|d IH|d IH|d IH|d IH|d IH];
    cbn [DecimalString.NilEmpty.string_of_uint Pos.of_uint Z.of_N].
  - rewrite append_nil_l, (digit_prefix_stop rest Hrest). reflexivity.
  - rewrite append_cons. cbn [digit_prefix]. eval_chars. cbn [fold_left]. exact IH.
  - leading_digit rest Hrest.
  - leading_digit rest Hrest.
  - leading_digit rest Hrest.
  - leading_digit rest Hrest.
  - leading_digit rest Hrest.
  - leading_digit rest Hrest.
  - leading_digit rest Hrest.
  - leading_digit rest Hrest.
  - leading_digit rest Hrest.
Qed.

Lemma uint_starts_with_digit (d : Decimal.uint) (rest : string) :
  d <> Decimal.Nil ->
  starts_with isdigit (DecimalString.NilEmpty.string_of_uint d +:+ rest) = true.
Proof. destruct d; try reflexivity. congruence. Qed.

Lemma to_string_pos (p : positive) :
  to_string (Z.pos p) = DecimalString.NilEmpty.string_of_uint (Pos.to_uint p) /\
  to_string (Z.neg p) = String "-" (DecimalString.NilEmpty.string_of_uint (Pos.to_uint p)).
Proof.
  unfold to_string. cbn [Z.to_int DecimalString.NilZero.string_of_int].
  pose proof (DecimalPos.Unsigned.to_uint_nonnil p) as Hnil.
  unfold DecimalString.NilZero.string_of_uint.
  destruct (Pos.to_uint p); try (split; reflexivity). congruence.
Qed.

(** Reading back a printed integer, whatever follows it that is not a
    digit. *)
Lemma strtol10_to_string (z : Z) (rest : string) :
  starts_with isdigit rest = false ->
  strtol10 (to_string z +:+ rest) = Some z.
Proof.
  intros Hrest. destruct z as [|p|p].
  - change (to_string 0) with "0"%string. rewrite append_cons, append_nil_l.
    rewrite strtol10_digits by reflexivity.
    cbn [digit_prefix]. eval_chars. rewrite (digit_prefix_stop rest Hrest). reflexivity.
  - rewrite (proj1 (to_string_pos p)).
    pose proof (DecimalPos.Unsigned.to_uint_nonnil p) as Hnil.
    rewrite strtol10_digits by now apply uint_starts_with_digit.
    rewrite (digits_value _ rest Hrest), DecimalPos.Unsigned.of_to. reflexivity.
  - rewrite (proj2 (to_string_pos p)).
    pose proof (DecimalPos.Unsigned.to_uint_nonnil p) as Hnil.
    rewrite append_cons.
    rewrite strtol10_minus by now apply uint_starts_with_digit.
    rewrite (digits_value _ rest Hrest), DecimalPos.Unsigned.of_to. reflexivity.
Qed.

(** X14.  [std::stoi] reads back what [std::to_string] printed: after any
    white space, and whatever follows the number that is not a digit, the
    value is the number printed when it fits an [int], and the call throws
    [std::out_of_range] when it does not. *)
Theorem stoi_to_string (ws rest : string) (z : Z) :
  string_forallb isspace ws = true ->
  starts_with isdigit rest = false ->
  stoi (ws +:+ to_string z +:+ rest) =
    if (INT_MIN <=? z) && (z <=? INT_MAX) then StoiValue z else StoiOutOfRange.
Proof.
  intros Hws Hrest. unfold stoi.
  rewrite (strtol10_skip_space ws _ Hws), (strtol10_to_string z rest Hrest).
  reflexivity.
Qed.

Lemma stoi_to_string_witness :
  stoi (" " +:+ to_string (-42) +:+ "abc") = StoiValue (-42).
Proof.
  exact (stoi_to_string " " "abc" (-42) eq_refl eq_refl).
Defined.

Lemma uint_string_digits (d : Decimal.uint) :
  string_forallb isdigit (DecimalString.NilEmpty.string_of_uint d) = true.
Proof.
  induction d; cbn [DecimalString.NilEmpty.string_of_uint string_forallb];
    eval_chars; try reflexivity; exact IHd.
Qed.

Lemma string_forallb_impl (f g : ascii -> bool) (s : string) :
  (forall c, f c = true -> g c = true) ->
  string_forallb f s = true -> string_forallb g s = true.
Proof.
  intros Himpl. induction s as [|c s IH]; [reflexivity|].
  cbn [string_forallb]. intros H. apply andb_prop in H as [Hc Hs].
  now rewrite (Himpl c Hc), (IH Hs).
Qed.

Lemma isdigit_numeric (c : ascii) : isdigit c = true -> is_numeric_char c = true.
Proof. unfold is_numeric_char. now intros ->. Qed.

Lemma numeric_not_dquote (c : ascii) :
  is_numeric_char c = true -> is_not dquote c = true.
Proof. destruct c as [[] [] [] [] [] [] [] []]; try reflexivity; discriminate. Qed.

Lemma numeric_not_blank (c : ascii) :
  is_numeric_char c = true -> is_blank c = false.
Proof. destruct c as [[] [] [] [] [] [] [] []]; try reflexivity; discriminate. Qed.

Lemma dquote_not_numeric_digit :
  is_numeric_char dquote = false /\ isdigit dquote = false /\ is_blank dquote = false.
Proof. repeat split. Qed.

(** A printed integer is a sign, if any, and digits. *)
Lemma to_string_numeric (z : Z) :
  string_forallb is_numeric_char (to_string z) = true /\
  starts_with is_numeric_char (to_string z) = true.
Proof.
  destruct z as [|p|p].
  - split; reflexivity.
  - rewrite (proj1 (to_string_pos p)).
    pose proof (DecimalPos.Unsigned.to_uint_nonnil p) as Hnil. split.
    + exact (string_forallb_impl _ _ _ isdigit_numeric (uint_string_digits _)).
    + destruct (Pos.to_uint p); try reflexivity. congruence.
  - rewrite (proj2 (to_string_pos p)). split; [|reflexivity].
    cbn [string_forallb]. change (is_numeric_char "-") with true.
    exact (string_forallb_impl _ _ _ isdigit_numeric (uint_string_digits _)).
Qed.

(** ** Reading a field of a request body *)

Lemma field_pattern_cons (field : string) :
  field_pattern field = String dquote (field +:+ dq +:+ ":").
Proof. reflexivity. Qed.

(** Where the value begins, once the key has been found at the end of
    [pre]. *)
Lemma parse_json_field_found (pre blanks tail field : string) :
  String.index 0 (field_pattern field) (((pre +:+ field_pattern field) +:+ blanks) +:+ tail)
    = Some (String.length pre) ->
  string_forallb is_blank blanks = true ->
  starts_with is_blank tail = false ->
  let head := (pre +:+ field_pattern field) +:+ blanks in
  parse_json_field (head +:+ tail) field =
    match String.get 0 tail with
    | None => EmptyString
    | Some c =>
        if ascii_eqb c dquote then
          match String.index (S (String.length head)) dq (head +:+ tail) with
          | None => EmptyString
          | Some end_pos =>
              String.substring (S (String.length head))
                (end_pos - S (String.length head)) (head +:+ tail)
          end
        else
          String.substring (String.length head) (count_while is_numeric_char tail)
            (head +:+ tail)
    end.
Proof.
  intros Hindex Hblanks Htail head.
  unfold parse_json_field.
  change (String.append dq (String.append field (String.append dq ":")))
    with (field_pattern field).
  fold head in Hindex. rewrite Hindex.
  assert (string_drop (String.length pre + String.length (field_pattern field)) (head +:+ tail)
          = blanks +:+ tail) as ->.
  { unfold head. rewrite <- length_append, (append_assoc _ blanks tail).
    apply string_drop_app_0. }
  rewrite (count_while_all is_blank blanks tail Hblanks Htail).
  assert (String.length pre + String.length (field_pattern field) + String.length blanks
          = String.length head)%nat as ->.
  { unfold head. now rewrite !length_append. }
  rewrite <- (Nat.add_0_r (String.length head)) at 1.
  rewrite get_app_skip.
  destruct (String.get 0 tail) as [c|]; [|reflexivity].
  destruct (ascii_eqb c dquote); [reflexivity|].
  rewrite string_drop_app_0.
  f_equal. lia.
Qed.

(** Where the value of the first key begins. *)
Lemma parse_json_field_value (pre blanks tail field : string) :
  string_forallb (is_not dquote) pre = true ->
  string_forallb is_blank blanks = true ->
  starts_with is_blank tail = false ->
  let head := (pre +:+ field_pattern field) +:+ blanks in
  parse_json_field (head +:+ tail) field =
    match String.get 0 tail with
    | None => EmptyString
    | Some c =>
        if ascii_eqb c dquote then
          match String.index (S (String.length head)) dq (head +:+ tail) with
          | None => EmptyString
          | Some end_pos =>
              String.substring (S (String.length head))
                (end_pos - S (String.length head)) (head +:+ tail)
          end
        else
          String.substring (String.length head) (count_while is_numeric_char tail)
            (head +:+ tail)
    end.
Proof.
  intros Hpre Hblanks Htail.
  apply parse_json_field_found; [|assumption..].
  rewrite !append_assoc, field_pattern_cons.
  now apply index_first.
Qed.

(** A value in double quotes, once the key has been found. *)
Lemma parse_json_field_found_quoted (pre blanks value rest field : string) :
  String.index 0 (field_pattern field)
    (((pre +:+ field_pattern field) +:+ blanks) +:+ dq +:+ value +:+ dq +:+ rest)
    = Some (String.length pre) ->
  string_forallb is_blank blanks = true ->
  string_forallb (is_not dquote) value = true ->
  parse_json_field
    (((pre +:+ field_pattern field) +:+ blanks) +:+ dq +:+ value +:+ dq +:+ rest) field
  = value.
Proof.
  intros Hindex Hblanks Hvalue.
  rewrite (parse_json_field_found pre blanks (dq +:+ value +:+ dq +:+ rest) field
             Hindex Hblanks eq_refl).
  cbv zeta. change (String.get 0 (dq +:+ value +:+ dq +:+ rest)) with (Some dquote).
  cbv beta iota. rewrite ascii_eqb_refl.
  set (head := (pre +:+ field_pattern field) +:+ blanks).
  assert (head +:+ dq +:+ value +:+ dq +:+ rest
          = (head +:+ dq) +:+ value +:+ dq +:+ rest) as -> by now rewrite append_assoc.
  assert (S (String.length head) = String.length (head +:+ dq) + 0)%nat as ->.
  { rewrite length_append. cbn. lia. }
  rewrite index_app_skip. unfold dq at 2 3.
  rewrite (index_first dquote EmptyString value rest Hvalue).
  cbn [fmap option_fmap option_map].
  rewrite substring_app_skip.
  replace (String.length (head +:+ dq) + String.length value
           - (String.length (head +:+ dq) + 0))%nat
    with (String.length value) by lia.
  apply substring_0_app.
Qed.

(** A value in double quotes. *)
Lemma parse_json_field_quoted (pre blanks value rest field : string) :
  string_forallb (is_not dquote) pre = true ->
  string_forallb is_blank blanks = true ->
  string_forallb (is_not dquote) value = true ->
  parse_json_field
    (pre +:+ field_pattern field +:+ blanks +:+ dq +:+ value +:+ dq +:+ rest) field
  = value.
Proof.
  intros Hpre Hblanks Hvalue.
  assert (pre +:+ field_pattern field +:+ blanks +:+ dq +:+ value +:+ dq +:+ rest
          = ((pre +:+ field_pattern field) +:+ blanks) +:+ dq +:+ value +:+ dq +:+ rest)
    as -> by now rewrite !append_assoc.
  apply parse_json_field_found_quoted; [|assumption..].
  rewrite !append_assoc, field_pattern_cons.
  now apply index_first.
Qed.

(** X15.  For a body whose first double quote opens the key of the field,
    followed by a colon, any blanks or tabs, and a value in double quotes,
    [parse_json_field] returns the text between these quotes, unchanged,
    when that text holds no double quote itself. *)
Theorem parse_json_field_string (pre blanks value rest field : string) :
  string_forallb (is_not dquote) pre = true ->
  string_forallb is_blank blanks = true ->
  string_forallb (is_not dquote) value = true ->
  parse_json_field
    (pre +:+ field_pattern field +:+ blanks +:+ dq +:+ value +:+ dq +:+ rest) field
  = value.
Proof.
  intros H0 H1 H2.
  exact (parse_json_field_quoted pre blanks value rest field H0 H1 H2).
Qed.

Lemma parse_json_field_string_witness :
  parse_json_field
    ("{ " +:+ field_pattern "script_path" +:+ " " +:+ dq +:+ "./sleep.sh" +:+ dq +:+ "}")
    "script_path" = "./sleep.sh"%string.
Proof.
  exact (parse_json_field_string "{ " " " "./sleep.sh" "}" "script_path"
           eq_refl eq_refl eq_refl).
Defined.

(** A value made of digits, dots and minus signs. *)
Lemma parse_json_field_numeric (pre blanks number rest field : string) :
  string_forallb (is_not dquote) pre = true ->
  string_forallb is_blank blanks = true ->
  string_forallb is_numeric_char number = true ->
  starts_with is_numeric_char number = true ->
  starts_with is_numeric_char rest = false ->
  parse_json_field (pre +:+ field_pattern field +:+ blanks +:+ number +:+ rest) field
  = number.
Proof.
  intros Hpre Hblanks Hnumber Hfirst Hrest.
  assert (pre +:+ field_pattern field +:+ blanks +:+ number +:+ rest
          = ((pre +:+ field_pattern field) +:+ blanks) +:+ number +:+ rest)
    as -> by now rewrite !append_assoc.
  destruct number as [|c number]; [discriminate|].
  cbn [starts_with] in Hfirst.
  rewrite (parse_json_field_value pre blanks (String c number +:+ rest) field
             Hpre Hblanks (numeric_not_blank c Hfirst)).
  cbv zeta. rewrite append_cons. cbn [String.get].
  pose proof (numeric_not_dquote c Hfirst) as Hq. unfold is_not in Hq.
  apply negb_true_iff in Hq. rewrite Hq.
  rewrite <- append_cons.
  rewrite (count_while_all is_numeric_char (String c number) rest Hnumber Hrest).
  rewrite <- (Nat.add_0_r (String.length ((pre +:+ field_pattern field) +:+ blanks))).
  rewrite substring_app_skip. apply substring_0_app.
Qed.

(** X16.  For a body whose first double quote opens the key of the field,
    followed by a colon, any blanks or tabs, and a run of digits, dots and
    minus signs, [parse_json_field] returns exactly that run, up to the first
    character of another kind. *)
Theorem parse_json_field_number (pre blanks number rest field : string) :
  string_forallb (is_not dquote) pre = true ->
  string_forallb is_blank blanks = true ->
  string_forallb is_numeric_char number = true ->
  starts_with is_numeric_char number = true ->
  starts_with is_numeric_char rest = false ->
  parse_json_field (pre +:+ field_pattern field +:+ blanks +:+ number +:+ rest) field
  = number.
Proof.
  intros H0 H1 H2 H3 H4.
  exact (parse_json_field_numeric pre blanks number rest field H0 H1 H2 H3 H4).
Qed.

Lemma parse_json_field_number_witness :
  parse_json_field ("{" +:+ field_pattern "pid" +:+ " " +:+ "-12.5" +:+ ",}") "pid"
  = "-12.5"%string.
Proof.
  exact (parse_json_field_number "{" " " "-12.5" ",}" "pid"
           eq_refl eq_refl eq_refl eq_refl eq_refl).
Defined.

(** ** Requests that a client builds *)

Lemma stoi_printed (z : Z) :
  INT_MIN <= z <= INT_MAX -> stoi (to_string z) = StoiValue z.
Proof.
  intros Hrange. unfold stoi.
  rewrite <- (append_nil_r (to_string z)), (strtol10_to_string z EmptyString eq_refl).
  destruct (Z.leb_spec INT_MIN z); [|lia].
  destruct (Z.leb_spec z INT_MAX); [reflexivity|lia].
Qed.

Lemma body_with_number (field blanks : string) (z : Z) :
  string_forallb is_blank blanks = true ->
  parse_json_field (body_with field blanks (to_string z)) field = to_string z.
Proof.
  intros Hblanks. unfold body_with.
  destruct (to_string_numeric z) as [Hall Hfirst].
  exact (parse_json_field_numeric "{" blanks (to_string z) "}" field
           eq_refl Hblanks Hall Hfirst eq_refl).
Qed.

(** X17.  A POST /stop whose body is an object with the field pid, printed
    as a decimal number, stops that pid: when the pid is in the table and
    SIGTERM is delivered, the answer is 200 "stopped" and the table is the
    old one without that pid. *)
Theorem stop_request_printed_pid (k : Kernel) (w : World) (blanks : string)
    (p : Z) (info : ProcessInfo) :
  string_forallb is_blank blanks = true ->
  INT_MIN <= p <= INT_MAX ->
  table_of w !! p = Some info ->
  kill_result k (trace w) p SIGTERM = 0 ->
  exists w',
    route "POST" "/stop" (body_with "pid" blanks (to_string p)) k w =
      Returns {| status_code := 200; status_text := "OK"; data := JsonStopped |} w' /\
    table_of w' = delete p (table_of w).
Proof.
  intros Hblanks Hrange Hin Hk. rewrite route_post_stop.
  unfold returns, handle_stop_request.
  rewrite (body_with_number "pid" blanks p Hblanks).
  rewrite (stoi_value_nonempty _ _ (stoi_printed p Hrange)), (stoi_printed p Hrange).
  unfold bind.
  destruct (stop_process_done k w p info Hin Hk) as (w' & -> & Htable & _).
  exists w'. split; [reflexivity|exact Htable].
Qed.

Lemma stop_request_printed_pid_witness :
  exists w',
    route "POST" "/stop" (body_with "pid" " " (to_string 42))
      (forking_kernel 0 all_alive) one_child =
      Returns {| status_code := 200; status_text := "OK"; data := JsonStopped |} w' /\
    table_of w' = delete 42 (table_of one_child).
Proof.
  apply (stop_request_printed_pid (forking_kernel 0 all_alive) one_child " " 42 sleeper).
  - reflexivity.
  - split; discriminate.
  - reflexivity.
  - reflexivity.
Defined.

(** X18.  A POST /start whose body is an object with the field script_path
    in double quotes hands that path, character for character, to the new
    process record: when the path is not empty and holds no double quote and
    [fork] succeeds, the answer is 200 with the child's pid and the record
    stored under that pid has the path as its command. *)
Theorem start_request_quoted_path (k : Kernel) (w : World) (blanks path : string) :
  string_forallb is_blank blanks = true ->
  string_forallb (is_not dquote) path = true ->
  path <> EmptyString ->
  0 < fork_result k (trace w) ->
  exists w',
    route "POST" "/start" (body_with "script_path" blanks (dq +:+ path +:+ dq)) k w =
      Returns {| status_code := 200; status_text := "OK";
                 data := JsonStarted (fork_result k (trace w)) |} w' /\
    command <$> table_of w' !! fork_result k (trace w) = Some path.
Proof.
  intros Hblanks Hpath Hnonempty Hfork. rewrite route_post_start.
  unfold handle_start_request, body_with.
  rewrite !append_assoc.
  rewrite (parse_json_field_quoted "{" blanks path "}" "script_path" eq_refl Hblanks Hpath).
  rewrite (String_eqb_empty_false _ Hnonempty).
  rewrite (start_process_parent k w path Hfork).
  destruct (Z.gtb_spec (fork_result k (trace w)) 0) as [_|Hle]; [|lia].
  eexists. split; [reflexivity|].
  cbn [agent with_table running_processes]. now rewrite lookup_insert_eq.
Qed.

Lemma start_request_quoted_path_witness :
  exists w',
    route "POST" "/start" (body_with "script_path" " " (dq +:+ "./sleep.sh" +:+ dq))
      (forking_kernel 42 all_alive) fresh_world =
      Returns {| status_code := 200; status_text := "OK"; data := JsonStarted 42 |} w' /\
    command <$> table_of w' !! 42 = Some "./sleep.sh"%string.
Proof.
  apply (start_request_quoted_path (forking_kernel 42 all_alive) fresh_world
           " " "./sleep.sh").
  - reflexivity.
  - reflexivity.
  - discriminate.
  - reflexivity.
Defined.

(** ** Reading /proc/meminfo *)

Lemma sscanf_ld_meminfo_line (label padding : string) (n : Z) :
  string_forallb isspace padding = true ->
  LONG_MIN <= n <= LONG_MAX ->
  sscanf_ld label (meminfo_line label padding n) = Some n.
Proof.
  intros Hpad Hrange. unfold sscanf_ld, meminfo_line.
  rewrite prefix_app, string_drop_app_0.
  rewrite (strtol10_skip_space padding _ Hpad).
  rewrite (strtol10_to_string n " kB" eq_refl).
  cbn [fmap option_fmap option_map]. f_equal. unfold clamp. lia.
Qed.

Lemma scan_meminfo_skip {A} (store : Z -> A) (skipped lines : list string) (t a : A) :
  no_memory_line skipped = true ->
  scan_meminfo store (skipped ++ lines) t a = scan_meminfo store lines t a.
Proof.
  induction skipped as [|line skipped IH]; [reflexivity|].
  cbn [no_memory_line forallb app scan_meminfo]. intros H.
  apply andb_prop in H as [Hline Hrest].
  unfold is_memory_line in Hline. apply negb_true_iff, orb_false_elim in Hline as [-> ->].
  exact (IH Hrest).
Qed.

(** X19.  From a meminfo in the kernel's format, with one MemTotal line and,
    further down, one MemAvailable line, [calculate_memory_usage] takes the
    two figures as printed: lines with other labels are ignored, padding and
    the unit after the figure do not matter, and the percentage is computed
    from exactly these two figures. *)
Theorem memory_usage_kernel_format (before between after : list string)
    (pad_total pad_available : string) (total available : Z) :
  no_memory_line before = true ->
  no_memory_line between = true ->
  no_memory_line after = true ->
  string_forallb isspace pad_total = true ->
  string_forallb isspace pad_available = true ->
  0 < total <= LONG_MAX ->
  LONG_MIN <= available <= LONG_MAX ->
  let lines :=
    before ++ meminfo_line "MemTotal:" pad_total total
           :: between ++ meminfo_line "MemAvailable:" pad_available available
           :: after in
  scan_meminfo id lines 0 0 = (total, available) /\
  memory_usage_of (Some lines) = percent_used available total.
Proof.
  intros Hbefore Hbetween Hafter Hpt Hpa Htotal Havail lines.
  assert (LONG_MIN <= total <= LONG_MAX) as Htotal'
    by (unfold LONG_MIN, LONG_MAX in *; lia).
  assert (scan_meminfo id lines 0 0 = (total, available)) as Hscan.
  { unfold lines.
    rewrite (scan_meminfo_skip id before _ 0 0 Hbefore).
    cbn [scan_meminfo]. unfold meminfo_line at 1. rewrite prefix_app.
    fold (meminfo_line "MemTotal:" pad_total total).
    rewrite (sscanf_ld_meminfo_line "MemTotal:" pad_total total Hpt Htotal').
    cbn [from_option].
    rewrite (scan_meminfo_skip id between _ _ _ Hbetween).
    cbn [scan_meminfo].
    assert (String.prefix "MemTotal:"
              (meminfo_line "MemAvailable:" pad_available available) = false) as ->
      by reflexivity.
    unfold meminfo_line at 1. rewrite prefix_app.
    fold (meminfo_line "MemAvailable:" pad_available available).
    rewrite (sscanf_ld_meminfo_line "MemAvailable:" pad_available available Hpa Havail).
    cbn [from_option].
    rewrite <- (app_nil_r after), (scan_meminfo_skip id after [] _ _ Hafter).
    reflexivity. }
  split; [exact Hscan|].
  unfold memory_usage_of, percent_used. rewrite Hscan.
  destruct (Z.gtb_spec total 0); [reflexivity|lia].
Qed.

Lemma memory_usage_kernel_format_witness :
  scan_meminfo id
    (["Cached: 5 kB"] ++ meminfo_line "MemTotal:" "       " 16384256
       :: ["MemFree:         1203804 kB"] ++ meminfo_line "MemAvailable:" "    " 4096064
       :: ["Buffers:          512000 kB"]) 0 0 = (16384256, 4096064) /\
  memory_usage_of
    (Some (["Cached: 5 kB"] ++ meminfo_line "MemTotal:" "       " 16384256
       :: ["MemFree:         1203804 kB"] ++ meminfo_line "MemAvailable:" "    " 4096064
       :: ["Buffers:          512000 kB"])) = percent_used 4096064 16384256.
Proof.
  apply (memory_usage_kernel_format ["Cached: 5 kB"] ["MemFree:         1203804 kB"]
           ["Buffers:          512000 kB"] "       " "    " 16384256 4096064);
    try reflexivity.
  - split; [reflexivity|discriminate].
  - split; discriminate.
Defined.

(** * The line protocol *)

Lemma push_back_append (token : string) (c : ascii) (word : string) :
  push_back token c +:+ word = token +:+ String c word.
Proof. unfold push_back. now rewrite append_assoc. Qed.

Lemma split_from_word (word rest token : string) (d : ascii) :
  string_forallb (is_not d) word = true ->
  split_string_from (word +:+ rest) d token = split_string_from rest d (token +:+ word).
Proof.
  revert token. induction word as [|c word IH]; intros token Hword.
  - now rewrite append_nil_l, append_nil_r.
  - cbn [string_forallb] in Hword. apply andb_prop in Hword as [Hc Hword].
    unfold is_not in Hc. apply negb_true_iff in Hc.
    rewrite append_cons. cbn [split_string_from]. rewrite Hc.
    now rewrite (IH _ Hword), push_back_append.
Qed.

Lemma split_from_gap (gap rest : string) (d : ascii) :
  all_delimiters d gap = true ->
  split_string_from (gap +:+ rest) d EmptyString = split_string_from rest d EmptyString.
Proof.
  induction gap as [|c gap IH]; intros Hgap; [reflexivity|].
  cbn [all_delimiters string_forallb] in Hgap. apply andb_prop in Hgap as [Hc Hgap].
  rewrite append_cons. cbn [split_string_from]. rewrite Hc.
  cbn [string_is_empty app]. exact (IH Hgap).
Qed.

Lemma split_from_items (d : ascii) (items : list (string * string)) (rest : string) :
  forallb (fun item => is_token d item.1 && all_delimiters d item.2) items = true ->
  split_string_from (unsplit d items +:+ rest) d EmptyString =
    items.*1 ++ split_string_from rest d EmptyString.
Proof.
  induction items as [|[token gap] items IH]; intros Hitems; [reflexivity|].
  cbn [forallb fst snd] in Hitems.
  apply andb_prop in Hitems as [Hitem Hitems].
  apply andb_prop in Hitem as [Htoken Hgap].
  unfold is_token in Htoken. apply andb_prop in Htoken as [Hnonempty Hfree].
  cbn [unsplit fmap list_fmap fst app]. rewrite !append_assoc.
  rewrite (split_from_word token _ EmptyString d Hfree), append_nil_l.
  rewrite append_cons. cbn [split_string_from]. rewrite ascii_eqb_refl.
  destruct token as [|c token]; [discriminate|]. cbn [string_is_empty app].
  f_equal. rewrite (split_from_gap gap _ d Hgap). exact (IH Hitems).
Qed.

(** X20.  [split_string] gives back the tokens of a line in which they were
    written with one or more delimiters after each, whatever delimiters come
    first and whether or not the last token is followed by one. *)
Theorem split_string_unsplit (d : ascii) (lead last : string) (items : list (string * string)) :
  all_delimiters d lead = true ->
  forallb (fun item => is_token d item.1 && all_delimiters d item.2) items = true ->
  string_forallb (is_not d) last = true ->
  split_string (lead +:+ unsplit d items +:+ last) d =
    items.*1 ++ (if string_is_empty last then [] else [last]).
Proof.
  intros Hlead Hitems Hlast. unfold split_string.
  rewrite (split_from_gap lead _ d Hlead), (split_from_items d items last Hitems).
  f_equal.
  rewrite <- (append_nil_r last) at 1.
  rewrite (split_from_word last EmptyString EmptyString d Hlast).
  reflexivity.
Qed.

Lemma split_string_unsplit_witness :
  split_string ("  " +:+ unsplit space [("START"%string, "  "%string)] +:+ "./a.sh") space =
    ["START"; "./a.sh"]%string.
Proof.
  exact (split_string_unsplit space "  " "./a.sh" [("START"%string, "  "%string)]
           eq_refl eq_refl eq_refl).
Defined.

Lemma push_back_free (token : string) (c d : ascii) :
  string_forallb (is_not d) token = true -> ascii_eqb c d = false ->
  string_forallb (is_not d) (push_back token c) = true /\
  string_is_empty (push_back token c) = false.
Proof.
  intros Htoken Hc. unfold push_back. split; [|now destruct token].
  induction token as [|x token IH]; string_step.
  - unfold is_not. now rewrite Hc.
  - cbn [string_forallb] in Htoken. apply andb_prop in Htoken as [-> Htoken].
    exact (IH Htoken).
Qed.

Lemma split_from_tokens (str : string) (d : ascii) (token : string) :
  string_forallb (is_not d) token = true ->
  Forall (fun t => is_token d t = true) (split_string_from str d token).
Proof.
  revert token. induction str as [|c str IH]; intros token Htoken;
    cbn [split_string_from].
  - destruct (string_is_empty token) eqn:He; constructor; [|constructor].
    unfold is_token. now rewrite He, Htoken.
  - destruct (ascii_eqb c d) eqn:Hc.
    + apply Forall_app. split; [|now apply IH].
      destruct (string_is_empty token) eqn:He; constructor; [|constructor].
      unfold is_token. now rewrite He, Htoken.
    + apply IH. exact (proj1 (push_back_free token c d Htoken Hc)).
Qed.

(** X21.  No token that [split_string] returns is empty and none contains
    the delimiter. *)
Theorem split_string_tokens (str : string) (d : ascii) :
  Forall (fun token => token <> EmptyString /\ string_forallb (is_not d) token = true)
         (split_string str d).
Proof.
  eapply Forall_impl; [exact (split_from_tokens str d EmptyString eq_refl)|].
  intros token Htoken. unfold is_token in Htoken.
  apply andb_prop in Htoken as [Hne Hfree]. split; [|exact Hfree].
  intros ->. discriminate.
Qed.

(** X22.  A command that [handle_command] turns down is answered with a line
    that begins with ERROR and has no effect at all: no fork, no signal, no
    change of the agent. *)
Theorem handle_command_rejected (command : string) (k : Kernel) (w : World) :
  rejected (split_string command space) = true ->
  exists text,
    handle_command command k w = Returns (ReplyText text) w /\
    String.prefix "ERROR: " text = true.
Proof.
  unfold handle_command, rejected.
  destruct (split_string command space) as [|cmd rest]; intros Hrej.
  { eexists. split; reflexivity. }
  destruct (String.eqb cmd "START").
  { destruct rest; [|discriminate]. eexists. split; reflexivity. }
  destruct (String.eqb cmd "STOP").
  { unfold returns, handle_stop_command, ret.
    destruct rest as [|pid_arg rest]; [eexists; split; reflexivity|].
    destruct (stoi pid_arg); [discriminate| |]; eexists; split; reflexivity. }
  destruct (String.eqb cmd "STATUS"); [discriminate|].
  eexists. split; [reflexivity|]. apply (prefix_app "ERROR: " _).
Qed.

Lemma handle_command_rejected_witness :
  exists text,
    handle_command "STOP twelve" (forking_kernel 42 all_alive) one_child =
      Returns (ReplyText text) one_child /\
    String.prefix "ERROR: " text = true.
Proof.
  apply (handle_command_rejected "STOP twelve" (forking_kernel 42 all_alive) one_child).
  reflexivity.
Defined.

Lemma numeric_not_space (c : ascii) :
  is_numeric_char c = true -> is_not space c = true.
Proof. destruct c as [[] [] [] [] [] [] [] []]; try reflexivity; discriminate. Qed.

Lemma split_command (cmd arg : string) :
  is_token space cmd = true -> is_token space arg = true ->
  split_string (cmd +:+ " " +:+ arg) space = [cmd; arg].
Proof.
  intros Hcmd Harg. unfold is_token in Harg. apply andb_prop in Harg as [Hne Hfree].
  assert (cmd +:+ " " +:+ arg
          = EmptyString +:+ unsplit space [(cmd, EmptyString)] +:+ arg) as ->.
  { cbn [unsplit]. rewrite append_nil_l, !append_assoc, append_nil_l. reflexivity. }
  unfold split_string.
  rewrite (split_from_gap EmptyString _ space eq_refl).
  rewrite (split_from_items space [(cmd, EmptyString)] arg).
  2:{ cbn [forallb fst snd]. now rewrite Hcmd. }
  cbn [fmap list_fmap fst app]. f_equal.
  rewrite <- (append_nil_r arg) at 1.
  rewrite (split_from_word arg EmptyString EmptyString space Hfree).
  rewrite append_nil_l. cbn [split_string_from].
  now destruct arg.
Qed.

Lemma to_string_token (z : Z) : is_token space (to_string z) = true.
Proof.
  destruct (to_string_numeric z) as [Hall Hfirst]. unfold is_token.
  rewrite (string_forallb_impl _ _ _ numeric_not_space Hall).
  now destruct (to_string z).
Qed.

(** X23.  The two front ends agree on stopping: the command STOP with a
    printed pid and the request POST /stop with that pid in its body both
    call [stop_process] on the pid, leave the agent in the same state, and
    report success or failure alike. *)
Theorem stop_front_ends_agree (k : Kernel) (w : World) (p : Z) :
  INT_MIN <= p <= INT_MAX ->
  handle_command ("STOP" +:+ " " +:+ to_string p) k w =
    Returns (ReplyText
               (if (stop_process p k w).1
                then "SUCCESS: Process " +:+ to_string p +:+ " stopped"
                else "ERROR: Failed to stop process " +:+ to_string p))
            (stop_process p k w).2 /\
  route "POST" "/stop" (body_with "pid" EmptyString (to_string p)) k w =
    Returns (if (stop_process p k w).1
             then create_json_response JsonStopped 200
             else create_error_response "Failed to stop process" 500)
            (stop_process p k w).2.
Proof.
  intros Hrange. split.
  - unfold handle_command.
    rewrite (split_command "STOP" (to_string p) eq_refl (to_string_token p)).
    change (String.eqb "STOP" "START") with false.
    change (String.eqb "STOP" "STOP") with true. cbv beta iota.
    unfold returns, handle_stop_command. rewrite (stoi_printed p Hrange).
    unfold bind. destruct (stop_process p k w) as [[] w']; reflexivity.
  - rewrite route_post_stop. unfold returns, handle_stop_request.
    rewrite (body_with_number "pid" EmptyString p eq_refl).
    rewrite (stoi_value_nonempty _ _ (stoi_printed p Hrange)), (stoi_printed p Hrange).
    unfold bind. destruct (stop_process p k w) as [[] w']; reflexivity.
Qed.

Lemma stop_front_ends_agree_witness :
  handle_command ("STOP" +:+ " " +:+ to_string 42) (forking_kernel 0 all_alive) one_child =
    Returns (ReplyText "SUCCESS: Process 42 stopped")
            (stop_process 42 (forking_kernel 0 all_alive) one_child).2 /\
  route "POST" "/stop" (body_with "pid" EmptyString (to_string 42))
    (forking_kernel 0 all_alive) one_child =
    Returns (create_json_response JsonStopped 200)
            (stop_process 42 (forking_kernel 0 all_alive) one_child).2.
Proof.
  apply (stop_front_ends_agree (forking_kernel 0 all_alive) one_child 42).
  split; discriminate.
Defined.

(** X24.  The two front ends agree on starting: for a script path without
    space or double quote, the command START with the path and the request
    POST /start with the path in its body both call [start_process] on that
    very path, leave the agent in the same state and report the same pid or
    the same failure. *)
Theorem start_front_ends_agree (k : Kernel) (w : World) (path : string) :
  is_token space path = true ->
  string_forallb (is_not dquote) path = true ->
  match start_process path k w with
  | Returns p w' =>
      handle_command ("START" +:+ " " +:+ path) k w =
        Returns (ReplyText
                   (if p >? 0
                    then "SUCCESS: Process started with PID " +:+ to_string p
                    else "ERROR: Failed to start process")) w' /\
      route "POST" "/start" (body_with "script_path" EmptyString (dq +:+ path +:+ dq)) k w =
        Returns (if p >? 0
                 then create_json_response (JsonStarted p) 200
                 else create_error_response "Failed to start process" 500) w'
  | Execs script_path w' =>
      handle_command ("START" +:+ " " +:+ path) k w = Execs script_path w' /\
      route "POST" "/start" (body_with "script_path" EmptyString (dq +:+ path +:+ dq)) k w =
        Execs script_path w'
  end.
Proof.
  intros Htoken Hquote.
  assert (path <> EmptyString) as Hnonempty.
  { intros ->. discriminate. }
  assert (handle_command ("START" +:+ " " +:+ path) k w =
          handle_start_command ["START"%string; path] k w) as ->.
  { unfold handle_command.
    now rewrite (split_command "START" path eq_refl Htoken). }
  assert (route "POST" "/start"
            (body_with "script_path" EmptyString (dq +:+ path +:+ dq)) k w =
          match start_process path k w with
          | Execs script_path w' => Execs script_path w'
          | Returns p w' =>
              if p >? 0 then Returns (create_json_response (JsonStarted p) 200) w'
              else Returns (create_error_response "Failed to start process" 500) w'
          end) as ->.
  { rewrite route_post_start. unfold handle_start_request, body_with.
    rewrite !append_assoc.
    rewrite (parse_json_field_quoted "{" EmptyString path "}" "script_path"
               eq_refl eq_refl Hquote).
    now rewrite (String_eqb_empty_false _ Hnonempty). }
  unfold handle_start_command.
  destruct (start_process path k w) as [p w'|script_path w']; [|split; reflexivity].
  destruct (p >? 0); split; reflexivity.
Qed.

Lemma start_front_ends_agree_witness :
  handle_command ("START" +:+ " " +:+ "./sleep.sh") (forking_kernel 42 all_alive) fresh_world =
    Returns (ReplyText "SUCCESS: Process started with PID 42") one_child /\
  route "POST" "/start" (body_with "script_path" EmptyString (dq +:+ "./sleep.sh" +:+ dq))
    (forking_kernel 42 all_alive) fresh_world =
    Returns (create_json_response (JsonStarted 42) 200) one_child.
Proof.
  exact (start_front_ends_agree (forking_kernel 42 all_alive) fresh_world "./sleep.sh"
           eq_refl eq_refl).
Defined.

(** * Reading a request *)

Lemma extract_word_spec (ws word tail : string) :
  string_forallb isspace ws = true ->
  is_word word = true ->
  starts_with (fun c => negb (isspace c)) tail = false ->
  extract_word (Some (ws +:+ word +:+ tail)) = (word, Some tail).
Proof.
  intros Hws Hword Htail. unfold is_word in Hword.
  apply andb_prop in Hword as [Hnonempty Hfree].
  unfold extract_word.
  assert (starts_with isspace (word +:+ tail) = false) as Hstart.
  { destruct word as [|c word]; [discriminate|].
    cbn [string_forallb] in Hfree. apply andb_prop in Hfree as [Hc _].
    rewrite append_cons. cbn [starts_with]. now apply negb_true_iff in Hc. }
  rewrite (count_while_all isspace ws _ Hws Hstart), string_drop_app_0.
  rewrite (count_while_all _ word tail Hfree Htail).
  destruct (String.length word) eqn:Hlen.
  { destruct word; discriminate. }
  rewrite <- Hlen, substring_0_app, string_drop_app_0. reflexivity.
Qed.

(** X25.  [HttpServer::handle_client] never reads a header: for a request
    whose first line is method, path and version separated by single spaces
    and ended by CR LF (or by LF alone), the line that the header loop reads
    first is the rest of the request line, on which the loop stops; no
    Content-Length is found, the body passed to the handlers is empty, and
    the socket is not read again, whatever headers and body the client
    sent. *)
Theorem handle_client_skips_headers (method path version eol rest : string)
    (recv_body : Z -> option string) (k : Kernel) (w : World) :
  is_word method = true -> is_word path = true -> is_word version = true ->
  eol = crlf \/ eol = lf ->
  handle_client (method +:+ " " +:+ path +:+ " " +:+ version +:+ eol +:+ rest)
    recv_body k w =
    match route method path EmptyString k w with
    | Returns response w' => Sent response w'
    | Execs script_path w' => Replaced script_path w'
    end.
Proof.
  intros Hmethod Hpath Hversion Heol. unfold handle_client.
  assert (string_is_empty
            (method +:+ " " +:+ path +:+ " " +:+ version +:+ eol +:+ rest) = false) as ->.
  { destruct method; [discriminate|reflexivity]. }
  rewrite <- (append_nil_l (method +:+ _)).
  rewrite (extract_word_spec EmptyString method
             (" " +:+ path +:+ " " +:+ version +:+ eol +:+ rest)
             eq_refl Hmethod eq_refl).
  rewrite (extract_word_spec " " path (" " +:+ version +:+ eol +:+ rest)
             eq_refl Hpath eq_refl).
  assert (starts_with (fun c => negb (isspace c)) (eol +:+ rest) = false) as Hend.
  { destruct Heol as [-> | ->]; reflexivity. }
  rewrite (extract_word_spec " " version (eol +:+ rest) eq_refl Hversion Hend).
  assert (read_headers (getlines (Some (eol +:+ rest))) ∅ = ∅) as ->.
  { destruct Heol as [-> | ->]; reflexivity. }
  rewrite lookup_empty. reflexivity.
Qed.

(** A POST /start with a Content-Length header and a well-formed body is
    answered as if the body were empty. *)
Lemma handle_client_skips_headers_witness :
  handle_client post_start_request (fun _ => None) (forking_kernel 42 all_alive) fresh_world =
    Sent {| status_code := 400; status_text := "Bad Request";
            data := JsonError "Missing script_path field" |} fresh_world.
Proof.
  exact (handle_client_skips_headers "POST" "/start" "HTTP/1.1" crlf _
           (fun _ => None) (forking_kernel 42 all_alive) fresh_world
           eq_refl eq_refl eq_refl (or_introl eq_refl)).
Defined.

(** * Status codes *)

(** X26.  Whatever the request, a response carries one of four status
    codes: 200 when its document is not an error, and 400, 404 or 500 when
    it is; no other code is ever sent. *)
Theorem route_status_codes (method path body : string) (k : Kernel) (w w' : World)
    (response : Response) :
  route method path body k w = Returns response w' ->
  if is_error (data response)
  then status_code response = 400 \/ status_code response = 404 \/
       status_code response = 500
  else status_code response = 200.
Proof.
  unfold route.
  destruct (String.eqb method "GET" && String.eqb path "/status").
  { unfold returns, handle_status_request, bind.
    destruct (get_system_metrics k w) as [metrics w1].
    rewrite get_running_processes_eq. unfold ret. intros [= <- _]. reflexivity. }
  destruct (String.eqb method "POST" && String.eqb path "/start").
  { unfold handle_start_request.
    destruct (String.eqb (parse_json_field body "script_path") EmptyString).
    { intros [= <- _]. left. reflexivity. }
    destruct (start_process (parse_json_field body "script_path") k w) as [p w1|];
      [|discriminate].
    destruct (p >? 0); intros [= <- _]; [reflexivity|]. right. right. reflexivity. }
  destruct (String.eqb method "POST" && String.eqb path "/stop").
  { unfold returns, handle_stop_request.
    destruct (String.eqb (parse_json_field body "pid") EmptyString).
    { unfold ret. intros [= <- _]. left. reflexivity. }
    destruct (stoi (parse_json_field body "pid")) as [p| |].
    - unfold bind. destruct (stop_process p k w) as [[] w1]; unfold ret;
        intros [= <- _]; [reflexivity|]. right. right. reflexivity.
    - unfold ret. intros [= <- _]. left. reflexivity.
    - unfold ret. intros [= <- _]. left. reflexivity. }
  unfold returns, ret. intros [= <- _]. right. left. reflexivity.
Qed.

Lemma route_status_codes_witness :
  status_code (create_error_response "Not Found" 404) = 400 \/
  status_code (create_error_response "Not Found" 404) = 404 \/
  status_code (create_error_response "Not Found" 404) = 500.
Proof.
  exact (route_status_codes "DELETE" "/status" EmptyString
           (forking_kernel 0 all_alive) fresh_world fresh_world
           (create_error_response "Not Found" 404) eq_refl).
Defined.

(** * Further properties of the CPU baseline and of runs *)

(** X27.  A failed read of /proc/stat is transparent: the call returns 0
    and keeps the stored sample, so the next successful read is compared
    with the last sample that was read, exactly as if the failed call had
    not been made. *)
Theorem cpu_usage_failed_read_transparent (k k' : Kernel) (w : World) (s : CpuSample) :
  proc_stat k (trace w) = None ->
  proc_stat k (trace w ++ [EReadStat]) = Some s ->
  proc_stat k' (trace w) = Some s ->
  (calculate_cpu_usage k w).1 = d0 /\
  (calculate_cpu_usage k (calculate_cpu_usage k w).2).1 = (calculate_cpu_usage k' w).1 /\
  agent (calculate_cpu_usage k (calculate_cpu_usage k w).2).2 =
    agent (calculate_cpu_usage k' w).2.
Proof.
  intros Hfail Hnext Hdirect.
  rewrite (calculate_cpu_usage_unreadable k w Hfail). cbn [fst snd].
  split; [reflexivity|].
  rewrite (calculate_cpu_usage_sample k (after_syscall EReadStat (agent w) w) s Hnext).
  rewrite (calculate_cpu_usage_sample k' w s Hdirect).
  cbn [fst snd after_syscall agent]. split; reflexivity.
Qed.

Lemma cpu_usage_failed_read_transparent_witness :
  (calculate_cpu_usage (stat_after_failure (ticks 150 200)) (sampled (ticks 100 100))).1 = d0 /\
  (calculate_cpu_usage (stat_after_failure (ticks 150 200))
     (calculate_cpu_usage (stat_after_failure (ticks 150 200))
        (sampled (ticks 100 100))).2).1 =
    (calculate_cpu_usage (cpu_kernel [ticks 150 200]) (sampled (ticks 100 100))).1 /\
  agent (calculate_cpu_usage (stat_after_failure (ticks 150 200))
           (calculate_cpu_usage (stat_after_failure (ticks 150 200))
              (sampled (ticks 100 100))).2).2 =
    agent (calculate_cpu_usage (cpu_kernel [ticks 150 200]) (sampled (ticks 100 100))).2.
Proof.
  exact (cpu_usage_failed_read_transparent (stat_after_failure (ticks 150 200))
           (cpu_kernel [ticks 150 200]) (sampled (ticks 100 100)) (ticks 150 200)
           eq_refl eq_refl eq_refl).
Defined.

Lemma count_event_app (e : Event) (h1 h2 : list Event) :
  count_event e (h1 ++ h2) = (count_event e h1 + count_event e h2)%nat.
Proof. unfold count_event. now rewrite filter_app, length_app. Qed.

Lemma count_fork_none (h : list Event) :
  Forall (fun e => e <> EFork) h -> count_event EFork h = O.
Proof.
  unfold count_event. induction 1 as [|e h He _ IH]; [reflexivity|].
  rewrite filter_cons. case_decide; [contradiction|exact IH].
Qed.

Lemma count_fork_probes (pids : list Z) : count_event EFork (probe_of <$> pids) = O.
Proof.
  apply count_fork_none, Forall_fmap, Forall_forall. intros p _. discriminate.
Qed.

Ltac no_fork := repeat constructor; discriminate.

Lemma stop_process_forks (p : Z) (k : Kernel) (w : World) :
  count_event EFork (trace (stop_process p k w).2) = count_event EFork (trace w).
Proof.
  destruct (table_of w !! p) as [info|] eqn:Hin.
  2:{ now rewrite (stop_process_unknown k w p Hin). }
  destruct (Z.eq_dec (kill_result k (trace w) p SIGTERM) 0) as [Hk|Hk].
  2:{ rewrite (stop_process_not_delivered k w p info Hin Hk). cbn [snd trace].
      rewrite count_event_app, (count_fork_none [EKill p SIGTERM]) by no_fork. lia. }
  unfold stop_process, bind, get_agent. rewrite Hin.
  unfold kill, sleep_for_ms, table_erase, syscall, bind, get_agent, put_agent, ret.
  rewrite Hk. change (0 =? 0) with true. cbn [agent trace].
  match goal with |- context [if ?b then _ else _] => destruct b end;
    cbn [snd trace]; rewrite !count_event_app;
    repeat match goal with
    | |- context [count_event EFork [?e]] =>
        rewrite (count_fork_none [e]) by no_fork
    end; lia.
Qed.

Lemma run_op_forks (op : Op) (k : Kernel) (w w' : World) :
  run_op op k w = Some w' ->
  count_event EFork (trace w') =
    (count_event EFork (trace w) + if is_start op then 1 else 0)%nat.
Proof.
  destruct op as [script_path|p| |]; cbn [run_op is_start].
  - unfold start_process, fork, syscall.
    destruct (fork_result k (trace w) =? 0); [discriminate|].
    destruct (fork_result k (trace w) >? 0).
    + unfold returns, bind, get_current_time, table_insert, syscall, bind,
        get_agent, put_agent, ret. cbn [agent trace]. intros [= <-].
      cbn [trace]. rewrite !count_event_app.
      change (count_event EFork [EFork]) with 1%nat.
      change (count_event EFork [EClock]) with 0%nat. lia.
    + intros [= <-]. cbn [trace]. rewrite count_event_app.
      change (count_event EFork [EFork]) with 1%nat. lia.
  - intros [= <-]. rewrite stop_process_forks. lia.
  - intros [= <-].
    destruct (status_request_effects k w) as [Htrace _].
    rewrite Htrace, count_event_app, (count_fork_none [_; _; _]) by no_fork. lia.
  - intros [= <-]. unfold cleanup_zombie_processes, bind, get_agent.
    destruct (reap_trace (entries (table_of w)).*1 k w) as (Htrace & _).
    rewrite Htrace, count_event_app, count_fork_probes. lia.
Qed.

(** X28.  Over any run of start, stop, status and reap operations the agent
    forks exactly once per start and never otherwise: the number of forks in
    the trace grows by the number of start operations of the run. *)
Theorem run_ops_forks (ops : list Op) (k : Kernel) (w w' : World) :
  run_ops ops k w = Some w' ->
  count_event EFork (trace w') =
    (count_event EFork (trace w) + length (filter (fun op => is_start op = true) ops))%nat.
Proof.
  revert w. induction ops as [|op ops IH]; intros w; cbn [run_ops].
  - intros [= <-]. cbn. lia.
  - destruct (run_op op k w) as [w1|] eqn:Hop; [|discriminate].
    intros Hrun. rewrite (IH w1 Hrun), (run_op_forks op k w w1 Hop).
    rewrite filter_cons. destruct op; cbn [is_start];
      repeat case_decide; try discriminate; try congruence; cbn [length]; lia.
Qed.

Lemma run_ops_forks_witness :
  count_event EFork (trace one_child) =
    (count_event EFork (trace fresh_world)
     + length (filter (fun op => is_start op = true) [OpReap; OpStart "./sleep.sh"]))%nat.
Proof.
  apply (run_ops_forks [OpReap; OpStart "./sleep.sh"]
           (forking_kernel 42 all_alive) fresh_world one_child).
  reflexivity.
Defined.
(** * Text: where a pattern occurs *)






(** Two texts that end at the same separator. *)
Lemma prefix_separated (sep : ascii) (label more name rest : string) :
  string_forallb (is_not sep) label = true ->
  string_forallb (is_not sep) name = true ->
  String.prefix (label +:+ String sep more) (name +:+ String sep rest) =
    bool_decide (name = label) && String.prefix more rest.
Proof.
  revert name. induction label as [|c label IH]; intros [|x name] Hlabel Hname.
  - rewrite bool_decide_eq_true_2 by reflexivity. string_step.
    destruct (ascii_dec sep sep) as [_|N]; [reflexivity|now destruct N].
  - cbn [string_forallb] in Hname. apply andb_prop in Hname as [Hx _].
    string_step. destruct (ascii_dec sep x) as [<-|_].
    { unfold is_not in Hx. now rewrite ascii_eqb_refl in Hx. }
    rewrite bool_decide_eq_false_2; [reflexivity|discriminate].
  - cbn [string_forallb] in Hlabel. apply andb_prop in Hlabel as [Hc _].
    string_step. destruct (ascii_dec c sep) as [->|_].
    { unfold is_not in Hc. now rewrite ascii_eqb_refl in Hc. }
    rewrite bool_decide_eq_false_2; [reflexivity|discriminate].
  - cbn [string_forallb] in Hlabel, Hname.
    apply andb_prop in Hlabel as [_ Hlabel]. apply andb_prop in Hname as [_ Hname].
    string_step. destruct (ascii_dec c x) as [->|Hne].
    + rewrite (bool_decide_ext (String x name = String x label) (name = label))
        by (split; [now intros [= ->]|now intros ->]).
      exact (IH name Hlabel Hname).
    + rewrite bool_decide_eq_false_2; [reflexivity|]. intros [= -> _]. now apply Hne.
Qed.

(** * The figures of /proc/meminfo *)

Lemma last_figure_cons (missing n : Z) (rest : list Z) :
  default missing (last (n :: rest)) = default n (last rest).
Proof.
  destruct rest as [|m rest]; [reflexivity|].
  change (last (n :: m :: rest)) with (last (m :: rest)).
  destruct (last (m :: rest)) as [v|] eqn:E; [reflexivity|].
  now apply last_None in E.
Qed.

Lemma meminfo_figure_or_cons (missing : Z) (name : string) (e : MeminfoEntry)
    (rest : list MeminfoEntry) :
  meminfo_figure_or missing name (e :: rest) =
    meminfo_figure_or (if bool_decide (entry_name e = name) then entry_figure e else missing)
      name rest.
Proof.
  unfold meminfo_figure_or. rewrite filter_cons.
  destruct (decide (entry_name e = name)) as [E|N].
  - rewrite (bool_decide_eq_true_2 _ E), fmap_cons. apply last_figure_cons.
  - now rewrite (bool_decide_eq_false_2 _ N).
Qed.

(** On a file in the kernel's format the scan leaves in its two variables
    the figures printed on the last MemTotal and MemAvailable lines. *)
Lemma scan_meminfo_render (entries : list MeminfoEntry) (total available : Z) :
  forallb meminfo_entry_ok entries = true ->
  scan_meminfo id (render_meminfo entries) total available =
    (meminfo_figure_or total "MemTotal" entries,
     meminfo_figure_or available "MemAvailable" entries).
Proof.
  revert total available.
  induction entries as [|[name padding n] rest IH]; intros total available Hok;
    [reflexivity|].
  cbn [forallb] in Hok. apply andb_prop in Hok as [He Hrest].
  unfold meminfo_entry_ok in He. cbn [entry_name entry_padding entry_figure] in He.
  apply andb_prop in He as [He Hhi]. apply andb_prop in He as [He Hlo].
  apply andb_prop in He as [Hname Hpad].
  apply Z.leb_le in Hlo, Hhi.
  rewrite !meminfo_figure_or_cons. cbn [entry_name entry_figure].
  unfold render_meminfo. rewrite fmap_cons. fold (render_meminfo rest).
  cbn [entry_name entry_padding entry_figure scan_meminfo].
  assert (forall label, string_forallb (is_not ":") label = true ->
            String.prefix (label +:+ ":") (meminfo_line (name +:+ ":") padding n)
            = bool_decide (name = label)) as Hprefix.
  { intros label Hlabel. unfold meminfo_line. rewrite append_assoc.
    set (tail := padding +:+ to_string n +:+ " kB").
    change (String.prefix (label +:+ String ":" EmptyString) (name +:+ String ":" tail)
            = bool_decide (name = label)).
    rewrite (prefix_separated ":" label EmptyString name tail Hlabel Hname).
    destruct tail; apply andb_true_r. }
  change "MemTotal:"%string with ("MemTotal" +:+ ":") at 1.
  rewrite (Hprefix "MemTotal"%string eq_refl).
  destruct (decide (name = "MemTotal"%string)) as [->|Nt].
  { rewrite bool_decide_eq_true_2 by reflexivity.
    rewrite bool_decide_eq_false_2 by discriminate.
    change ("MemTotal" +:+ ":") with "MemTotal:"%string.
    rewrite (sscanf_ld_meminfo_line "MemTotal:" padding n Hpad (conj Hlo Hhi)).
    cbn [from_option id]. apply IH, Hrest. }
  rewrite (bool_decide_eq_false_2 _ Nt).
  change "MemAvailable:"%string with ("MemAvailable" +:+ ":") at 1.
  rewrite (Hprefix "MemAvailable"%string eq_refl).
  destruct (decide (name = "MemAvailable"%string)) as [->|Na].
  { rewrite bool_decide_eq_true_2 by reflexivity.
    change ("MemAvailable" +:+ ":") with "MemAvailable:"%string.
    rewrite (sscanf_ld_meminfo_line "MemAvailable:" padding n Hpad (conj Hlo Hhi)).
    cbn [from_option id]. apply IH, Hrest. }
  rewrite (bool_decide_eq_false_2 _ Na). apply IH, Hrest.
Qed.

(** C7.  [calculate_memory_usage] returns 0 when /proc/meminfo cannot be
    read.  When it can, the call returns [100 * (1 - available / total)] of
    the two figures that the scan of the lines has stored if the total is
    strictly positive, and 0 if the total is 0 (or negative).  On a file in
    the kernel's format these two are the figures printed on the MemTotal
    and MemAvailable lines, 0 standing for a line that the file does not
    have. *)
Theorem memory_usage_formula (k : Kernel) (w : World) :
  let r := (calculate_memory_usage k w).1 in
  (proc_meminfo k (trace w) = None -> r = d0) /\
  (forall lines : list string,
     proc_meminfo k (trace w) = Some lines ->
     let total_memory := (scan_meminfo id lines 0 0).1 in
     let available_memory := (scan_meminfo id lines 0 0).2 in
     (0 < total_memory ->
      r = dmul d100 (dsub d1 (ddiv (of_long available_memory) (of_long total_memory)))) /\
     (total_memory <= 0 -> r = d0)) /\
  (forall entries : list MeminfoEntry,
     forallb meminfo_entry_ok entries = true ->
     proc_meminfo k (trace w) = Some (render_meminfo entries) ->
     let total := meminfo_figure "MemTotal" entries in
     let available := meminfo_figure "MemAvailable" entries in
     (0 < total ->
      r = dmul d100 (dsub d1 (ddiv (of_long available) (of_long total)))) /\
     (total <= 0 -> r = d0)).
Proof.
  cbv zeta. rewrite calculate_memory_usage_eq. cbn [fst].
  assert (forall lines total available,
            scan_meminfo id lines 0 0 = (total, available) ->
            (0 < total ->
             memory_usage_of (Some lines) =
               dmul d100 (dsub d1 (ddiv (of_long available) (of_long total)))) /\
            (total <= 0 -> memory_usage_of (Some lines) = d0)) as Hscan.
  { intros lines total available E. unfold memory_usage_of. rewrite E.
    destruct (Z.gtb_spec total 0); split; intros; (reflexivity || lia). }
  split; [|split].
  - intros ->. reflexivity.
  - intros lines ->. apply Hscan. now destruct (scan_meminfo id lines 0 0).
  - intros entries Hok ->. apply Hscan. now apply scan_meminfo_render.
Qed.

(** Witness of C7: a file of four lines, 4096064 kB available out of
    16384256 kB. *)
Lemma memory_usage_formula_witness :
  render_meminfo meminfo_typical_entries = meminfo_typical /\
  (calculate_memory_usage (mem_kernel meminfo_typical) fresh_world).1 =
    dmul d100 (dsub d1 (ddiv (of_long 4096064) (of_long 16384256))).
Proof.
  split; [vm_compute; reflexivity|].
  destruct (memory_usage_formula (mem_kernel meminfo_typical) fresh_world)
    as (_ & _ & Hfile).
  destruct (Hfile meminfo_typical_entries) as [Hpositive _].
  - vm_compute. reflexivity.
  - vm_compute. reflexivity.
  - apply Hpositive. vm_compute. reflexivity.
Defined.

(** The same file without its MemTotal line: the total stays 0 and so does
    the result. *)
Example memory_usage_no_total :
  (calculate_memory_usage
     (mem_kernel (render_meminfo (tail meminfo_typical_entries))) fresh_world).1 = d0.
Proof. vm_compute. reflexivity. Qed.

(** * Request bodies as JSON objects *)





(** ** The key of a field at a double quote of the body *)



















(** * POST /start without a script path *)



Example spaced_empty_path_text :
  render_object spaced_empty_path =
    "{" +:+ quote "name" +:+ ": " +:+ quote "job" +:+ ", " +:+ quote "retries" +:+ ": 3, " +:+
    quote "script_path" +:+ ": " +:+ quote EmptyString +:+ "}".
Proof. vm_compute. reflexivity. Qed.

